(** * Stickman locomotion: the per-frame update of the three scene scripts

    The repository holds three versions of one browser script.  Each builds a
    stick figure out of three.js objects and moves it from a
    [requestAnimationFrame] callback called [animate]:

    - [Basic]    : src/main.js            (ground at height 0, no bob, limbs
                                           snap back to rest),
    - [Ground]   : src/unnamed/part_001   (ground at [state.groundLevel], bob,
                                           limbs eased back with [lerp]),
    - [Platform] : src/unnamed/part_000   (as [Ground], but the ground is a
                                           loaded mesh probed by a ray).

    JavaScript numbers are idealised as real numbers: [Math.sin], [Math.cos],
    [Math.abs] and [Math.PI] are [sin], [cos], [Rabs] and [PI] of the
    Standard Library, and rounding is not modelled.  In one place a relation
    between two computed values rests on a sum being exact, the half cycle
    [phase + Math.PI] between opposite limbs: there the error of the sum is
    written out ([oppositeCycle]) and the relation is stated up to it.

    The global objects the callback mutates ([state], [stickman.position],
    [stickman.rotation.y] and the [rotation.x] of the four limbs) are
    gathered in one record that [animate] takes and returns; what the
    callback reads from outside (the [keys] object, [Date.now()], the loaded
    mesh) is an argument. *)

From Stdlib Require Import Reals Lra Lia ZArith List String Bool.
Import ListNotations.

Local Open Scope R_scope.

(** ** three.js values used by the scripts *)

(** [THREE.Vector3] *)
Record Vector3 : Type := Vec3 { vx : R; vy : R; vz : R }.

(** [a.add(b)] *)
Definition add (a b : Vector3) : Vector3 :=
  Vec3 (vx a + vx b) (vy a + vy b) (vz a + vz b).

(** [v.multiplyScalar(s)] *)
Definition multiplyScalar (v : Vector3) (s : R) : Vector3 :=
  Vec3 (vx v * s) (vy v * s) (vz v * s).

(** [v.applyAxisAngle(new THREE.Vector3(0, 1, 0), angle)]: the rotation of [v]
    about the vertical axis. *)
Definition applyAxisAngleY (v : Vector3) (angle : R) : Vector3 :=
  Vec3 (vx v * cos angle + vz v * sin angle)
       (vy v)
       (vz v * cos angle - vx v * sin angle).

Definition set_y (v : Vector3) (h : R) : Vector3 := Vec3 (vx v) h (vz v).

(** [THREE.MathUtils.lerp(x, y, t)] *)
Definition lerp (x y t : R) : R := (1 - t) * x + t * y.

(** The test [a <= b] of the script, as a boolean. *)
Definition Rleb (a b : R) : bool := if Rle_dec a b then true else false.

(** The [keys] object of part_000 and part_001: [keys[code]] read as a
    condition ([undefined] counts as [false]). *)
Definition Keys : Type := string -> bool.

(** [keys[e.code] = v], as the [keydown] ([v = true]) and [keyup]
    ([v = false]) listeners do. *)
Definition setKey (code : string) (v : bool) (keys : Keys) : Keys :=
  fun c => if String.eqb c code then v else keys c.

Definition noKeys : Keys := fun _ => false.

(** The [keys] object while exactly the keys of [codes] are down. *)
Definition holding (codes : list string) : Keys :=
  fun c => existsb (String.eqb c) codes.

(** ** The state shared by part_000 and part_001

    [state.gravity], [state.walkSpeed], [state.runSpeed] and
    [state.turnSpeed] are written once, in the object literal, and are the same
    in both scripts: they are constants here.  [state.velocity] is only ever
    used through its [y]. *)
Module Stick.

Definition scale : R := 1.8.
Definition legLength : R := 1.3 * scale.

Definition gravity : R := -0.02.
Definition walkSpeed : R := 0.05.
Definition runSpeed : R := 0.12.
Definition turnSpeed : R := 0.06.
Definition jumpImpulse : R := 0.3.

Record World : Type := mkWorld {
  isWalking : bool;
  isRunning : bool;
  isJumping : bool;
  velocity : Vector3;
  jumpForce : R;
  groundLevel : R;
  position : Vector3;        (* stickman.position *)
  rotation_y : R;            (* stickman.rotation.y *)
  leftArm : R;               (* parts.leftArm.rotation.x *)
  rightArm : R;
  leftLeg : R;
  rightLeg : R
}.

Definition set_isWalking (b : bool) (w : World) : World :=
  mkWorld b (isRunning w) (isJumping w) (velocity w) (jumpForce w)
          (groundLevel w) (position w) (rotation_y w)
          (leftArm w) (rightArm w) (leftLeg w) (rightLeg w).

Definition set_isRunning (b : bool) (w : World) : World :=
  mkWorld (isWalking w) b (isJumping w) (velocity w) (jumpForce w)
          (groundLevel w) (position w) (rotation_y w)
          (leftArm w) (rightArm w) (leftLeg w) (rightLeg w).

Definition set_isJumping (b : bool) (w : World) : World :=
  mkWorld (isWalking w) (isRunning w) b (velocity w) (jumpForce w)
          (groundLevel w) (position w) (rotation_y w)
          (leftArm w) (rightArm w) (leftLeg w) (rightLeg w).

Definition set_velocity_y (v : R) (w : World) : World :=
  mkWorld (isWalking w) (isRunning w) (isJumping w) (set_y (velocity w) v)
          (jumpForce w) (groundLevel w) (position w) (rotation_y w)
          (leftArm w) (rightArm w) (leftLeg w) (rightLeg w).

Definition set_jumpForce (f : R) (w : World) : World :=
  mkWorld (isWalking w) (isRunning w) (isJumping w) (velocity w) f
          (groundLevel w) (position w) (rotation_y w)
          (leftArm w) (rightArm w) (leftLeg w) (rightLeg w).

Definition set_groundLevel (g : R) (w : World) : World :=
  mkWorld (isWalking w) (isRunning w) (isJumping w) (velocity w) (jumpForce w)
          g (position w) (rotation_y w)
          (leftArm w) (rightArm w) (leftLeg w) (rightLeg w).

Definition set_position (p : Vector3) (w : World) : World :=
  mkWorld (isWalking w) (isRunning w) (isJumping w) (velocity w) (jumpForce w)
          (groundLevel w) p (rotation_y w)
          (leftArm w) (rightArm w) (leftLeg w) (rightLeg w).

Definition set_position_y (h : R) (w : World) : World :=
  set_position (set_y (position w) h) w.

Definition set_rotation_y (a : R) (w : World) : World :=
  mkWorld (isWalking w) (isRunning w) (isJumping w) (velocity w) (jumpForce w)
          (groundLevel w) (position w) a
          (leftArm w) (rightArm w) (leftLeg w) (rightLeg w).

Definition set_limbs (la ra ll rl : R) (w : World) : World :=
  mkWorld (isWalking w) (isRunning w) (isJumping w) (velocity w) (jumpForce w)
          (groundLevel w) (position w) (rotation_y w) la ra ll rl.

(** The objects as the scripts leave them before the first frame. *)
Definition initial : World :=
  mkWorld false false false (Vec3 0 0 0) 0 legLength
          (Vec3 0 legLength 0) 0 0 0 0 0.

(** [animateWalking(time)], the same text in both scripts. *)
Definition frequency (running : bool) : R := if running then 5 else 3.
Definition armAmplitude (running : bool) : R := if running then 0.8 else 0.5.
Definition legAmplitude (running : bool) : R := if running then 1.0 else 0.6.

Definition bodyBob (time : R) (running : bool) : R :=
  Rabs (sin (time * frequency running * 2)) * 0.05.

Definition animateWalking (time : R) (w : World) : World :=
  if negb (isWalking w) then
    set_limbs (lerp (leftArm w) 0 0.1) (lerp (rightArm w) 0 0.1)
              (lerp (leftLeg w) 0 0.1) (lerp (rightLeg w) 0 0.1) w
  else
    let cycle := sin (time * frequency (isRunning w)) in
    let oppositeCycle := sin (time * frequency (isRunning w) + PI) in
    let w := set_limbs (cycle * armAmplitude (isRunning w))
                       (oppositeCycle * armAmplitude (isRunning w))
                       (oppositeCycle * legAmplitude (isRunning w))
                       (cycle * legAmplitude (isRunning w)) w in
    set_position_y (groundLevel w + bodyBob time (isRunning w)) w.

(** The key tests of [animate]. *)
Definition forwardHeld (keys : Keys) : bool :=
  (keys "ArrowUp" || keys "KeyW")%string.
Definition backwardHeld (keys : Keys) : bool :=
  (keys "ArrowDown" || keys "KeyS")%string.
Definition leftHeld (keys : Keys) : bool :=
  (keys "ArrowLeft" || keys "KeyA")%string.
Definition rightHeld (keys : Keys) : bool :=
  (keys "ArrowRight" || keys "KeyD")%string.
Definition shiftHeld (keys : Keys) : bool :=
  (keys "ShiftLeft" || keys "ShiftRight")%string.
Definition spaceHeld (keys : Keys) : bool := keys "Space"%string.

(** The first part of [animate], up to the turn keys ("Handle input"). *)
Definition handleInput (keys : Keys) (w : World) : World :=
  let w := set_isWalking false w in
  let w := set_isRunning (shiftHeld keys) w in
  let moveSpeed := if isRunning w then runSpeed else walkSpeed in
  let w :=
    if forwardHeld keys then
      let forward := Vec3 (sin (rotation_y w)) 0 (cos (rotation_y w)) in
      set_isWalking true
        (set_position (add (position w) (multiplyScalar forward moveSpeed)) w)
    else w in
  let w :=
    if backwardHeld keys then
      let backward := Vec3 (- sin (rotation_y w)) 0 (- cos (rotation_y w)) in
      set_isWalking true
        (set_position
           (add (position w) (multiplyScalar backward (moveSpeed * 0.6))) w)
    else w in
  let w :=
    if leftHeld keys
    then set_rotation_y (rotation_y w + turnSpeed) w else w in
  if rightHeld keys
  then set_rotation_y (rotation_y w - turnSpeed) w else w.

(** "Jumping" *)
Definition jumping (keys : Keys) (w : World) : World :=
  if (spaceHeld keys && negb (isJumping w))%bool
  then set_isJumping true (set_jumpForce jumpImpulse w)
  else w.

(** "Physics" *)
Definition physics (w : World) : World :=
  let w := set_velocity_y (vy (velocity w) + gravity) w in
  let w := set_velocity_y (vy (velocity w) + jumpForce w) w in
  let w := set_jumpForce 0 w in
  set_position_y (vy (position w) + vy (velocity w)) w.

(** [Date.now() * 0.001], [Date.now()] being a whole number of
    milliseconds. *)
Definition seconds (now : Z) : R := IZR now * 0.001.

(** The world as the ground test of [animate] finds it: input, jump and
    physics done. *)
Definition integrated (keys : Keys) (w : World) : World :=
  physics (jumping keys (handleInput keys w)).

(** [keys] with the space bar released. *)
Definition releaseSpace (keys : Keys) : Keys := setKey "Space" false keys.

(** The four joint angles: left arm, right arm, left leg, right leg. *)
Definition limbs (w : World) : list R :=
  [leftArm w; rightArm w; leftLeg w; rightLeg w].

(** Neither a forward nor a backward key is down. *)
Definition idle (keys : Keys) : Prop :=
  forwardHeld keys = false /\ backwardHeld keys = false.

End Stick.

(** ** part_001: flat ground at [state.groundLevel] *)
Module Ground.
Import Stick.

(** "Ground collision" *)
Definition groundCollision (w : World) : World :=
  if Rleb (vy (position w)) (groundLevel w) then
    set_isJumping false
      (set_velocity_y 0 (set_position_y (groundLevel w) w))
  else w.

(** One call of [animate], without the rendering. *)
Definition animate (keys : Keys) (now : Z) (w : World) : World :=
  let time := seconds now in
  let w := handleInput keys w in
  let w := jumping keys w in
  let w := physics w in
  let w := groundCollision w in
  animateWalking time w.

(** What one frame reads from outside. *)
Record Frame : Type := mkFrame { keys : Keys; now : Z }.

(** The frames of a session, oldest first. *)
Fixpoint run (frames : list Frame) (w : World) : World :=
  match frames with
  | [] => w
  | f :: rest => run rest (animate (keys f) (now f) w)
  end.

(** Between two frames of a figure that stands or walks on the ground: no
    impulse is pending, the figure is not below the ground, and unless a jump
    is under way it is not moving up and is within the bob of the ground. *)
Definition resting (w : World) : Prop :=
  jumpForce w = 0 /\
  groundLevel w <= vy (position w) /\
  (isJumping w = false ->
   vy (velocity w) <= 0 /\ vy (position w) <= groundLevel w + 0.05).

(** The jump flag is set after every frame of the session. *)
Fixpoint airborne (frames : list Frame) (w : World) : Prop :=
  match frames with
  | [] => True
  | f :: rest =>
      isJumping (animate (keys f) (now f) w) = true /\
      airborne rest (animate (keys f) (now f) w)
  end.


(** The figure stands on the ground. *)
Definition onGround (w : World) : Prop :=
  vy (position w) = groundLevel w /\ vy (velocity w) = 0 /\
  isJumping w = false /\ jumpForce w = 0.

End Ground.

(** ** part_000: the ground is a loaded mesh, probed by a ray *)
Module Platform.
Import Stick.

(** A mesh as a vertical ray meets it: the heights at which the vertical line
    through [(x, z)] crosses its surface. *)
Definition Mesh : Type := R -> R -> list R.

(** An entry of the array [raycaster.intersectObject] returns. *)
Record Intersection : Type := mkIntersection { distance : R; point : Vector3 }.

Fixpoint insertByDistance (i : Intersection) (l : list Intersection)
  : list Intersection :=
  match l with
  | [] => [i]
  | j :: rest =>
      if Rleb (distance i) (distance j) then i :: l
      else j :: insertByDistance i rest
  end.

Definition sortByDistance (l : list Intersection) : list Intersection :=
  fold_right insertByDistance [] l.

(** [raycaster.set(origin, down); raycaster.intersectObject(mesh, true)] with
    [down = (0, -1, 0)] and the default [near = 0], [far = Infinity]: the
    points of the mesh on the half line that starts at [origin] and goes
    down, nearest first. *)
Definition intersectObject (origin : Vector3) (mesh : Mesh)
  : list Intersection :=
  sortByDistance
    (map (fun h => mkIntersection (vy origin - h)
                                  (Vec3 (vx origin) h (vz origin)))
         (filter (fun h => Rleb h (vy origin))
                 (mesh (vx origin) (vz origin)))).

(** A horizontal sheet at height [h], the simplest mesh. *)
Definition sheet (h : R) : Mesh := fun _ _ => [h].

(** A node of the loaded scene, as [traverse] visits it. *)
Record Node : Type := mkNode { isMesh : bool; geometry : Mesh }.

Definition isNull {A : Type} (o : option A) : bool :=
  match o with None => true | Some _ => false end.

(** The second [traverse] of the [loader.load] callback: [platformMesh]
    becomes the first mesh of the scene, once. *)
Definition onLoad (scene : list Node) (platformMesh : option Mesh)
  : option Mesh :=
  fold_left
    (fun pm child =>
       if (isMesh child && isNull pm)%bool then Some (geometry child) else pm)
    scene platformMesh.

(** The block [if (platformMesh) { ... }] of [animate]. *)
Definition contact (platformMesh : option Mesh) (w : World) : World :=
  match platformMesh with
  | None => w
  | Some mesh =>
      let intersects :=
        intersectObject (add (position w) (Vec3 0 1 0)) mesh in
      match intersects with
      | [] => w
      | hit :: _ =>
          let contactY := vy (point hit) in
          let w :=
            if Rleb (vy (position w)) (contactY + 0.01) then
              set_isJumping false
                (set_velocity_y 0 (set_position_y contactY w))
            else w in
          set_groundLevel contactY w
      end
  end.

(** One call of [animate], without the rendering. *)
Definition animate (platformMesh : option Mesh) (keys : Keys) (now : Z)
  (w : World) : World :=
  let time := seconds now in
  let w := handleInput keys w in
  let w := jumping keys w in
  let w := physics w in
  let w := contact platformMesh w in
  animateWalking time w.

(** What one frame reads from outside; [platformMesh] is the variable the
    load callback writes. *)
Record Frame : Type :=
  mkFrame { platformMesh : option Mesh; keys : Keys; now : Z }.

Fixpoint run (frames : list Frame) (w : World) : World :=
  match frames with
  | [] => w
  | f :: rest => run rest (animate (platformMesh f) (keys f) (now f) w)
  end.

(** A frame that runs before the mesh is loaded. *)
Definition unloaded (f : Frame) : Prop := platformMesh f = None.

(** Such a frame with no forward, backward or jump key down. *)
Definition untouched (f : Frame) : Prop :=
  platformMesh f = None /\ idle (keys f) /\ spaceHeld (keys f) = false.

End Platform.

(** ** main.js *)
Module Basic.

Definition gravity : R := -0.01.
Definition speed : R := 0.05.
Definition runSpeed : R := 0.1.
Definition turnSpeed : R := 0.05.
Definition jumpImpulse : R := 0.2.

(** The [keys] object literal. *)
Record Keys : Type := mkKeys {
  ArrowUp : bool; ArrowDown : bool; ArrowLeft : bool; ArrowRight : bool;
  Space : bool; Shift : bool
}.

Record World : Type := mkWorld {
  isWalking : bool;
  isRunning : bool;
  isJumping : bool;
  direction : Vector3;
  velocity : Vector3;
  jumpForce : R;
  position : Vector3;        (* stickman.position *)
  rotation_y : R;            (* stickman.rotation.y *)
  leftArm : R;               (* leftArmMesh.rotation.x *)
  rightArm : R;
  leftLeg : R;
  rightLeg : R
}.

(** [animateStickmanLimbs(time, isWalking, isRunning)]: the four angles it
    assigns, in the order left arm, right arm, left leg, right leg. *)
Definition animateStickmanLimbs (time : R) (walking running : bool)
  : R * R * R * R :=
  let speed := if running then 2.5 else 1.5 in
  let swing := if walking then sin (time * speed) * 0.7 else 0 in
  let swingOpp := if walking then sin (time * speed + PI) * 0.7 else 0 in
  (swing, swingOpp, swingOpp, swing).

(** One call of [animate], without the camera and the rendering. *)
Definition animate (keys : Keys) (now : Z) (w : World) : World :=
  (* Update movement *)
  let direction := Vec3 0 0 0 in
  let isWalking := false in
  let isRunning := Shift keys in
  let '(direction, isWalking) :=
    if ArrowUp keys
    then (Vec3 (vx direction) (vy direction) (-1), true)
    else (direction, isWalking) in
  let '(direction, isWalking) :=
    if ArrowDown keys
    then (Vec3 (vx direction) (vy direction) 1, true)
    else (direction, isWalking) in
  let rotation_y :=
    if ArrowLeft keys then rotation_y w + turnSpeed else rotation_y w in
  let rotation_y :=
    if ArrowRight keys then rotation_y - turnSpeed else rotation_y in
  (* Jumping *)
  let '(jumpForce, isJumping) :=
    if (Space keys && negb (isJumping w))%bool
    then (jumpImpulse, true) else (jumpForce w, isJumping w) in
  (* Apply gravity and jumping *)
  let velocity_y := vy (velocity w) + gravity in
  let velocity_y := velocity_y + jumpForce in
  let jumpForce := 0 in
  (* Update position (move in facing direction) *)
  let moveSpeed := if isRunning then runSpeed else speed in
  let position :=
    if isWalking then
      let forward := applyAxisAngleY (Vec3 0 0 (vz direction)) rotation_y in
      add (position w) (multiplyScalar forward moveSpeed)
    else position w in
  let position := set_y position (vy position + velocity_y) in
  (* Ground collision *)
  let '(position, velocity_y, isJumping) :=
    if Rleb (vy position) 0
    then (set_y position 0, 0, false)
    else (position, velocity_y, isJumping) in
  let '(la, ra, ll, rl) :=
    animateStickmanLimbs (Stick.seconds now) isWalking isRunning in
  mkWorld isWalking isRunning isJumping direction
          (set_y (velocity w) velocity_y) jumpForce position rotation_y
          la ra ll rl.

Record Frame : Type := mkFrame { keys : Keys; now : Z }.

Fixpoint run (frames : list Frame) (w : World) : World :=
  match frames with
  | [] => w
  | f :: rest => run rest (animate (keys f) (now f) w)
  end.

(** The jump flag is set after every frame of the session. *)
Fixpoint airborne (frames : list Frame) (w : World) : Prop :=
  match frames with
  | [] => True
  | f :: rest =>
      isJumping (animate (keys f) (now f) w) = true /\
      airborne rest (animate (keys f) (now f) w)
  end.

(** [keys] with the space bar released. *)
Definition releaseSpace (k : Keys) : Keys :=
  mkKeys (ArrowUp k) (ArrowDown k) (ArrowLeft k) (ArrowRight k) false
         (Shift k).

Definition limbs (w : World) : list R :=
  [leftArm w; rightArm w; leftLeg w; rightLeg w].

(** [keys] with the up arrow released. *)
Definition releaseUp (k : Keys) : Keys :=
  mkKeys false (ArrowDown k) (ArrowLeft k) (ArrowRight k) (Space k)
         (Shift k).

(** The objects at rest at the origin, as an idle frame leaves them. *)
Definition rest : World :=
  mkWorld false false false (Vec3 0 0 0) (Vec3 0 0 0) 0 (Vec3 0 0 0) 0
          0 0 0 0.

Definition noKeys : Keys := mkKeys false false false false false false.

End Basic.

(** [Math.sin(phase + Math.PI)], the opposite cycle of the three limb
    animations ([oppositeCycle] in part_001, [oppCycle] in part_000,
    [swingOpp / 0.7] in main.js), with the rounding of its argument written
    out: the double [phase + Math.PI] is the real [phase + PI] off by [err].
    The limb animations above take it at [err = 0]. *)
Definition oppositeCycle (err phase : R) : R := sin (phase + PI + err).

(** Two headings that differ by whole turns. *)
Definition sameHeading (a b : R) : Prop :=
  exists k : Z, a = b + IZR k * (2 * PI).

(** ** Sample inputs *)
Module Sample.

(** Space bar down and nothing else, for three frames. *)
Definition hold : Keys := holding ["Space"%string].
Definition jumpSession : list Ground.Frame :=
  [Ground.mkFrame hold 0; Ground.mkFrame hold 16; Ground.mkFrame hold 33].

Definition held : Basic.Keys :=
  Basic.mkKeys false false false false true false.
Definition jumpSession' : list Basic.Frame :=
  [Basic.mkFrame held 0; Basic.mkFrame held 16; Basic.mkFrame held 33].

(** Movement keys of part_000 and part_001. *)
Definition forward : Keys := holding ["KeyW"%string].
Definition forwardRun : Keys := holding ["ArrowUp"; "ShiftLeft"]%string.
Definition backward : Keys := holding ["KeyS"%string].
Definition both : Keys := holding ["ArrowUp"; "ArrowDown"]%string.
Definition leftJump : Keys := holding ["KeyA"; "KeyW"; "Space"]%string.

(** Arrow keys of main.js. *)
Definition up : Basic.Keys := Basic.mkKeys true false false false false false.
Definition down : Basic.Keys :=
  Basic.mkKeys false true false false false false.
Definition upDown : Basic.Keys :=
  Basic.mkKeys true true false false false false.
Definition leftUp : Basic.Keys :=
  Basic.mkKeys true false true false true false.

(** Turning left while walking and jumping, for three frames. *)
Definition turnSession : list Ground.Frame :=
  [Ground.mkFrame leftJump 0; Ground.mkFrame leftJump 16;
   Ground.mkFrame leftJump 33].
Definition turnSession' : list Platform.Frame :=
  [Platform.mkFrame None leftJump 0; Platform.mkFrame None leftJump 16;
   Platform.mkFrame None leftJump 33].
Definition turnSession'' : list Basic.Frame :=
  [Basic.mkFrame leftUp 0; Basic.mkFrame leftUp 16; Basic.mkFrame leftUp 33].

(** Half a second after the clock's zero, walking forward. *)
Definition walking : Stick.World :=
  Ground.animate forward 500 Stick.initial.

(** main.js, one second after the clock's zero, walking. *)
Definition swung : Basic.World := Basic.animate up 1000 Basic.rest.

(** Nothing held, for three frames. *)
Definition restSession : list Ground.Frame :=
  [Ground.mkFrame noKeys 516; Ground.mkFrame noKeys 533;
   Ground.mkFrame noKeys 550].

(** Walking forward with the space bar down, for three frames. *)
Definition walkJump : Keys := holding ["KeyW"; "Space"]%string.
Definition walkJumpSession : list Ground.Frame :=
  [Ground.mkFrame walkJump 0; Ground.mkFrame walkJump 16;
   Ground.mkFrame walkJump 33].

(** Walking forward before the mesh is loaded, for three frames. *)
Definition noSurface : list Platform.Frame :=
  [Platform.mkFrame None forward 0; Platform.mkFrame None forward 16;
   Platform.mkFrame None forward 33].

(** Nothing held before the mesh is loaded, for three frames. *)
Definition freeFall : list Platform.Frame :=
  [Platform.mkFrame None noKeys 0; Platform.mkFrame None noKeys 16;
   Platform.mkFrame None noKeys 33].

(** A sheet within reach above the figure, and one out of reach. *)
Definition ledge : Platform.Mesh := Platform.sheet 3.
Definition ceiling : Platform.Mesh := Platform.sheet 10.

(** Two surfaces in every column: a floor at the height the figure starts
    from, and a step 1.2 above it. *)
Definition stairs : Platform.Mesh :=
  fun _ _ => [Stick.legLength; Stick.legLength + 1.2].



End Sample.

(** ** Key listeners *)
Module Listeners.

(** A keyboard event as the listeners see it: which of the two fires, and
    [e.code]. *)
Inductive KeyEvent : Type :=
| keydown (code : string)
| keyup (code : string).

Definition code (e : KeyEvent) : string :=
  match e with keydown c => c | keyup c => c end.

(** The value the listener writes: [true] in [keydown], [false] in
    [keyup]. *)
Definition pressed (e : KeyEvent) : bool :=
  match e with keydown _ => true | keyup _ => false end.

(** part_000 and part_001: [keys[e.code] = true] and [keys[e.code] = false]
    ([e.preventDefault()] does not touch [keys]).  [keys] is a plain object,
    [{}]: an assignment to its property [__proto__] goes to the setter it
    inherits from [Object.prototype], which ignores a boolean and creates no
    property, so that [keys["__proto__"]] reads as before.  Every other name
    is created or overwritten on [keys] itself. *)
Definition listen (e : KeyEvent) (keys : Keys) : Keys :=
  if String.eqb (code e) "__proto__" then keys
  else setKey (code e) (pressed e) keys.

Definition listenAll (events : list KeyEvent) (keys : Keys) : Keys :=
  fold_left (fun k e => listen e k) events keys.

(** What the last event that carries code [c] wrote, if there is one. *)
Fixpoint lastEvent (c : string) (events : list KeyEvent) : option bool :=
  match events with
  | [] => None
  | e :: rest =>
      match lastEvent c rest with
      | Some v => Some v
      | None => if String.eqb c (code e) then Some (pressed e) else None
      end
  end.

(** main.js: [if (e.code in keys) keys[e.code] = v], as far as the six
    properties of the object literal go (a code that names none of them
    leaves all six as they are). *)
Definition listenBasic (e : KeyEvent) (k : Basic.Keys) : Basic.Keys :=
  let v := pressed e in
  let c := code e in
  if String.eqb c "ArrowUp" then
    Basic.mkKeys v (Basic.ArrowDown k) (Basic.ArrowLeft k)
                 (Basic.ArrowRight k) (Basic.Space k) (Basic.Shift k)
  else if String.eqb c "ArrowDown" then
    Basic.mkKeys (Basic.ArrowUp k) v (Basic.ArrowLeft k)
                 (Basic.ArrowRight k) (Basic.Space k) (Basic.Shift k)
  else if String.eqb c "ArrowLeft" then
    Basic.mkKeys (Basic.ArrowUp k) (Basic.ArrowDown k) v
                 (Basic.ArrowRight k) (Basic.Space k) (Basic.Shift k)
  else if String.eqb c "ArrowRight" then
    Basic.mkKeys (Basic.ArrowUp k) (Basic.ArrowDown k) (Basic.ArrowLeft k)
                 v (Basic.Space k) (Basic.Shift k)
  else if String.eqb c "Space" then
    Basic.mkKeys (Basic.ArrowUp k) (Basic.ArrowDown k) (Basic.ArrowLeft k)
                 (Basic.ArrowRight k) v (Basic.Shift k)
  else if String.eqb c "Shift" then
    Basic.mkKeys (Basic.ArrowUp k) (Basic.ArrowDown k) (Basic.ArrowLeft k)
                 (Basic.ArrowRight k) (Basic.Space k) v
  else k.

(** What the page does, in order: a key event or a frame at a clock
    reading. *)
Inductive Event : Type :=
| Key (e : KeyEvent)
| Tick (now : Z).



(** part_001 with its listeners. *)
Definition stepGround (ev : Event) (s : Keys * Stick.World)
  : Keys * Stick.World :=
  match ev with
  | Key e => (listen e (fst s), snd s)
  | Tick now => (fst s, Ground.animate (fst s) now (snd s))
  end.

Definition playGround (events : list Event) (s : Keys * Stick.World)
  : Keys * Stick.World :=
  fold_left (fun s ev => stepGround ev s) events s.

(** The codes [animate] of part_000 and part_001 reads. *)
Definition tested : list string :=
  ["ShiftLeft"; "ShiftRight"; "ArrowUp"; "KeyW"; "ArrowDown"; "KeyS";
   "ArrowLeft"; "KeyA"; "ArrowRight"; "KeyD"; "Space"]%string.

End Listeners.

(** ** The legs of part_000 and part_001 *)
Module Figure.
Import Stick.

(** [createLeg(length)]: a group whose origin is the hip, holding a cylinder
    of height [length] along y, centred at [mesh.position.y]. *)
Record Limb : Type := mkLimb { meshY : R; height : R }.

Definition createLeg (length : R) : Limb := mkLimb (- length / 2) length.

(** The two ends of the cylinder's axis, in the group. *)
Definition upperEnd (l : Limb) : Vector3 := Vec3 0 (meshY l + height l / 2) 0.
Definition lowerEnd (l : Limb) : Vector3 := Vec3 0 (meshY l - height l / 2) 0.

(** A point of an object whose only rotation is [rotation.x = a]. *)
Definition rotateX (p : Vector3) (a : R) : Vector3 :=
  Vec3 (vx p) (vy p * cos a - vz p * sin a) (vy p * sin a + vz p * cos a).

(** [parts.leftLeg.position] and [parts.rightLeg.position]. *)
Definition leftLegPosition : Vector3 := Vec3 (-0.15 * scale) 0 0.
Definition rightLegPosition : Vector3 := Vec3 (0.15 * scale) 0 0.

(** Where a point [p] of a limb group at [q], turned by [a], is in the
    scene: the groups are children of [stickman], which is moved and turned
    about the vertical axis. *)
Definition toWorld (w : World) (q : Vector3) (a : R) (p : Vector3) : Vector3 :=
  add (position w) (applyAxisAngleY (add q (rotateX p a)) (rotation_y w)).

Definition leftFoot (w : World) : Vector3 :=
  toWorld w leftLegPosition (leftLeg w) (lowerEnd (createLeg legLength)).
Definition rightFoot (w : World) : Vector3 :=
  toWorld w rightLegPosition (rightLeg w) (lowerEnd (createLeg legLength)).

(** [ground.position.y] of part_001. *)
Definition groundPlane : R := 0.

End Figure.

(** ** Notions used to state further properties *)

(** Heading and horizontal position. *)
Definition horizontal (w : Stick.World) : R * R * R :=
  (vx (Stick.position w), vz (Stick.position w), Stick.rotation_y w).
Definition horizontalBasic (w : Basic.World) : R * R * R :=
  (vx (Basic.position w), vz (Basic.position w), Basic.rotation_y w).

(** Frames with a left-turn key down minus frames with a right-turn key
    down. *)
Definition netTurn (l r : bool) : R :=
  (if l then 1 else 0) - (if r then 1 else 0).

Fixpoint netTurnsGround (frames : list Ground.Frame) : R :=
  match frames with
  | [] => 0
  | f :: rest =>
      netTurn (Stick.leftHeld (Ground.keys f)) (Stick.rightHeld (Ground.keys f))
      + netTurnsGround rest
  end.

Fixpoint netTurnsPlatform (frames : list Platform.Frame) : R :=
  match frames with
  | [] => 0
  | f :: rest =>
      netTurn (Stick.leftHeld (Platform.keys f))
              (Stick.rightHeld (Platform.keys f))
      + netTurnsPlatform rest
  end.

Fixpoint netTurnsBasic (frames : list Basic.Frame) : R :=
  match frames with
  | [] => 0
  | f :: rest =>
      netTurn (Basic.ArrowLeft (Basic.keys f)) (Basic.ArrowRight (Basic.keys f))
      + netTurnsBasic rest
  end.

(** main.js between two frames: no impulse pending, not below the ground,
    and with the jump flag clear exactly on the ground and at rest. *)
Definition settledBasic (w : Basic.World) : Prop :=
  Basic.jumpForce w = 0 /\ 0 <= vy (Basic.position w) /\
  (Basic.isJumping w = false ->
   vy (Basic.position w) = 0 /\ vy (Basic.velocity w) = 0).

(** All four joint angles are within [bound]. *)
Definition limbsWithin (bound : R) (angles : list R) : Prop :=
  Forall (fun a => Rabs a <= bound) angles.

(** The signed length of the step a frame of part_000 or part_001 takes
    along the heading. *)
Definition stride (keys : Keys) : R :=
  let moveSpeed :=
    if Stick.shiftHeld keys then Stick.runSpeed else Stick.walkSpeed in
  (if Stick.forwardHeld keys then moveSpeed else 0)
  - (if Stick.backwardHeld keys then moveSpeed * 0.6 else 0).

(** Every surface of the mesh in the column of the figure is out of the
    ray's reach above it. *)
Definition outOfReach (mesh : option Platform.Mesh) (w : Stick.World) : Prop :=
  match mesh with
  | None => True
  | Some m =>
      forall h, In h (m (vx (Stick.position w)) (vz (Stick.position w))) ->
                vy (Stick.position w) + 1 < h
  end.



(** main.js: the figure stands on the ground. *)
Definition onGroundBasic (w : Basic.World) : Prop :=
  vy (Basic.position w) = 0 /\ vy (Basic.velocity w) = 0 /\
  Basic.isJumping w = false /\ Basic.jumpForce w = 0.

(** The same frame with [platformMesh] null. *)
Definition unload (f : Platform.Frame) : Platform.Frame :=
  Platform.mkFrame None (Platform.keys f) (Platform.now f).

(** A frame of part_000 with no forward, backward or jump key down, whose
    mesh has nothing within the ray's reach above or below the figure [w]. *)
Definition passedBy (w : Stick.World) (f : Platform.Frame) : Prop :=
  Stick.idle (Platform.keys f) /\ Stick.spaceHeld (Platform.keys f) = false /\
  outOfReach (Platform.platformMesh f) w.

(** A frame of part_000 before the mesh is loaded, with a forward or backward
    key down and the space bar up. *)
Definition strollingUnloaded (f : Platform.Frame) : Prop :=
  Platform.platformMesh f = None /\
  (Stick.forwardHeld (Platform.keys f)
   || Stick.backwardHeld (Platform.keys f))%bool = true /\
  Stick.spaceHeld (Platform.keys f) = false.

(** Two [keys] objects that read the same under every code. *)
Definition sameKeys (k k' : Keys) : Prop := forall c : string, k c = k' c.

(** More sample inputs. *)
Module More.

Definition typing : list Listeners.KeyEvent :=
  [Listeners.keydown "KeyW"; Listeners.keydown "Space";
   Listeners.keyup "KeyW"; Listeners.keydown "KeyQ"]%string.

(** Key events that carry the name of the accessor every object inherits. *)
Definition tampering : list Listeners.KeyEvent :=
  [Listeners.keydown "KeyW"; Listeners.keyup "__proto__";
   Listeners.keydown "__proto__"; Listeners.keyup "__proto__"]%string.


Definition airborne : Stick.World :=
  Stick.mkWorld false false true (Vec3 0 0.2 0) 0 Stick.legLength
                (Vec3 0 5 0) 0 0 0 0 0.

Definition zigzag : list Ground.Frame :=
  [Ground.mkFrame Sample.leftJump 0; Ground.mkFrame Sample.forward 16;
   Ground.mkFrame (holding ["KeyD"; "KeyS"]%string) 33].

Definition buried : Stick.World :=
  Stick.mkWorld false false false (Vec3 0 (-0.5) 0) 0 Stick.legLength
                (Vec3 0 (-3) 0) 0 0 0 0 0.

Definition idleOverhead : list Platform.Frame :=
  [Platform.mkFrame (Some (Platform.sheet 0)) noKeys 0;
   Platform.mkFrame None noKeys 16;
   Platform.mkFrame (Some (Platform.sheet 0)) noKeys 33].

Definition strolling : list Platform.Frame :=
  [Platform.mkFrame None Sample.forward 0;
   Platform.mkFrame None Sample.forwardRun 16].

End More.

(** * Properties *)

(** ** Tactics and facts shared by the two later scripts *)

Import Stick.

Lemma Rleb_true (a b : R) : Rleb a b = true <-> a <= b.
Proof.
  unfold Rleb; destruct (Rle_dec a b); split; intros; congruence || lra.
Qed.

Lemma Rleb_false (a b : R) : Rleb a b = false <-> b < a.
Proof.
  unfold Rleb; destruct (Rle_dec a b); split; intros; congruence || lra.
Qed.

Ltac open_world w :=
  destruct w as [wk rn jp [ux uy uz] jf g [px py pz] ry la ra ll rl].

(** Unfold one frame down to the key tests, then decide each of them. *)
Ltac key_cases keys :=
  cbv beta delta [Ground.animate Platform.animate integrated handleInput
                  jumping] in *;
  destruct (forwardHeld keys) eqn:?, (backwardHeld keys) eqn:?,
           (leftHeld keys) eqn:?, (rightHeld keys) eqn:?,
           (shiftHeld keys) eqn:?, (spaceHeld keys) eqn:?;
  try discriminate.

Ltac world_fields :=
  cbv [Ground.animate Ground.groundCollision Platform.animate integrated
       animateWalking physics jumping handleInput
       set_isWalking set_isRunning set_isJumping set_velocity_y set_jumpForce
       set_groundLevel set_position set_position_y set_rotation_y set_limbs
       isWalking isRunning isJumping velocity jumpForce groundLevel position
       rotation_y leftArm rightArm leftLeg rightLeg
       add multiplyScalar set_y vx vy vz negb andb orb] in *.

Ltac order_facts :=
  repeat match goal with
  | H : Rleb _ _ = true |- _ => apply Rleb_true in H
  | H : Rleb _ _ = false |- _ => apply Rleb_false in H
  end.

Ltac ground_test :=
  match goal with
  | |- context [Rleb ?a ?b] => destruct (Rleb a b) eqn:?
  | H : context [Rleb ?a ?b] |- _ => destruct (Rleb a b) eqn:?
  end.

Lemma idle_walking (keys : Keys) :
  idle keys -> (forwardHeld keys || backwardHeld keys)%bool = false.
Proof. intros [-> ->]. reflexivity. Qed.

Lemma bodyBob_bounds (time : R) (running : bool) :
  0 <= bodyBob time running <= 0.05.
Proof.
  unfold bodyBob.
  assert (H := Rabs_pos (sin (time * frequency running * 2))).
  assert (H' : Rabs (sin (time * frequency running * 2)) <= 1)
    by (apply Rabs_le, SIN_bound).
  lra.
Qed.

(** What input, jump and physics do to the vertical state. *)
Lemma integrated_vertical (keys : Keys) (w : World) :
  let pre := integrated keys w in
  let impulse :=
    if (spaceHeld keys && negb (isJumping w))%bool
    then jumpImpulse else jumpForce w in
  isJumping pre = (isJumping w || spaceHeld keys)%bool /\
  vy (velocity pre) = vy (velocity w) + gravity + impulse /\
  vy (position pre) = vy (position w) + (vy (velocity w) + gravity + impulse) /\
  jumpForce pre = 0 /\
  groundLevel pre = groundLevel w /\
  isWalking pre = (forwardHeld keys || backwardHeld keys)%bool /\
  isRunning pre = shiftHeld keys.
Proof.
  open_world w. key_cases keys; destruct jp; world_fields;
    repeat split; try reflexivity; lra.
Qed.

(** The limb step changes nothing of the vertical state but the height, and
    that only while walking. *)
Lemma animateWalking_vertical (time : R) (w : World) :
  let w' := animateWalking time w in
  isJumping w' = isJumping w /\ velocity w' = velocity w /\
  jumpForce w' = jumpForce w /\ groundLevel w' = groundLevel w /\
  isWalking w' = isWalking w /\ isRunning w' = isRunning w /\
  rotation_y w' = rotation_y w /\
  vx (position w') = vx (position w) /\ vz (position w') = vz (position w) /\
  vy (position w') =
    if isWalking w then groundLevel w + bodyBob time (isRunning w)
    else vy (position w).
Proof.
  open_world w. destruct wk; world_fields; repeat split; reflexivity.
Qed.

Lemma ground_frame (keys : Keys) (now : Z) (w : World) :
  Ground.animate keys now w =
  animateWalking (seconds now) (Ground.groundCollision (integrated keys w)).
Proof. reflexivity. Qed.

Lemma platform_frame (pm : option Platform.Mesh) (keys : Keys) (now : Z)
  (w : World) :
  Platform.animate pm keys now w =
  animateWalking (seconds now) (Platform.contact pm (integrated keys w)).
Proof. reflexivity. Qed.

(** The flat ground test, field by field. *)
Lemma groundCollision_fields (w : World) :
  let w' := Ground.groundCollision w in
  groundLevel w' = groundLevel w /\ jumpForce w' = jumpForce w /\
  isWalking w' = isWalking w /\ isRunning w' = isRunning w /\
  (vy (position w) <= groundLevel w ->
   vy (position w') = groundLevel w /\ vy (velocity w') = 0 /\
   isJumping w' = false) /\
  (groundLevel w < vy (position w) -> w' = w).
Proof.
  open_world w. world_fields. ground_test; order_facts; cbn;
    repeat split; intros; try reflexivity; lra.
Qed.

(** ** The ray of part_000 *)

Lemma insertByDistance_In (i j : Platform.Intersection)
  (l : list Platform.Intersection) :
  In j (Platform.insertByDistance i l) <-> j = i \/ In j l.
Proof.
  induction l as [|k l IH]; cbn.
  - intuition congruence.
  - destruct (Rleb (Platform.distance i) (Platform.distance k)); cbn.
    + intuition congruence.
    + rewrite IH. intuition congruence.
Qed.

Lemma sortByDistance_In (j : Platform.Intersection)
  (l : list Platform.Intersection) :
  In j (Platform.sortByDistance l) <-> In j l.
Proof.
  induction l as [|k l IH]; cbn; [tauto|].
  rewrite insertByDistance_In, IH. intuition congruence.
Qed.

(** The first entry of a sorted array is a nearest one. *)
Lemma insertByDistance_head (i : Platform.Intersection)
  (l : list Platform.Intersection) (h : Platform.Intersection)
  (rest : list Platform.Intersection) :
  (forall h' rest', l = h' :: rest' ->
     forall j, In j rest' -> Platform.distance h' <= Platform.distance j) ->
  Platform.insertByDistance i l = h :: rest ->
  forall j, In j rest -> Platform.distance h <= Platform.distance j.
Proof.
  destruct l as [|k l]; cbn; intros Hl E j Hj.
  - inversion E; subst. destruct Hj.
  - destruct (Rleb (Platform.distance i) (Platform.distance k)) eqn:C.
    + inversion E; subst. apply Rleb_true in C.
      destruct Hj as [<-|Hj]; [exact C|].
      specialize (Hl k l eq_refl j Hj). lra.
    + inversion E; subst. apply Rleb_false in C.
      apply insertByDistance_In in Hj. destruct Hj as [->|Hj]; [lra|].
      exact (Hl h l eq_refl j Hj).
Qed.

Lemma sortByDistance_head (l : list Platform.Intersection)
  (h : Platform.Intersection) (rest : list Platform.Intersection) :
  Platform.sortByDistance l = h :: rest ->
  forall j, In j rest -> Platform.distance h <= Platform.distance j.
Proof.
  revert h rest. induction l as [|k l IH]; cbn; intros h rest E.
  - discriminate.
  - apply (insertByDistance_head k (Platform.sortByDistance l)); [|exact E].
    intros h' rest' E'. apply IH. exact E'.
Qed.

(** Every point the ray reports is a point of the mesh under the origin of
    the ray, not above that origin. *)
Lemma intersectObject_hit (origin : Vector3) (mesh : Platform.Mesh)
  (i : Platform.Intersection) :
  In i (Platform.intersectObject origin mesh) <->
  exists h, In h (mesh (vx origin) (vz origin)) /\ h <= vy origin /\
            i = Platform.mkIntersection (vy origin - h)
                                        (Vec3 (vx origin) h (vz origin)).
Proof.
  unfold Platform.intersectObject.
  rewrite sortByDistance_In, in_map_iff. split.
  - intros (h & <- & Hh). apply filter_In in Hh. destruct Hh as [Hin Hle].
    apply Rleb_true in Hle. exists h. auto.
  - intros (h & Hin & Hle & ->). exists h. split; [reflexivity|].
    apply filter_In. split; [exact Hin|]. apply Rleb_true. exact Hle.
Qed.

(** The contact test of part_000, field by field, when the ray hits. *)
Lemma contact_fields (mesh : Platform.Mesh) (w : World)
  (hit : Platform.Intersection) (rest : list Platform.Intersection) :
  Platform.intersectObject (add (position w) (Vec3 0 1 0)) mesh
    = hit :: rest ->
  let contactY := vy (Platform.point hit) in
  let w' := Platform.contact (Some mesh) w in
  groundLevel w' = contactY /\ jumpForce w' = jumpForce w /\
  isWalking w' = isWalking w /\ isRunning w' = isRunning w /\
  (vy (position w) <= contactY + 0.01 ->
   vy (position w') = contactY /\ vy (velocity w') = 0 /\
   isJumping w' = false) /\
  (contactY + 0.01 < vy (position w) ->
   position w' = position w /\ velocity w' = velocity w /\
   isJumping w' = isJumping w).
Proof.
  intros E. unfold Platform.contact. rewrite E. clear E.
  open_world w. world_fields. ground_test; order_facts; cbn;
    repeat split; intros; try reflexivity; lra.
Qed.

(** The contact test touches only the height, the vertical velocity, the
    jump flag and the ground level. *)
Lemma contact_keeps (pm : option Platform.Mesh) (w : World) :
  let w' := Platform.contact pm w in
  isWalking w' = isWalking w /\ isRunning w' = isRunning w /\
  jumpForce w' = jumpForce w /\ rotation_y w' = rotation_y w /\
  vx (position w') = vx (position w) /\ vz (position w') = vz (position w) /\
  leftArm w' = leftArm w /\ rightArm w' = rightArm w /\
  leftLeg w' = leftLeg w /\ rightLeg w' = rightLeg w.
Proof.
  destruct pm as [mesh|]; [|cbn; tauto].
  cbv beta delta [Platform.contact] iota zeta.
  destruct (Platform.intersectObject _ mesh) as [|hit rest]; [tauto|].
  open_world w. world_fields. destruct (Rleb _ _); cbn; tauto.
Qed.

(** The flags a frame of part_000 leaves are those of its keys. *)
Lemma platform_frame_flags (pm : option Platform.Mesh) (keys : Keys)
  (now : Z) (w : World) :
  let w' := Platform.animate pm keys now w in
  isWalking w' = (forwardHeld keys || backwardHeld keys)%bool /\
  isRunning w' = shiftHeld keys /\ jumpForce w' = 0.
Proof.
  cbv zeta. rewrite platform_frame.
  destruct (integrated_vertical keys w) as (_ & _ & _ & Hf & _ & Hw & Hr).
  destruct (contact_keeps pm (integrated keys w)) as (Cw & Cr & Cf & _).
  destruct (animateWalking_vertical (seconds now)
              (Platform.contact pm (integrated keys w)))
    as (_ & _ & Ef & _ & Ew & Er & _).
  cbv zeta in *. rewrite Ew, Er, Ef, Cw, Cr, Cf, Hw, Hr, Hf. auto.
Qed.

Lemma contact_unloaded (w : World) : Platform.contact None w = w.
Proof. reflexivity. Qed.

Lemma contact_miss (mesh : Platform.Mesh) (w : World) :
  Platform.intersectObject (add (position w) (Vec3 0 1 0)) mesh = [] ->
  Platform.contact (Some mesh) w = w.
Proof. intros E. unfold Platform.contact. rewrite E. reflexivity. Qed.

(** ** Ground clamp *)

(** One frame of part_001: either the ground test succeeds and the figure is
    put on the ground, or it fails and the integrated values stand; the height
    is then replaced by the bob if the figure walks. *)
Lemma ground_frame_cases (keys : Keys) (now : Z) (w : World) :
  let pre := integrated keys w in
  let w' := Ground.animate keys now w in
  let walking := (forwardHeld keys || backwardHeld keys)%bool in
  let bob := bodyBob (seconds now) (shiftHeld keys) in
  jumpForce w' = 0 /\ groundLevel w' = groundLevel w /\
  isWalking w' = walking /\ isRunning w' = shiftHeld keys /\
  ((vy (position pre) <= groundLevel w /\
    vy (velocity w') = 0 /\ isJumping w' = false /\
    vy (position w') = if walking then groundLevel w + bob else groundLevel w)
   \/
   (groundLevel w < vy (position pre) /\
    vy (velocity w') = vy (velocity pre) /\
    isJumping w' = isJumping pre /\
    vy (position w') =
      if walking then groundLevel w + bob else vy (position pre))).
Proof.
  cbv zeta. rewrite ground_frame.
  destruct (integrated_vertical keys w) as (_ & _ & _ & Hf & Hg & Hw & Hr).
  cbv zeta in *.
  destruct (groundCollision_fields (integrated keys w))
    as (Hg' & Hf' & Hw' & Hr' & Hc & Hn).
  destruct (animateWalking_vertical (seconds now)
              (Ground.groundCollision (integrated keys w)))
    as (Ej & Ev & Ef & Eg & Ew & Er & _ & _ & _ & Ey).
  cbv zeta in *.
  rewrite Ej, Ev, Ef, Eg, Ew, Er, Ey, Hg', Hf', Hw', Hr', Hf, Hg, Hw, Hr.
  repeat split.
  destruct (Rle_lt_dec (vy (position (integrated keys w))) (groundLevel w))
    as [Hle|Hlt].
  - left. rewrite <- Hg in Hle. destruct (Hc Hle) as (Hy & Hv & Hj).
    rewrite Hy, Hv, Hj, Hg. rewrite Hg in Hle. auto.
  - right. rewrite <- Hg in Hlt. rewrite (Hn Hlt). rewrite Hg in Hlt. auto.
Qed.


(** No frame of part_001 ends below the ground. *)
Lemma ground_frame_floor (keys : Keys) (now : Z) (w : World) :
  groundLevel w <= vy (position (Ground.animate keys now w)).
Proof.
  destruct (ground_frame_cases keys now w) as (_ & _ & _ & _ & C).
  cbv zeta in C.
  pose proof (bodyBob_bounds (seconds now) (shiftHeld keys)).
  destruct C as [(_ & _ & _ & Hy)|(Hlt & _ & _ & Hy)]; rewrite Hy;
    destruct (forwardHeld keys || backwardHeld keys)%bool; lra.
Qed.

Lemma resting_animate (keys : Keys) (now : Z) (w : World) :
  Ground.resting w ->
  Ground.resting (Ground.animate keys now w) /\
  groundLevel (Ground.animate keys now w) = groundLevel w.
Proof.
  unfold Ground.resting. intros (Hjf & Hfloor & Hgr).
  destruct (integrated_vertical keys w) as (Pj & Pv & Py & _).
  destruct (ground_frame_cases keys now w) as (Ef & Eg & _ & _ & C).
  cbv zeta in *. rewrite Ef, Eg.
  pose proof (bodyBob_bounds (seconds now) (shiftHeld keys)).
  pose proof (ground_frame_floor keys now w).
  repeat split; auto.
  - destruct C as [(_ & Hv & _)|(_ & Hv & Hj & _)]; rewrite Hv; [lra|].
    rewrite Hj, Pj in H1. apply orb_false_elim in H1. destruct H1 as [J S].
    rewrite Pv, J, S, Hjf. cbn. destruct (Hgr J). unfold gravity. lra.
  - destruct C as [(_ & _ & _ & Hy)|(_ & _ & Hj & Hy)]; rewrite Hy;
      destruct (forwardHeld keys || backwardHeld keys)%bool; try lra.
    rewrite Hj, Pj in H1. apply orb_false_elim in H1. destruct H1 as [J S].
    rewrite Py, J, S, Hjf. cbn. destruct (Hgr J). unfold gravity. lra.
Qed.

Lemma resting_run (frames : list Ground.Frame) (w : World) :
  Ground.resting w ->
  Ground.resting (Ground.run frames w) /\
  groundLevel (Ground.run frames w) = groundLevel w.
Proof.
  revert w. induction frames as [|f frames IH]; cbn; intros w Hw.
  - auto.
  - destruct (resting_animate (Ground.keys f) (Ground.now f) w Hw) as [H1 H2].
    destruct (IH _ H1) as [H3 H4]. split; [exact H3|congruence].
Qed.

Lemma resting_initial : Ground.resting initial.
Proof.
  unfold Ground.resting, initial, legLength, scale; cbn.
  repeat split; intros; lra.
Qed.

(** A frame of part_000 in which the ray hits and the figure is at or below
    the hit ends on the hit. *)
Lemma platform_frame_clamped (mesh : Platform.Mesh) (keys : Keys) (now : Z)
  (w : World) (hit : Platform.Intersection)
  (rest : list Platform.Intersection) :
  Platform.intersectObject
    (add (position (integrated keys w)) (Vec3 0 1 0)) mesh = hit :: rest ->
  vy (position (integrated keys w)) <= vy (Platform.point hit) + 0.01 ->
  let contactY := vy (Platform.point hit) in
  let w' := Platform.animate (Some mesh) keys now w in
  vy (velocity w') = 0 /\ isJumping w' = false /\
  groundLevel w' = contactY /\
  contactY <= vy (position w') <= contactY + 0.05 /\
  (isWalking w' = false -> vy (position w') = contactY).
Proof.
  intros E Hle. cbv zeta. rewrite platform_frame.
  destruct (contact_fields mesh (integrated keys w) hit rest E)
    as (Hg' & _ & Hw & Hr & Hc & _).
  destruct (Hc Hle) as (Hy & Hv & Hj).
  destruct (animateWalking_vertical (seconds now)
              (Platform.contact (Some mesh) (integrated keys w)))
    as (Ej & Ev & _ & Eg & Ew & _ & _ & _ & _ & Ey).
  cbv zeta in *.
  rewrite Ej, Ev, Eg, Ew, Ey, Hv, Hj, Hy, Hg'.
  pose proof (bodyBob_bounds (seconds now)
     (isRunning (Platform.contact (Some mesh) (integrated keys w)))).
  destruct (isWalking (Platform.contact (Some mesh) (integrated keys w)));
    repeat split; try reflexivity; try lra; intros; try discriminate; lra.
Qed.

(** Evaluation of frames on given keys and worlds. *)
Ltac eval_world :=
  cbv [Ground.animate Ground.groundCollision Ground.run Ground.keys Ground.now
       Platform.animate Platform.run Platform.keys Platform.now
       Platform.platformMesh Platform.contact
       integrated animateWalking physics jumping handleInput
       set_isWalking set_isRunning set_isJumping set_velocity_y set_jumpForce
       set_groundLevel set_position set_position_y set_rotation_y set_limbs
       isWalking isRunning isJumping velocity jumpForce groundLevel position
       rotation_y leftArm rightArm leftLeg rightLeg
       add multiplyScalar set_y vx vy vz negb andb orb
       forwardHeld backwardHeld leftHeld rightHeld shiftHeld spaceHeld
       noKeys holding releaseSpace setKey existsb String.eqb Ascii.eqb
       Bool.eqb initial].

Ltac constants :=
  unfold legLength, scale, gravity, jumpImpulse, walkSpeed, runSpeed,
    turnSpeed in *.

Lemma sheet_hit (origin : Vector3) (h : R) :
  h <= vy origin ->
  Platform.intersectObject origin (Platform.sheet h) =
  [Platform.mkIntersection (vy origin - h) (Vec3 (vx origin) h (vz origin))].
Proof.
  intros Hle. apply Rleb_true in Hle.
  unfold Platform.intersectObject, Platform.sheet. cbn. rewrite Hle.
  reflexivity.
Qed.


Lemma PI_gt_3 : 3 < PI.
Proof. pose proof PI2_3_2. lra. Qed.

Lemma sin_one_and_a_half : 0.99 < sin 1.5.
Proof.
  pose proof PI_gt_3.
  destruct (SIN 1.5) as [L _]; [lra|lra|].
  eapply Rlt_le_trans; [|exact L].
  unfold sin_lb, sin_approx, sin_term. cbn [sum_f_R0 Nat.mul Nat.add pow].
  rewrite !INR_IZR_INZ.
  change (Z.of_nat (fact 1)) with 1%Z.
  change (Z.of_nat (fact 3)) with 6%Z.
  change (Z.of_nat (fact 5)) with 120%Z.
  change (Z.of_nat (fact 7)) with 5040%Z.
  lra.
Qed.





(** ** Jump *)

Lemma releaseSpace_tests (keys : Keys) :
  forwardHeld (releaseSpace keys) = forwardHeld keys /\
  backwardHeld (releaseSpace keys) = backwardHeld keys /\
  leftHeld (releaseSpace keys) = leftHeld keys /\
  rightHeld (releaseSpace keys) = rightHeld keys /\
  shiftHeld (releaseSpace keys) = shiftHeld keys /\
  spaceHeld (releaseSpace keys) = false.
Proof. repeat split; reflexivity. Qed.

Lemma handleInput_releaseSpace (keys : Keys) (w : World) :
  handleInput (releaseSpace keys) w = handleInput keys w.
Proof.
  destruct (releaseSpace_tests keys) as (Ef & Eb & El & Er & Es & _).
  cbv beta delta [handleInput]. rewrite Ef, Eb, El, Er, Es. reflexivity.
Qed.

Lemma handleInput_isJumping (keys : Keys) (w : World) :
  isJumping (handleInput keys w) = isJumping w.
Proof.
  open_world w. cbv beta delta [handleInput].
  destruct (forwardHeld keys), (backwardHeld keys), (leftHeld keys),
    (rightHeld keys), (shiftHeld keys); reflexivity.
Qed.

(** While the jump flag is set the space bar is not looked at. *)
Lemma integrated_releaseSpace (keys : Keys) (w : World) :
  isJumping w = true ->
  integrated (releaseSpace keys) w = integrated keys w.
Proof.
  intros J. unfold integrated. rewrite handleInput_releaseSpace.
  unfold jumping. rewrite handleInput_isJumping, J.
  rewrite !andb_false_r. reflexivity.
Qed.

(** A frame of part_001 that ends with the jump flag set kept the integrated
    velocity. *)
Lemma ground_frame_airborne (keys : Keys) (now : Z) (w : World) :
  isJumping (Ground.animate keys now w) = true ->
  vy (velocity (Ground.animate keys now w)) =
  vy (velocity (integrated keys w)) /\
  jumpForce (Ground.animate keys now w) = 0.
Proof.
  intros J.
  destruct (ground_frame_cases keys now w) as (Ef & _ & _ & _ & C).
  cbv zeta in *.
  destruct C as [(_ & _ & Hj & _)|(_ & Hv & _)]; [congruence|auto].
Qed.

Lemma ground_airborne_run (frames : list Ground.Frame) (w : World) :
  isJumping w = true -> jumpForce w = 0 -> Ground.airborne frames w ->
  vy (velocity (Ground.run frames w)) =
  vy (velocity w) + INR (List.length frames) * gravity.
Proof.
  revert w. induction frames as [|f frames IH]; intros w J F A.
  - cbn. lra.
  - destruct A as [J' A]. cbn [Ground.run].
    destruct (ground_frame_airborne _ _ _ J') as [Hv Hf].
    rewrite (IH _ J' Hf A), Hv.
    destruct (integrated_vertical (Ground.keys f) w) as (_ & Pv & _).
    cbv zeta in Pv. rewrite Pv, J, andb_false_r, F.
    change (List.length (f :: frames)) with (S (List.length frames)).
    rewrite S_INR. lra.
Qed.

(** The same facts for main.js. *)
Lemma basic_frame_cases (keys : Basic.Keys) (now : Z) (w : Basic.World) :
  let impulse :=
    if (Basic.Space keys && negb (Basic.isJumping w))%bool
    then Basic.jumpImpulse else Basic.jumpForce w in
  let v := vy (Basic.velocity w) + Basic.gravity + impulse in
  let y := vy (Basic.position w) + v in
  let w' := Basic.animate keys now w in
  Basic.jumpForce w' = 0 /\
  ((y <= 0 /\ vy (Basic.velocity w') = 0 /\ Basic.isJumping w' = false /\
    vy (Basic.position w') = 0)
   \/
   (0 < y /\ vy (Basic.velocity w') = v /\
    Basic.isJumping w' = (Basic.isJumping w || Basic.Space keys)%bool /\
    vy (Basic.position w') = y)).
Proof.
  destruct w as [wk rn jp dir [ux uy uz] jf [px py pz] ry la ra ll rl].
  destruct keys as [up down left right space shift].
  cbv zeta. split.
  - cbv [Basic.animate Basic.Space Basic.ArrowUp Basic.ArrowDown
         Basic.ArrowLeft Basic.ArrowRight Basic.Shift].
    destruct up, down, space, jp; cbn; destruct (Rleb _ _); reflexivity.
  - destruct up, down, left, right, space, shift, jp;
      cbv [Basic.animate Basic.Space Basic.ArrowUp Basic.ArrowDown
           Basic.ArrowLeft Basic.ArrowRight Basic.Shift Basic.isJumping
           Basic.jumpForce Basic.velocity Basic.position
           Basic.animateStickmanLimbs applyAxisAngleY add multiplyScalar
           set_y vx vy vz andb orb negb];
      ground_test; order_facts;
      first [ left; repeat split; (reflexivity || lra)
            | right; repeat split; (reflexivity || lra) ].
Qed.

Lemma basic_frame_airborne (keys : Basic.Keys) (now : Z) (w : Basic.World) :
  Basic.isJumping (Basic.animate keys now w) = true ->
  vy (Basic.velocity (Basic.animate keys now w)) =
  vy (Basic.velocity w) + Basic.gravity +
  (if (Basic.Space keys && negb (Basic.isJumping w))%bool
   then Basic.jumpImpulse else Basic.jumpForce w) /\
  Basic.jumpForce (Basic.animate keys now w) = 0.
Proof.
  intros J. destruct (basic_frame_cases keys now w) as (Ef & C).
  cbv zeta in *.
  destruct C as [(_ & _ & Hj & _)|(_ & Hv & _)]; [congruence|auto].
Qed.

Lemma basic_airborne_run (frames : list Basic.Frame) (w : Basic.World) :
  Basic.isJumping w = true -> Basic.jumpForce w = 0 ->
  Basic.airborne frames w ->
  vy (Basic.velocity (Basic.run frames w)) =
  vy (Basic.velocity w) + INR (List.length frames) * Basic.gravity.
Proof.
  revert w. induction frames as [|f frames IH]; intros w J F A.
  - cbn. lra.
  - destruct A as [J' A]. cbn [Basic.run].
    destruct (basic_frame_airborne _ _ _ J') as [Hv Hf].
    rewrite (IH _ J' Hf A), Hv, J, andb_false_r, F.
    change (List.length (f :: frames)) with (S (List.length frames)).
    rewrite S_INR. lra.
Qed.

Lemma basic_releaseSpace (keys : Basic.Keys) (now : Z) (w : Basic.World) :
  Basic.isJumping w = true ->
  Basic.animate (Basic.releaseSpace keys) now w = Basic.animate keys now w.
Proof.
  destruct w as [wk rn jp dir vel jf pos ry la ra ll rl].
  destruct keys as [up down left right space shift].
  cbn [Basic.isJumping]. intros ->.
  destruct space;
    cbv beta delta [Basic.animate Basic.releaseSpace Basic.Space Basic.ArrowUp
      Basic.ArrowDown Basic.ArrowLeft Basic.ArrowRight Basic.Shift
      Basic.isJumping andb negb] iota;
    reflexivity.
Qed.

(** A frame of part_001 that starts a jump from the ground. *)
Lemma ground_frame_takeoff (keys : Keys) (now : Z) (w : World) :
  spaceHeld keys = true -> isJumping w = false ->
  vy (velocity w) = 0 -> groundLevel w <= vy (position w) ->
  let w' := Ground.animate keys now w in
  vy (velocity w') = gravity + jumpImpulse /\ isJumping w' = true /\
  jumpForce w' = 0 /\ groundLevel w' = groundLevel w /\
  groundLevel w <= vy (position w').
Proof.
  intros S J V Y. cbv zeta.
  destruct (integrated_vertical keys w) as (Pj & Pv & Py & _).
  destruct (ground_frame_cases keys now w) as (Ef & Eg & _ & _ & C).
  pose proof (ground_frame_floor keys now w).
  cbv zeta in *. rewrite S, J in *. cbn [negb andb orb] in Pj, Pv, Py.
  unfold gravity, jumpImpulse in *.
  destruct C as [(Hle & _)|(_ & Hv & Hj & _)]; [lra|].
  rewrite Hv, Hj, Pv, Pj. repeat split; auto; lra.
Qed.

(** A frame of part_001 in the rising part of a jump. *)
Lemma ground_frame_rising (keys : Keys) (now : Z) (w : World) :
  isJumping w = true -> jumpForce w = 0 ->
  groundLevel w <= vy (position w) -> 0 < vy (velocity w) + gravity ->
  let w' := Ground.animate keys now w in
  vy (velocity w') = vy (velocity w) + gravity /\ isJumping w' = true /\
  jumpForce w' = 0 /\ groundLevel w' = groundLevel w /\
  groundLevel w <= vy (position w').
Proof.
  intros J F Y V. cbv zeta.
  destruct (integrated_vertical keys w) as (Pj & Pv & Py & _).
  destruct (ground_frame_cases keys now w) as (Ef & Eg & _ & _ & C).
  pose proof (ground_frame_floor keys now w).
  cbv zeta in *. rewrite J, F, andb_false_r in *. cbn [negb andb orb] in Pj.
  destruct C as [(Hle & _)|(_ & Hv & Hj & _)]; [lra|].
  rewrite Hv, Hj, Pv, Pj. repeat split; auto; lra.
Qed.

Lemma basic_frame_takeoff (keys : Basic.Keys) (now : Z) (w : Basic.World) :
  Basic.Space keys = true -> Basic.isJumping w = false ->
  vy (Basic.velocity w) = 0 -> 0 <= vy (Basic.position w) ->
  let w' := Basic.animate keys now w in
  vy (Basic.velocity w') = Basic.gravity + Basic.jumpImpulse /\
  Basic.isJumping w' = true /\ Basic.jumpForce w' = 0 /\
  0 < vy (Basic.position w').
Proof.
  intros S J V Y. cbv zeta.
  destruct (basic_frame_cases keys now w) as (Ef & C).
  cbv zeta in *. rewrite S, J in *. cbn [negb andb orb] in C.
  unfold Basic.gravity, Basic.jumpImpulse in *.
  destruct C as [(Hle & _)|(Hlt & Hv & Hj & Hy)]; [lra|].
  rewrite Hv, Hj, Hy. repeat split; auto; lra.
Qed.

Lemma basic_frame_rising (keys : Basic.Keys) (now : Z) (w : Basic.World) :
  Basic.isJumping w = true -> Basic.jumpForce w = 0 ->
  0 <= vy (Basic.position w) -> 0 < vy (Basic.velocity w) + Basic.gravity ->
  let w' := Basic.animate keys now w in
  vy (Basic.velocity w') = vy (Basic.velocity w) + Basic.gravity /\
  Basic.isJumping w' = true /\ Basic.jumpForce w' = 0 /\
  0 < vy (Basic.position w').
Proof.
  intros J F Y V. cbv zeta.
  destruct (basic_frame_cases keys now w) as (Ef & C).
  cbv zeta in *. rewrite J, F, andb_false_r in *. cbn [negb andb orb] in C.
  destruct C as [(Hle & _)|(Hlt & Hv & Hj & Hy)]; [lra|].
  rewrite Hv, Hj, Hy. repeat split; auto; lra.
Qed.

(** C2. Jump, in part_001 and main.js.  A frame that finds the space bar down
    and the jump flag clear adds the impulse to the vertical velocity, once,
    sets the flag and clears the pending impulse; taken from the ground the
    frame ends with velocity gravity + impulse.  A frame that finds the flag
    set is the same with the space bar down or up.  Over any session that
    stays airborne the velocity changes by gravity alone, whatever keys are
    held, so a session that starts with a jump and stays airborne has
    received the impulse exactly once. *)
Theorem C2_jump_once :
  (forall (keys : Keys) (w : World),
     spaceHeld keys = true -> isJumping w = false ->
     vy (velocity (integrated keys w))
       = vy (velocity w) + gravity + jumpImpulse /\
     isJumping (integrated keys w) = true /\
     jumpForce (integrated keys w) = 0) /\
  (forall (keys : Keys) (now : Z) (w : World),
     spaceHeld keys = true -> isJumping w = false ->
     vy (velocity w) = 0 -> groundLevel w <= vy (position w) ->
     vy (velocity (Ground.animate keys now w)) = gravity + jumpImpulse /\
     isJumping (Ground.animate keys now w) = true /\
     jumpForce (Ground.animate keys now w) = 0) /\
  (forall (keys : Keys) (now : Z) (w : World),
     isJumping w = true ->
     Ground.animate keys now w = Ground.animate (releaseSpace keys) now w) /\
  (forall (frames : list Ground.Frame) (w : World),
     isJumping w = true -> jumpForce w = 0 -> Ground.airborne frames w ->
     vy (velocity (Ground.run frames w))
       = vy (velocity w) + INR (List.length frames) * gravity) /\
  (forall (f : Ground.Frame) (frames : list Ground.Frame) (w : World),
     spaceHeld (Ground.keys f) = true -> isJumping w = false ->
     Ground.airborne (f :: frames) w ->
     vy (velocity (Ground.run (f :: frames) w))
       = vy (velocity w) + INR (List.length (f :: frames)) * gravity
         + jumpImpulse) /\
  (forall (keys : Basic.Keys) (now : Z) (w : Basic.World),
     Basic.Space keys = true -> Basic.isJumping w = false ->
     vy (Basic.velocity w) = 0 -> 0 <= vy (Basic.position w) ->
     vy (Basic.velocity (Basic.animate keys now w))
       = Basic.gravity + Basic.jumpImpulse /\
     Basic.isJumping (Basic.animate keys now w) = true /\
     Basic.jumpForce (Basic.animate keys now w) = 0) /\
  (forall (keys : Basic.Keys) (now : Z) (w : Basic.World),
     Basic.isJumping w = true ->
     Basic.animate keys now w = Basic.animate (Basic.releaseSpace keys) now w)
  /\
  (forall (frames : list Basic.Frame) (w : Basic.World),
     Basic.isJumping w = true -> Basic.jumpForce w = 0 ->
     Basic.airborne frames w ->
     vy (Basic.velocity (Basic.run frames w))
       = vy (Basic.velocity w) + INR (List.length frames) * Basic.gravity) /\
  (forall (f : Basic.Frame) (frames : list Basic.Frame) (w : Basic.World),
     Basic.Space (Basic.keys f) = true -> Basic.isJumping w = false ->
     Basic.airborne (f :: frames) w ->
     vy (Basic.velocity (Basic.run (f :: frames) w))
       = vy (Basic.velocity w)
         + INR (List.length (f :: frames)) * Basic.gravity
         + Basic.jumpImpulse).
Proof.
  repeat match goal with |- _ /\ _ => split end.
  - intros keys w S J.
    destruct (integrated_vertical keys w) as (Pj & Pv & _ & Pf & _).
    cbv zeta in *. rewrite S, J in *. cbn [negb andb orb] in Pj, Pv. auto.
  - intros keys now w S J V Y.
    destruct (ground_frame_takeoff keys now w S J V Y) as (A & B & C & _).
    auto.
  - intros keys now w J.
    rewrite !ground_frame, integrated_releaseSpace by exact J. reflexivity.
  - exact ground_airborne_run.
  - intros f frames w Sp J [J' A]. cbn [Ground.run].
    destruct (ground_frame_airborne _ _ _ J') as [Hv Hf].
    rewrite (ground_airborne_run frames _ J' Hf A), Hv.
    destruct (integrated_vertical (Ground.keys f) w) as (_ & Pv & _).
    cbv zeta in Pv. rewrite Pv, Sp, J. cbn [negb andb].
    change (List.length (f :: frames)) with (S (List.length frames)).
    rewrite S_INR. lra.
  - intros keys now w S J V Y.
    destruct (basic_frame_takeoff keys now w S J V Y) as (A & B & C & _).
    auto.
  - intros keys now w J. symmetry. apply basic_releaseSpace, J.
  - exact basic_airborne_run.
  - intros f frames w Sp J [J' A]. cbn [Basic.run].
    destruct (basic_frame_airborne _ _ _ J') as [Hv Hf].
    rewrite (basic_airborne_run frames _ J' Hf A), Hv, Sp, J. cbn [negb andb].
    change (List.length (f :: frames)) with (S (List.length frames)).
    rewrite S_INR. lra.
Qed.

(** C2 on three frames with the space bar held down, from the ground. *)
Lemma C2_jump_once_witness :
  (vy (velocity (Ground.run Sample.jumpSession initial))
     = 3 * gravity + jumpImpulse /\
   vy (velocity (Ground.animate Sample.hold 0 initial))
     = gravity + jumpImpulse /\
   Ground.animate Sample.hold 16 (Ground.animate Sample.hold 0 initial) =
   Ground.animate (releaseSpace Sample.hold) 16
     (Ground.animate Sample.hold 0 initial)) /\
  (vy (Basic.velocity (Basic.run Sample.jumpSession' Basic.rest))
     = 3 * Basic.gravity + Basic.jumpImpulse /\
   vy (Basic.velocity (Basic.animate Sample.held 0 Basic.rest))
     = Basic.gravity + Basic.jumpImpulse /\
   Basic.animate Sample.held 16 (Basic.animate Sample.held 0 Basic.rest) =
   Basic.animate (Basic.releaseSpace Sample.held) 16
     (Basic.animate Sample.held 0 Basic.rest)).
Proof.
  assert (Y0 : groundLevel initial <= vy (position initial))
    by (unfold initial; cbn [groundLevel position vy]; lra).
  destruct (ground_frame_takeoff Sample.hold 0 initial
              eq_refl eq_refl eq_refl Y0)
    as (V1 & J1 & F1 & G1 & Y1).
  set (w1 := Ground.animate Sample.hold 0 initial) in *.
  assert (R1 : 0 < vy (velocity w1) + gravity)
    by (rewrite V1; unfold gravity, jumpImpulse; lra).
  rewrite <- G1 in Y1.
  destruct (ground_frame_rising Sample.hold 16 w1 J1 F1 Y1 R1)
    as (V2 & J2 & F2 & G2 & Y2).
  set (w2 := Ground.animate Sample.hold 16 w1) in *.
  assert (R2 : 0 < vy (velocity w2) + gravity)
    by (rewrite V2, V1; unfold gravity, jumpImpulse; lra).
  rewrite <- G2 in Y2.
  destruct (ground_frame_rising Sample.hold 33 w2 J2 F2 Y2 R2)
    as (V3 & J3 & F3 & G3 & Y3).
  assert (A : Ground.airborne Sample.jumpSession initial)
    by (cbv [Sample.jumpSession Ground.airborne Ground.keys Ground.now];
        fold w1; fold w2; auto).
  assert (Y0' : 0 <= vy (Basic.position Basic.rest))
    by (unfold Basic.rest; cbn [Basic.position vy]; lra).
  destruct (basic_frame_takeoff Sample.held 0 Basic.rest
              eq_refl eq_refl eq_refl Y0')
    as (V1' & J1' & F1' & Y1').
  set (b1 := Basic.animate Sample.held 0 Basic.rest) in *.
  assert (R1' : 0 < vy (Basic.velocity b1) + Basic.gravity)
    by (rewrite V1'; unfold Basic.gravity, Basic.jumpImpulse; lra).
  destruct (basic_frame_rising Sample.held 16 b1 J1' F1' (Rlt_le _ _ Y1') R1')
    as (V2' & J2' & F2' & Y2').
  set (b2 := Basic.animate Sample.held 16 b1) in *.
  assert (R2' : 0 < vy (Basic.velocity b2) + Basic.gravity)
    by (rewrite V2', V1'; unfold Basic.gravity, Basic.jumpImpulse; lra).
  destruct (basic_frame_rising Sample.held 33 b2 J2' F2' (Rlt_le _ _ Y2') R2')
    as (V3' & J3' & F3' & Y3').
  assert (A' : Basic.airborne Sample.jumpSession' Basic.rest)
    by (cbv [Sample.jumpSession' Basic.airborne Basic.keys Basic.now];
        fold b1; fold b2; auto).
  destruct C2_jump_once
    as (_ & T2 & T3 & _ & T5 & B2 & B3 & _ & B5).
  repeat split.
  - unfold Sample.jumpSession in *.
    rewrite (T5 (Ground.mkFrame Sample.hold 0)
               [Ground.mkFrame Sample.hold 16; Ground.mkFrame Sample.hold 33]
               initial eq_refl eq_refl A).
    unfold initial. cbn [velocity vy List.length INR]. lra.
  - apply (T2 Sample.hold 0%Z initial eq_refl eq_refl eq_refl Y0).
  - apply (T3 Sample.hold 16%Z w1 J1).
  - unfold Sample.jumpSession' in *.
    rewrite (B5 (Basic.mkFrame Sample.held 0)
               [Basic.mkFrame Sample.held 16; Basic.mkFrame Sample.held 33]
               Basic.rest eq_refl eq_refl A').
    unfold Basic.rest. cbn [Basic.velocity vy List.length INR]. lra.
  - apply (B2 Sample.held 0%Z Basic.rest eq_refl eq_refl eq_refl Y0').
  - apply (B3 Sample.held 16%Z b1 J1').
Defined.

(** ** Translation and turning *)

(** What [handleInput] does to the position: the forward step, if any, then
    the backward step, if any. *)
Lemma handleInput_position (keys : Keys) (w : World) :
  let moveSpeed := if shiftHeld keys then runSpeed else walkSpeed in
  let yaw := rotation_y w in
  let p1 :=
    if forwardHeld keys
    then add (position w) (multiplyScalar (Vec3 (sin yaw) 0 (cos yaw)) moveSpeed)
    else position w in
  position (handleInput keys w) =
    if backwardHeld keys
    then add p1 (multiplyScalar (Vec3 (- sin yaw) 0 (- cos yaw))
                                (moveSpeed * 0.6))
    else p1.
Proof.
  open_world w. cbv beta delta [handleInput].
  destruct (forwardHeld keys), (backwardHeld keys), (leftHeld keys),
    (rightHeld keys), (shiftHeld keys); reflexivity.
Qed.

Lemma handleInput_rotation (keys : Keys) (w : World) :
  rotation_y (handleInput keys w) =
  rotation_y w + (if leftHeld keys then turnSpeed else 0)
               - (if rightHeld keys then turnSpeed else 0).
Proof.
  open_world w. cbv beta delta [handleInput].
  destruct (forwardHeld keys), (backwardHeld keys), (leftHeld keys),
    (rightHeld keys), (shiftHeld keys); world_fields; lra.
Qed.

(** Jump and physics leave the heading, the horizontal position and the limbs
    alone. *)
Lemma integrated_horizontal (keys : Keys) (w : World) :
  let pre := integrated keys w in
  let h := handleInput keys w in
  rotation_y pre = rotation_y h /\
  vx (position pre) = vx (position h) /\
  vz (position pre) = vz (position h) /\
  leftArm pre = leftArm w /\ rightArm pre = rightArm w /\
  leftLeg pre = leftLeg w /\ rightLeg pre = rightLeg w.
Proof.
  open_world w. key_cases keys; destruct jp; world_fields;
    repeat split; reflexivity.
Qed.

Lemma groundCollision_keeps (w : World) :
  let w' := Ground.groundCollision w in
  rotation_y w' = rotation_y w /\
  vx (position w') = vx (position w) /\ vz (position w') = vz (position w) /\
  leftArm w' = leftArm w /\ rightArm w' = rightArm w /\
  leftLeg w' = leftLeg w /\ rightLeg w' = rightLeg w.
Proof.
  open_world w. world_fields. destruct (Rleb _ _); cbn; tauto.
Qed.

(** Heading and horizontal position after a whole frame are those
    [handleInput] leaves, in both scripts. *)
Lemma ground_frame_horizontal (keys : Keys) (now : Z) (w : World) :
  let w' := Ground.animate keys now w in
  let h := handleInput keys w in
  rotation_y w' = rotation_y h /\
  vx (position w') = vx (position h) /\ vz (position w') = vz (position h).
Proof.
  cbv zeta. rewrite ground_frame.
  destruct (integrated_horizontal keys w) as (Hr & Hx & Hz & _).
  destruct (groundCollision_keeps (integrated keys w)) as (Gr & Gx & Gz & _).
  destruct (animateWalking_vertical (seconds now)
              (Ground.groundCollision (integrated keys w)))
    as (_ & _ & _ & _ & _ & _ & Ar & Ax & Az & _).
  cbv zeta in *. rewrite Ar, Ax, Az, Gr, Gx, Gz, Hr, Hx, Hz. auto.
Qed.

Lemma platform_frame_horizontal (pm : option Platform.Mesh) (keys : Keys)
  (now : Z) (w : World) :
  let w' := Platform.animate pm keys now w in
  let h := handleInput keys w in
  rotation_y w' = rotation_y h /\
  vx (position w') = vx (position h) /\ vz (position w') = vz (position h).
Proof.
  cbv zeta. rewrite platform_frame.
  destruct (integrated_horizontal keys w) as (Hr & Hx & Hz & _).
  destruct (contact_keeps pm (integrated keys w))
    as (_ & _ & _ & Gr & Gx & Gz & _).
  destruct (animateWalking_vertical (seconds now)
              (Platform.contact pm (integrated keys w)))
    as (_ & _ & _ & _ & _ & _ & Ar & Ax & Az & _).
  cbv zeta in *. rewrite Ar, Ax, Az, Gr, Gx, Gz, Hr, Hx, Hz. auto.
Qed.

(** main.js: the turn keys act first, then the one step along the direction
    the arrow keys left in [state.direction]. *)
Lemma basic_frame_horizontal (keys : Basic.Keys) (now : Z) (w : Basic.World) :
  let moveSpeed :=
    if Basic.Shift keys then Basic.runSpeed else Basic.speed in
  let dz := if Basic.ArrowDown keys then 1
            else if Basic.ArrowUp keys then -1 else 0 in
  let w' := Basic.animate keys now w in
  let yaw := Basic.rotation_y w' in
  yaw = Basic.rotation_y w
        + (if Basic.ArrowLeft keys then Basic.turnSpeed else 0)
        - (if Basic.ArrowRight keys then Basic.turnSpeed else 0) /\
  vx (Basic.position w') = vx (Basic.position w) + dz * sin yaw * moveSpeed /\
  vz (Basic.position w') = vz (Basic.position w) + dz * cos yaw * moveSpeed.
Proof.
  destruct w as [wk rn jp dir [ux uy uz] jf [px py pz] ry la ra ll rl].
  destruct keys as [up down left right space shift].
  cbv zeta.
  destruct up, down, left, right, space, shift, jp;
    cbv [Basic.animate Basic.Space Basic.ArrowUp Basic.ArrowDown
         Basic.ArrowLeft Basic.ArrowRight Basic.Shift Basic.isJumping
         Basic.jumpForce Basic.velocity Basic.position Basic.rotation_y
         Basic.animateStickmanLimbs applyAxisAngleY add multiplyScalar
         set_y vx vy vz andb orb negb];
    destruct (Rleb _ _); cbn; repeat split; lra.
Qed.

(** C3, as stated, fails on main.js: from rest at the origin, heading 0, one
    frame with only the up arrow down moves the figure by [speed] towards
    negative z, and one frame with only the down arrow down moves it by the
    full [speed] towards positive z. *)
Lemma C3_main_js_moves_the_other_way :
  Basic.rotation_y Basic.rest = 0 /\
  vx (Basic.position (Basic.animate Sample.up 0 Basic.rest)) = 0 /\
  vz (Basic.position (Basic.animate Sample.up 0 Basic.rest))
    = - Basic.speed /\
  vz (Basic.position (Basic.animate Sample.up 0 Basic.rest))
    <> vz (Basic.position Basic.rest) + Basic.speed /\
  vz (Basic.position (Basic.animate Sample.down 0 Basic.rest))
    = Basic.speed /\
  vz (Basic.position (Basic.animate Sample.down 0 Basic.rest))
    <> vz (Basic.position Basic.rest) - Basic.speed * 0.6.
Proof.
  destruct (basic_frame_horizontal Sample.up 0 Basic.rest) as (Hr & Hx & Hz).
  destruct (basic_frame_horizontal Sample.down 0 Basic.rest)
    as (Hr' & Hx' & Hz').
  cbv zeta in *.
  rewrite Hr in Hx, Hz. rewrite Hr' in Hx', Hz'.
  cbn [Sample.up Sample.down Basic.ArrowUp Basic.ArrowDown Basic.ArrowLeft
       Basic.ArrowRight Basic.Shift Basic.rest Basic.rotation_y
       Basic.position vx vz] in *.
  replace (0 + 0 - 0) with 0 in * by lra.
  rewrite sin_0, cos_0 in *. unfold Basic.speed in *.
  repeat split; lra.
Qed.

(** C3, amended.  At heading 0, in part_000 and part_001, the forward key
    alone moves the position by exactly (0, 0, moveSpeed) and the backward key
    alone by exactly (0, 0, -moveSpeed * 0.6), moveSpeed being [walkSpeed], or
    [runSpeed] with a shift key down; x and z keep these values to the end of
    the frame.  In main.js, with no turn key down, the up arrow alone moves
    x and z by (0, -moveSpeed) and the down arrow by (0, +moveSpeed). *)
Theorem C3_displacement_at_heading_zero :
  (forall (keys : Keys) (w : World),
     rotation_y w = 0 -> forwardHeld keys = true -> backwardHeld keys = false ->
     position (handleInput keys w) =
     add (position w)
         (Vec3 0 0 (if shiftHeld keys then runSpeed else walkSpeed))) /\
  (forall (keys : Keys) (w : World),
     rotation_y w = 0 -> forwardHeld keys = false -> backwardHeld keys = true ->
     position (handleInput keys w) =
     add (position w)
         (Vec3 0 0 (- ((if shiftHeld keys then runSpeed else walkSpeed)
                       * 0.6)))) /\
  (forall (pm : option Platform.Mesh) (keys : Keys) (now : Z) (w : World),
     rotation_y w = 0 -> forwardHeld keys = true -> backwardHeld keys = false ->
     let moveSpeed := if shiftHeld keys then runSpeed else walkSpeed in
     vx (position (Ground.animate keys now w)) = vx (position w) /\
     vz (position (Ground.animate keys now w)) = vz (position w) + moveSpeed /\
     vx (position (Platform.animate pm keys now w)) = vx (position w) /\
     vz (position (Platform.animate pm keys now w))
       = vz (position w) + moveSpeed) /\
  (forall (pm : option Platform.Mesh) (keys : Keys) (now : Z) (w : World),
     rotation_y w = 0 -> forwardHeld keys = false -> backwardHeld keys = true ->
     let moveSpeed := if shiftHeld keys then runSpeed else walkSpeed in
     vx (position (Ground.animate keys now w)) = vx (position w) /\
     vz (position (Ground.animate keys now w))
       = vz (position w) - moveSpeed * 0.6 /\
     vx (position (Platform.animate pm keys now w)) = vx (position w) /\
     vz (position (Platform.animate pm keys now w))
       = vz (position w) - moveSpeed * 0.6) /\
  (forall (keys : Basic.Keys) (now : Z) (w : Basic.World),
     Basic.rotation_y w = 0 ->
     Basic.ArrowLeft keys = false -> Basic.ArrowRight keys = false ->
     let moveSpeed :=
       if Basic.Shift keys then Basic.runSpeed else Basic.speed in
     let w' := Basic.animate keys now w in
     vx (Basic.position w') = vx (Basic.position w) /\
     (Basic.ArrowUp keys = true -> Basic.ArrowDown keys = false ->
      vz (Basic.position w') = vz (Basic.position w) - moveSpeed) /\
     (Basic.ArrowDown keys = true ->
      vz (Basic.position w') = vz (Basic.position w) + moveSpeed)).
Proof.
  assert (Hin : forall keys w, rotation_y w = 0 ->
            forall f b, forwardHeld keys = f -> backwardHeld keys = b ->
            let moveSpeed := if shiftHeld keys then runSpeed else walkSpeed in
            vx (position (handleInput keys w)) = vx (position w) /\
            vy (position (handleInput keys w)) = vy (position w) /\
            vz (position (handleInput keys w)) =
              vz (position w) + (if f then moveSpeed else 0)
                              - (if b then moveSpeed * 0.6 else 0)).
  { intros keys w Y f b F B. cbv zeta.
    pose proof (handleInput_position keys w) as P. cbv zeta in P.
    rewrite P, F, B, Y, sin_0, cos_0. clear P.
    destruct f, b, (shiftHeld keys); cbn [add multiplyScalar vx vy vz];
      repeat split; lra. }
  repeat match goal with |- _ /\ _ => split end.
  - intros keys w Y F B. destruct (Hin keys w Y _ _ F B) as (Hx & Hy & Hz).
    destruct (position (handleInput keys w)) as [x y z].
    destruct (position w) as [x0 y0 z0]. unfold add. cbn [vx vy vz] in *.
    destruct (shiftHeld keys); f_equal; lra.
  - intros keys w Y F B. destruct (Hin keys w Y _ _ F B) as (Hx & Hy & Hz).
    destruct (position (handleInput keys w)) as [x y z].
    destruct (position w) as [x0 y0 z0]. unfold add. cbn [vx vy vz] in *.
    destruct (shiftHeld keys); f_equal; lra.
  - intros pm keys now w Y F B. cbv zeta.
    destruct (Hin keys w Y _ _ F B) as (Hx & _ & Hz).
    destruct (ground_frame_horizontal keys now w) as (_ & Gx & Gz).
    destruct (platform_frame_horizontal pm keys now w) as (_ & Px & Pz).
    cbv zeta in *. rewrite Gx, Gz, Px, Pz, Hx, Hz.
    destruct (shiftHeld keys); repeat split; lra.
  - intros pm keys now w Y F B. cbv zeta.
    destruct (Hin keys w Y _ _ F B) as (Hx & _ & Hz).
    destruct (ground_frame_horizontal keys now w) as (_ & Gx & Gz).
    destruct (platform_frame_horizontal pm keys now w) as (_ & Px & Pz).
    cbv zeta in *. rewrite Gx, Gz, Px, Pz, Hx, Hz.
    destruct (shiftHeld keys); repeat split; lra.
  - intros keys now w Y L R. cbv zeta.
    destruct (basic_frame_horizontal keys now w) as (Hr & Hx & Hz).
    cbv zeta in *. rewrite L, R, Y in Hr.
    replace (0 + 0 - 0) with 0 in Hr by lra.
    rewrite Hr, sin_0 in Hx. rewrite Hr, cos_0 in Hz.
    destruct (Basic.Shift keys); repeat split.
    all: try (rewrite Hx; destruct (Basic.ArrowDown keys),
                (Basic.ArrowUp keys); lra).
    all: try (intros U D; rewrite Hz, U, D; lra).
    all: intros D; rewrite Hz, D; lra.
Qed.

(** C3, amended, on single frames from the initial state. *)
Lemma C3_displacement_at_heading_zero_witness :
  position (handleInput Sample.forward initial)
    = add (position initial) (Vec3 0 0 walkSpeed) /\
  position (handleInput Sample.backward initial)
    = add (position initial) (Vec3 0 0 (- (walkSpeed * 0.6))) /\
  vz (position (Ground.animate Sample.forwardRun 0 initial))
    = vz (position initial) + runSpeed /\
  vz (position (Platform.animate None Sample.backward 0 initial))
    = vz (position initial) - walkSpeed * 0.6 /\
  vz (Basic.position (Basic.animate Sample.up 0 Basic.rest))
    = vz (Basic.position Basic.rest) - Basic.speed /\
  vz (Basic.position (Basic.animate Sample.down 0 Basic.rest))
    = vz (Basic.position Basic.rest) + Basic.speed.
Proof.
  destruct C3_displacement_at_heading_zero as (T1 & T2 & T3 & T4 & T5).
  repeat split.
  - exact (T1 Sample.forward initial eq_refl eq_refl eq_refl).
  - exact (T2 Sample.backward initial eq_refl eq_refl eq_refl).
  - exact (proj1 (proj2 (T3 None Sample.forwardRun 0%Z initial
                            eq_refl eq_refl eq_refl))).
  - exact (proj2 (proj2 (proj2 (T4 None Sample.backward 0%Z initial
                                   eq_refl eq_refl eq_refl)))).
  - exact (proj1 (proj2 (T5 Sample.up 0%Z Basic.rest eq_refl eq_refl eq_refl))
                 eq_refl eq_refl).
  - exact (proj2 (proj2 (T5 Sample.down 0%Z Basic.rest
                            eq_refl eq_refl eq_refl))
                 eq_refl).
Defined.

(** C6. Turning, in all three scripts.  A frame with a left-turn key down
    and no right-turn key down adds [turnSpeed] to the heading, whatever else
    is held and whatever the state (on the ground or in the air); a session of
    K such frames adds K * [turnSpeed].  The heading is never reduced, so the
    sum is exact, and in particular right up to whole turns. *)
Theorem C6_turn_accumulation :
  (forall (pm : option Platform.Mesh) (keys : Keys) (now : Z) (w : World),
     leftHeld keys = true -> rightHeld keys = false ->
     rotation_y (Ground.animate keys now w) = rotation_y w + turnSpeed /\
     rotation_y (Platform.animate pm keys now w) = rotation_y w + turnSpeed)
  /\
  (forall (keys : Basic.Keys) (now : Z) (w : Basic.World),
     Basic.ArrowLeft keys = true -> Basic.ArrowRight keys = false ->
     Basic.rotation_y (Basic.animate keys now w)
       = Basic.rotation_y w + Basic.turnSpeed) /\
  (forall (frames : list Ground.Frame) (w : World),
     Forall (fun f => leftHeld (Ground.keys f) = true /\
                      rightHeld (Ground.keys f) = false) frames ->
     rotation_y (Ground.run frames w)
       = rotation_y w + INR (List.length frames) * turnSpeed /\
     sameHeading (rotation_y (Ground.run frames w))
                 (rotation_y w + INR (List.length frames) * turnSpeed)) /\
  (forall (frames : list Platform.Frame) (w : World),
     Forall (fun f => leftHeld (Platform.keys f) = true /\
                      rightHeld (Platform.keys f) = false) frames ->
     rotation_y (Platform.run frames w)
       = rotation_y w + INR (List.length frames) * turnSpeed /\
     sameHeading (rotation_y (Platform.run frames w))
                 (rotation_y w + INR (List.length frames) * turnSpeed)) /\
  (forall (frames : list Basic.Frame) (w : Basic.World),
     Forall (fun f => Basic.ArrowLeft (Basic.keys f) = true /\
                      Basic.ArrowRight (Basic.keys f) = false) frames ->
     Basic.rotation_y (Basic.run frames w)
       = Basic.rotation_y w + INR (List.length frames) * Basic.turnSpeed /\
     sameHeading (Basic.rotation_y (Basic.run frames w))
                 (Basic.rotation_y w
                  + INR (List.length frames) * Basic.turnSpeed)).
Proof.
  assert (same : forall a b, a = b -> sameHeading a b).
  { intros a b ->. exists 0%Z. lra. }
  assert (G1 : forall keys now w,
             leftHeld keys = true -> rightHeld keys = false ->
             rotation_y (Ground.animate keys now w) = rotation_y w + turnSpeed).
  { intros keys now w L R.
    destruct (ground_frame_horizontal keys now w) as (Hr & _).
    cbv zeta in Hr. rewrite Hr, handleInput_rotation, L, R. lra. }
  assert (P1 : forall pm keys now w,
             leftHeld keys = true -> rightHeld keys = false ->
             rotation_y (Platform.animate pm keys now w)
             = rotation_y w + turnSpeed).
  { intros pm keys now w L R.
    destruct (platform_frame_horizontal pm keys now w) as (Hr & _).
    cbv zeta in Hr. rewrite Hr, handleInput_rotation, L, R. lra. }
  assert (B1 : forall keys now w,
             Basic.ArrowLeft keys = true -> Basic.ArrowRight keys = false ->
             Basic.rotation_y (Basic.animate keys now w)
             = Basic.rotation_y w + Basic.turnSpeed).
  { intros keys now w L R.
    destruct (basic_frame_horizontal keys now w) as (Hr & _).
    cbv zeta in Hr. rewrite Hr, L, R. lra. }
  assert (Gk : forall frames w,
             Forall (fun f => leftHeld (Ground.keys f) = true /\
                              rightHeld (Ground.keys f) = false) frames ->
             rotation_y (Ground.run frames w)
             = rotation_y w + INR (List.length frames) * turnSpeed).
  { intros frames w H. revert w.
    induction H as [|f frames [L R] _ IH]; intros w; [cbn; lra|].
    cbn [Ground.run]. rewrite IH, (G1 _ _ _ L R).
    change (List.length (f :: frames)) with (S (List.length frames)).
    rewrite S_INR. lra. }
  assert (Pk : forall frames w,
             Forall (fun f => leftHeld (Platform.keys f) = true /\
                              rightHeld (Platform.keys f) = false) frames ->
             rotation_y (Platform.run frames w)
             = rotation_y w + INR (List.length frames) * turnSpeed).
  { intros frames w H. revert w.
    induction H as [|f frames [L R] _ IH]; intros w; [cbn; lra|].
    cbn [Platform.run]. rewrite IH, (P1 _ _ _ _ L R).
    change (List.length (f :: frames)) with (S (List.length frames)).
    rewrite S_INR. lra. }
  assert (Bk : forall frames w,
             Forall (fun f => Basic.ArrowLeft (Basic.keys f) = true /\
                              Basic.ArrowRight (Basic.keys f) = false) frames ->
             Basic.rotation_y (Basic.run frames w)
             = Basic.rotation_y w
               + INR (List.length frames) * Basic.turnSpeed).
  { intros frames w H. revert w.
    induction H as [|f frames [L R] _ IH]; intros w; [cbn; lra|].
    cbn [Basic.run]. rewrite IH, (B1 _ _ _ L R).
    change (List.length (f :: frames)) with (S (List.length frames)).
    rewrite S_INR. lra. }
  split; [|split; [|split; [|split]]].
  - intros pm keys now w L R. split; [apply G1|apply P1]; assumption.
  - exact B1.
  - intros frames w H. split; [|apply same]; apply Gk, H.
  - intros frames w H. split; [|apply same]; apply Pk, H.
  - intros frames w H. split; [|apply same]; apply Bk, H.
Qed.

(** C6 on three frames turning left while walking and jumping. *)
Lemma C6_turn_accumulation_witness :
  rotation_y (Ground.animate Sample.leftJump 0 initial)
    = rotation_y initial + turnSpeed /\
  rotation_y (Ground.run Sample.turnSession initial)
    = rotation_y initial + 3 * turnSpeed /\
  rotation_y (Platform.run Sample.turnSession' initial)
    = rotation_y initial + 3 * turnSpeed /\
  Basic.rotation_y (Basic.run Sample.turnSession'' Basic.rest)
    = Basic.rotation_y Basic.rest + 3 * Basic.turnSpeed.
Proof.
  destruct C6_turn_accumulation as (T1 & _ & T3 & T4 & T5).
  repeat split.
  - exact (proj1 (T1 None Sample.leftJump 0%Z initial eq_refl eq_refl)).
  - destruct (T3 Sample.turnSession initial) as [E _].
    + repeat constructor.
    + rewrite E. cbn [Sample.turnSession List.length INR]. lra.
  - destruct (T4 Sample.turnSession' initial) as [E _].
    + repeat constructor.
    + rewrite E. cbn [Sample.turnSession' List.length INR]. lra.
  - destruct (T5 Sample.turnSession'' Basic.rest) as [E _].
    + repeat constructor.
    + rewrite E. cbn [Sample.turnSession'' List.length INR]. lra.
Defined.

(** ** Forward and backward together *)

Lemma basic_releaseUp (keys : Basic.Keys) (now : Z) (w : Basic.World) :
  Basic.ArrowDown keys = true ->
  Basic.animate (Basic.releaseUp keys) now w = Basic.animate keys now w.
Proof.
  destruct keys as [up down left right space shift].
  cbn [Basic.ArrowDown]. intros ->.
  destruct up;
    cbv beta delta [Basic.animate Basic.releaseUp Basic.Space Basic.ArrowUp
      Basic.ArrowDown Basic.ArrowLeft Basic.ArrowRight Basic.Shift vx vy vz]
      iota zeta;
    reflexivity.
Qed.

(** C8, as stated, fails on main.js: with both arrows down the frame is the
    frame of the down arrow alone, one step of the full [speed] towards
    positive z, not the sum of a forward step and a backward step of 0.6
    times the speed. *)
Lemma C8_main_js_down_arrow_wins :
  vz (Basic.position (Basic.animate Sample.upDown 0 Basic.rest))
    = Basic.speed /\
  vz (Basic.position (Basic.animate Sample.upDown 0 Basic.rest))
    <> vz (Basic.position (Basic.animate Sample.up 0 Basic.rest))
       + Basic.speed * 0.6 /\
  Basic.animate Sample.upDown 0 Basic.rest
    = Basic.animate Sample.down 0 Basic.rest.
Proof.
  destruct (basic_frame_horizontal Sample.up 0 Basic.rest) as (Hr & _ & Hz).
  destruct (basic_frame_horizontal Sample.upDown 0 Basic.rest)
    as (Hr' & _ & Hz').
  cbv zeta in *.
  rewrite Hr in Hz. rewrite Hr' in Hz'.
  cbn [Sample.up Sample.upDown Basic.ArrowUp Basic.ArrowDown Basic.ArrowLeft
       Basic.ArrowRight Basic.Shift Basic.rest Basic.rotation_y
       Basic.position vx vz] in *.
  replace (0 + 0 - 0) with 0 in * by lra.
  rewrite cos_0 in *. unfold Basic.speed in *.
  split; [lra|split; [lra|]].
  symmetry. exact (basic_releaseUp Sample.upDown 0 Basic.rest eq_refl).
Qed.

(** C8, amended.  In part_000 and part_001 a frame with a forward and a
    backward key down applies both steps, one after the other: the forward
    vector times moveSpeed, then the negated forward vector times
    moveSpeed * 0.6.  In main.js the down arrow overrides the up arrow: the
    frame is the frame of the down arrow alone, one step of moveSpeed along
    the heading. *)
Theorem C8_forward_and_backward :
  (forall (keys : Keys) (w : World),
     forwardHeld keys = true -> backwardHeld keys = true ->
     let moveSpeed := if shiftHeld keys then runSpeed else walkSpeed in
     let yaw := rotation_y w in
     position (handleInput keys w) =
     add (add (position w)
              (multiplyScalar (Vec3 (sin yaw) 0 (cos yaw)) moveSpeed))
         (multiplyScalar (Vec3 (- sin yaw) 0 (- cos yaw))
                         (moveSpeed * 0.6))) /\
  (forall (pm : option Platform.Mesh) (keys : Keys) (now : Z) (w : World),
     forwardHeld keys = true -> backwardHeld keys = true ->
     let moveSpeed := if shiftHeld keys then runSpeed else walkSpeed in
     let yaw := rotation_y w in
     let x := vx (position w) + sin yaw * moveSpeed
              - sin yaw * (moveSpeed * 0.6) in
     let z := vz (position w) + cos yaw * moveSpeed
              - cos yaw * (moveSpeed * 0.6) in
     vx (position (Ground.animate keys now w)) = x /\
     vz (position (Ground.animate keys now w)) = z /\
     vx (position (Platform.animate pm keys now w)) = x /\
     vz (position (Platform.animate pm keys now w)) = z) /\
  (forall (keys : Basic.Keys) (now : Z) (w : Basic.World),
     Basic.ArrowUp keys = true -> Basic.ArrowDown keys = true ->
     let moveSpeed :=
       if Basic.Shift keys then Basic.runSpeed else Basic.speed in
     let w' := Basic.animate keys now w in
     w' = Basic.animate (Basic.releaseUp keys) now w /\
     vx (Basic.position w')
       = vx (Basic.position w) + sin (Basic.rotation_y w') * moveSpeed /\
     vz (Basic.position w')
       = vz (Basic.position w) + cos (Basic.rotation_y w') * moveSpeed).
Proof.
  split; [|split].
  - intros keys w F B. cbv zeta.
    pose proof (handleInput_position keys w) as P. cbv zeta in P.
    rewrite P, F, B. reflexivity.
  - intros pm keys now w F B. cbv zeta.
    pose proof (handleInput_position keys w) as P. cbv zeta in P.
    rewrite F, B in P.
    destruct (ground_frame_horizontal keys now w) as (_ & Gx & Gz).
    destruct (platform_frame_horizontal pm keys now w) as (_ & Px & Pz).
    cbv zeta in *. rewrite Gx, Gz, Px, Pz, P. clear P.
    cbn [add multiplyScalar vx vy vz].
    destruct (shiftHeld keys); repeat split; lra.
  - intros keys now w U D. cbv zeta.
    destruct (basic_frame_horizontal keys now w) as (_ & Hx & Hz).
    cbv zeta in *. rewrite D in Hx, Hz.
    split; [symmetry; apply basic_releaseUp, D|].
    rewrite Hx, Hz. destruct (Basic.Shift keys); split; lra.
Qed.

(** C8, amended, on one frame with both keys down. *)
Lemma C8_forward_and_backward_witness :
  position (handleInput Sample.both initial)
    = add (add (position initial)
               (multiplyScalar (Vec3 (sin 0) 0 (cos 0)) walkSpeed))
          (multiplyScalar (Vec3 (- sin 0) 0 (- cos 0)) (walkSpeed * 0.6)) /\
  vz (position (Ground.animate Sample.both 0 initial))
    = 0 + cos 0 * walkSpeed - cos 0 * (walkSpeed * 0.6) /\
  Basic.animate Sample.upDown 0 Basic.rest
    = Basic.animate (Basic.releaseUp Sample.upDown) 0 Basic.rest.
Proof.
  destruct C8_forward_and_backward as (T1 & T2 & T3).
  split; [|split].
  - exact (T1 Sample.both initial eq_refl eq_refl).
  - exact (proj1 (proj2 (T2 None Sample.both 0%Z initial eq_refl eq_refl))).
  - exact (proj1 (T3 Sample.upDown 0%Z Basic.rest eq_refl eq_refl)).
Defined.

(** ** Limbs *)

Lemma animateWalking_limbs (time : R) (w : World) :
  let cycle := sin (time * frequency (isRunning w)) in
  let oppositeCycle := sin (time * frequency (isRunning w) + PI) in
  limbs (animateWalking time w) =
    if isWalking w then
      [cycle * armAmplitude (isRunning w);
       oppositeCycle * armAmplitude (isRunning w);
       oppositeCycle * legAmplitude (isRunning w);
       cycle * legAmplitude (isRunning w)]
    else map (fun a => lerp a 0 0.1) (limbs w).
Proof. open_world w. destruct wk; reflexivity. Qed.

(** The limbs a frame leaves, in part_001 and part_000. *)
Lemma frame_limbs (pm : option Platform.Mesh) (keys : Keys) (now : Z)
  (w : World) :
  let running := shiftHeld keys in
  let cycle := sin (seconds now * frequency running) in
  let oppositeCycle := sin (seconds now * frequency running + PI) in
  let after :=
    if (forwardHeld keys || backwardHeld keys)%bool then
      [cycle * armAmplitude running; oppositeCycle * armAmplitude running;
       oppositeCycle * legAmplitude running; cycle * legAmplitude running]
    else map (fun a => lerp a 0 0.1) (limbs w) in
  limbs (Ground.animate keys now w) = after /\
  limbs (Platform.animate pm keys now w) = after.
Proof.
  cbv zeta. rewrite ground_frame, platform_frame, !animateWalking_limbs.
  destruct (integrated_vertical keys w) as (_ & _ & _ & _ & _ & Hw & Hr).
  destruct (integrated_horizontal keys w) as (_ & _ & _ & L1 & L2 & L3 & L4).
  destruct (groundCollision_fields (integrated keys w))
    as (_ & _ & Gw & Gr & _).
  destruct (groundCollision_keeps (integrated keys w))
    as (_ & _ & _ & G1 & G2 & G3 & G4).
  destruct (contact_keeps pm (integrated keys w))
    as (Cw & Cr & _ & _ & _ & _ & C1 & C2 & C3 & C4).
  cbv zeta in *. unfold limbs.
  rewrite Gw, Gr, Cw, Cr, Hw, Hr, G1, G2, G3, G4, C1, C2, C3, C4,
    L1, L2, L3, L4.
  split; reflexivity.
Qed.

Lemma basic_frame_limbs (keys : Basic.Keys) (now : Z) (w : Basic.World) :
  let rate := if Basic.Shift keys then 2.5 else 1.5 in
  let swing := sin (seconds now * rate) * 0.7 in
  let swingOpp := sin (seconds now * rate + PI) * 0.7 in
  Basic.limbs (Basic.animate keys now w) =
    if (Basic.ArrowUp keys || Basic.ArrowDown keys)%bool
    then [swing; swingOpp; swingOpp; swing]
    else [0; 0; 0; 0].
Proof.
  destruct w as [wk rn jp dir [ux uy uz] jf [px py pz] ry la ra ll rl].
  destruct keys as [up down left right space shift].
  cbv zeta.
  destruct up, down, shift, space, jp;
    cbv [Basic.animate Basic.Space Basic.ArrowUp Basic.ArrowDown
         Basic.ArrowLeft Basic.ArrowRight Basic.Shift Basic.isJumping
         Basic.jumpForce Basic.velocity Basic.position Basic.rotation_y
         Basic.animateStickmanLimbs Basic.limbs andb orb negb];
    ground_test; reflexivity.
Qed.

(** C4, as stated, fails: half a second after the clock's zero, walking, the
    left arm is at about 0.5 and the right leg at about 0.6, both positive, so
    the left arm is more than 1 away from the negated right leg. *)
Lemma C4_left_arm_follows_right_leg :
  leftArm Sample.walking = sin 1.5 * 0.5 /\
  rightLeg Sample.walking = sin 1.5 * 0.6 /\
  leftArm Sample.walking <> - rightLeg Sample.walking /\
  1 < Rabs (leftArm Sample.walking - - rightLeg Sample.walking).
Proof.
  unfold Sample.walking.
  destruct (frame_limbs None Sample.forward 500 initial) as [E _].
  cbv zeta in E. unfold limbs in E.
  change (forwardHeld Sample.forward || backwardHeld Sample.forward)%bool
    with true in E.
  change (shiftHeld Sample.forward) with false in E.
  injection E as E1 _ _ E4. rewrite E1, E4.
  unfold seconds, frequency, armAmplitude, legAmplitude.
  replace (500 * 0.001 * 3) with 1.5 by lra.
  pose proof sin_one_and_a_half.
  repeat split; try lra.
  rewrite Rabs_right; lra.
Qed.

Lemma Rabs_scale (x a : R) : 0 <= a -> Rabs (x * a) = Rabs x * a.
Proof. intros Ha. rewrite Rabs_mult, (Rabs_right a); [reflexivity|lra]. Qed.

Lemma sin_abs_le (x : R) : Rabs (sin x) <= Rabs x.
Proof.
  pose proof (SIN_bound x) as B.
  assert (P : forall y, 0 < y -> Rabs (sin y) <= y).
  { intros y Hy. pose proof (sin_lt_x y Hy). pose proof (SIN_bound y).
    apply Rabs_le. split; [|lra].
    destruct (Rle_lt_dec 1 y) as [H1|H1]; [lra|].
    pose proof PI_gt_3. assert (0 < sin y) by (apply sin_gt_0; lra). lra. }
  destruct (Rtotal_order x 0) as [Hx|[->|Hx]].
  - rewrite <- (Ropp_involutive x) at 1. rewrite sin_neg, Rabs_Ropp.
    rewrite (Rabs_left x Hx). apply P. lra.
  - rewrite sin_0. lra.
  - rewrite (Rabs_right x) by lra. apply P, Hx.
Qed.

(** Two sines half a cycle apart are opposite; with the half cycle off by
    [err] they are opposite within [err]. *)
Lemma opposite_cycle_bound (err phase : R) :
  Rabs (sin phase + oppositeCycle err phase) <= Rabs err.
Proof.
  unfold oppositeCycle.
  replace (phase + PI + err) with (phase + err + PI) by ring.
  rewrite neg_sin.
  replace (sin phase + - sin (phase + err))
    with (sin phase - sin (phase + err)) by ring.
  rewrite form4, !Rabs_mult.
  replace ((phase - (phase + err)) / 2) with (- (err / 2)) by lra.
  rewrite sin_neg, Rabs_Ropp.
  pose proof (sin_abs_le (err / 2)) as S.
  pose proof (COS_bound ((phase + (phase + err)) / 2)) as C.
  apply Rabs_le in C.
  pose proof (Rabs_pos (cos ((phase + (phase + err)) / 2))).
  pose proof (Rabs_pos (sin (err / 2))).
  assert (E : Rabs (err / 2) = Rabs err / 2).
  { unfold Rdiv. rewrite Rabs_mult, (Rabs_right (/ 2)); [reflexivity|lra]. }
  rewrite E in S. rewrite (Rabs_right 2) by lra. nra.
Qed.

Lemma opposite_cycle_scaled (err phase amplitude : R) :
  0 <= amplitude ->
  Rabs (oppositeCycle err phase * amplitude + sin phase * amplitude)
    <= amplitude * Rabs err.
Proof.
  intros Ha.
  replace (oppositeCycle err phase * amplitude + sin phase * amplitude)
    with ((sin phase + oppositeCycle err phase) * amplitude) by ring.
  rewrite (Rabs_scale _ _ Ha).
  pose proof (opposite_cycle_bound err phase). nra.
Qed.

(** C4, amended.  While walking, in part_000 and part_001, the two legs are
    opposite and the two arms are opposite, up to the rounding of one sum:
    the left leg and the right arm follow [Math.sin(phase + Math.PI)], the
    right leg and the left arm [Math.sin(phase)], so that each pair is
    exactly opposite when the sum [phase + Math.PI] is exact, and within
    the amplitude times [err] of opposite when the sum is off by [err].
    Each arm is in phase with the leg of the other side (left arm with right
    leg, right arm with left leg), scaled by the ratio of the amplitudes.
    Both amplitudes are strictly larger with the run modifier (0.8 against
    0.5 for the arms, 1.0 against 0.6 for the legs), so at one and the same
    phase no limb swings less when running, and each swings strictly more
    unless the sine of the phase is 0. *)
Theorem C4_gait :
  (forall (pm : option Platform.Mesh) (keys : Keys) (now : Z) (w : World),
     (forwardHeld keys || backwardHeld keys)%bool = true ->
     let r := shiftHeld keys in
     let phase := seconds now * frequency r in
     forall w', w' = Ground.animate keys now w \/
                w' = Platform.animate pm keys now w ->
     (leftLeg w' = oppositeCycle 0 phase * legAmplitude r /\
      rightArm w' = oppositeCycle 0 phase * armAmplitude r /\
      forall err : R,
        Rabs (oppositeCycle err phase * legAmplitude r + rightLeg w')
          <= legAmplitude r * Rabs err /\
        Rabs (oppositeCycle err phase * armAmplitude r + leftArm w')
          <= armAmplitude r * Rabs err) /\
     leftArm w' * legAmplitude r = rightLeg w' * armAmplitude r /\
     rightArm w' * legAmplitude r = leftLeg w' * armAmplitude r) /\
  (armAmplitude false < armAmplitude true /\
   legAmplitude false < legAmplitude true) /\
  (forall (tw tr : R) (ww wr : World),
     isWalking ww = true -> isRunning ww = false ->
     isWalking wr = true -> isRunning wr = true ->
     tw * frequency false = tr * frequency true ->
     let a := animateWalking tw ww in
     let b := animateWalking tr wr in
     (Rabs (leftArm a) <= Rabs (leftArm b) /\
      Rabs (rightArm a) <= Rabs (rightArm b) /\
      Rabs (leftLeg a) <= Rabs (leftLeg b) /\
      Rabs (rightLeg a) <= Rabs (rightLeg b)) /\
     (sin (tw * frequency false) <> 0 ->
      Rabs (leftArm a) < Rabs (leftArm b) /\
      Rabs (rightArm a) < Rabs (rightArm b) /\
      Rabs (leftLeg a) < Rabs (leftLeg b) /\
      Rabs (rightLeg a) < Rabs (rightLeg b))).
Proof.
  split; [|split].
  - intros pm keys now w W r phase w' Hw'.
    destruct (frame_limbs pm keys now w) as [G P]. cbv zeta in G, P.
    rewrite W in G, P. unfold limbs in G, P.
    assert (E : [leftArm w'; rightArm w'; leftLeg w'; rightLeg w'] =
                [sin phase * armAmplitude r;
                 sin (phase + PI) * armAmplitude r;
                 sin (phase + PI) * legAmplitude r;
                 sin phase * legAmplitude r])
      by (destruct Hw' as [->| ->]; assumption).
    clear G P. injection E as -> -> -> ->.
    assert (Z0 : oppositeCycle 0 phase = sin (phase + PI))
      by (unfold oppositeCycle; rewrite Rplus_0_r; reflexivity).
    assert (Ha : 0 <= armAmplitude r /\ 0 <= legAmplitude r)
      by (unfold armAmplitude, legAmplitude; destruct r; lra).
    destruct Ha as [Ha Hl].
    split; [split; [|split]|split].
    + rewrite Z0. reflexivity.
    + rewrite Z0. reflexivity.
    + intros err. split; apply opposite_cycle_scaled; assumption.
    + ring.
    + ring.
  - unfold armAmplitude, legAmplitude. lra.
  - intros tw tr ww wr Ww Rw Wr Rr Ph a b.
    pose proof (animateWalking_limbs tw ww) as A.
    pose proof (animateWalking_limbs tr wr) as B.
    cbv zeta in A, B. rewrite Ww, Rw in A. rewrite Wr, Rr in B.
    unfold limbs in A, B. fold a in A. fold b in B.
    injection A as -> -> -> ->. injection B as -> -> -> ->.
    unfold frequency, armAmplitude, legAmplitude in *.
    replace (tr * 5) with (tw * 3) by exact Ph.
    rewrite !neg_sin, !Rabs_scale, !Rabs_Ropp by lra.
    pose proof (Rabs_pos (sin (tw * 3))) as Hp.
    split; [repeat split; lra|].
    intros Hs. apply Rabs_pos_lt in Hs. repeat split; lra.
Qed.

(** C4, amended, on the figure half a second into a walk, with the sum off
    by a ten-millionth. *)
Lemma C4_gait_witness :
  leftLeg Sample.walking
    = oppositeCycle 0 (seconds 500 * frequency false) * legAmplitude false /\
  Rabs (oppositeCycle 0.0000001 (seconds 500 * frequency false)
          * legAmplitude false + rightLeg Sample.walking)
    <= legAmplitude false * Rabs 0.0000001 /\
  leftArm Sample.walking * legAmplitude false
    = rightLeg Sample.walking * armAmplitude false /\
  Rabs (leftArm (animateWalking 5 Sample.walking))
    <= Rabs (leftArm (animateWalking 3
                        (set_isRunning true Sample.walking))).
Proof.
  destruct C4_gait as (T1 & _ & T3).
  destruct (T1 None Sample.forward 500%Z initial eq_refl Sample.walking
              (or_introl eq_refl)) as ((A & _ & B) & C & _).
  assert (W : isWalking Sample.walking = true)
    by (apply (ground_frame_cases Sample.forward 500 initial)).
  assert (Rn : isRunning Sample.walking = false)
    by (apply (ground_frame_cases Sample.forward 500 initial)).
  assert (Ph : 5 * frequency false = 3 * frequency true)
    by (unfold frequency; lra).
  split; [exact A|split; [exact (proj1 (B 0.0000001))|split; [exact C|]]].
  apply (T3 5 3 Sample.walking (set_isRunning true Sample.walking)
            W Rn W eq_refl Ph).
Defined.

(** ** Return to rest *)

Lemma lerp_to_rest (a : R) : lerp a 0 0.1 = 0.9 * a.
Proof. unfold lerp. lra. Qed.

(** Repeated damping by 0.9 brings any bounded angle below any tolerance. *)
Lemma damping_vanishes (bound eps : R) :
  0 < eps ->
  exists N : nat, forall n : nat, (N <= n)%nat ->
    forall a : R, Rabs a <= bound -> Rabs (0.9 ^ n * a) < eps.
Proof.
  intros He.
  assert (Hb : 0 < Rabs bound + 1) by (pose proof (Rabs_pos bound); lra).
  assert (Hx : Rabs 0.9 < 1) by (rewrite Rabs_right; lra).
  destruct (pow_lt_1_zero 0.9 Hx (eps / (Rabs bound + 1))) as [N HN].
  { apply Rdiv_lt_0_compat; assumption. }
  exists N. intros n Hn a Ha.
  specialize (HN n Hn). rewrite Rabs_mult.
  pose proof (Rabs_pos (0.9 ^ n)). pose proof (Rabs_pos a).
  pose proof (Rle_abs bound).
  apply Rle_lt_trans with (Rabs (0.9 ^ n) * (Rabs bound + 1)).
  - apply Rmult_le_compat_l; lra.
  - apply Rlt_le_trans with (eps / (Rabs bound + 1) * (Rabs bound + 1)).
    + apply Rmult_lt_compat_r; assumption.
    + unfold Rdiv. rewrite Rmult_assoc, Rinv_l; lra.
Qed.

Lemma ground_idle_run (frames : list Ground.Frame) (w : World) :
  Forall (fun f => idle (Ground.keys f)) frames ->
  limbs (Ground.run frames w) =
  map (fun a => 0.9 ^ List.length frames * a) (limbs w).
Proof.
  intros H. revert w. induction H as [|f frames I _ IH]; intros w.
  - unfold limbs. cbn. f_equal; [|f_equal; [|f_equal; [|f_equal]]]; lra.
  - cbn [Ground.run]. rewrite IH.
    destruct (frame_limbs None (Ground.keys f) (Ground.now f) w) as [E _].
    cbv zeta in E. rewrite (idle_walking _ I) in E. rewrite E.
    unfold limbs. cbn [map List.length pow]. rewrite !lerp_to_rest.
    f_equal; [|f_equal; [|f_equal; [|f_equal]]]; ring.
Qed.

Lemma platform_idle_run (frames : list Platform.Frame) (w : World) :
  Forall (fun f => idle (Platform.keys f)) frames ->
  limbs (Platform.run frames w) =
  map (fun a => 0.9 ^ List.length frames * a) (limbs w).
Proof.
  intros H. revert w. induction H as [|f frames I _ IH]; intros w.
  - unfold limbs. cbn. f_equal; [|f_equal; [|f_equal; [|f_equal]]]; lra.
  - cbn [Platform.run]. rewrite IH.
    destruct (frame_limbs (Platform.platformMesh f) (Platform.keys f)
                (Platform.now f) w) as [_ E].
    cbv zeta in E. rewrite (idle_walking _ I) in E. rewrite E.
    unfold limbs. cbn [map List.length pow]. rewrite !lerp_to_rest.
    f_equal; [|f_equal; [|f_equal; [|f_equal]]]; ring.
Qed.

(** C7, as stated, fails on main.js: the first frame without an arrow key
    puts the left arm at 0 at once, from about 0.7, where easing by 0.1
    would leave it above 0.6. *)
Lemma C7_main_js_snaps_to_rest :
  Basic.leftArm Sample.swung = sin 1.5 * 0.7 /\
  Basic.leftArm (Basic.animate Basic.noKeys 1016 Sample.swung) = 0 /\
  0.6 < lerp (Basic.leftArm Sample.swung) 0 0.1 /\
  Basic.leftArm (Basic.animate Basic.noKeys 1016 Sample.swung)
    <> lerp (Basic.leftArm Sample.swung) 0 0.1.
Proof.
  pose proof (basic_frame_limbs Sample.up 1000 Basic.rest) as E.
  pose proof (basic_frame_limbs Basic.noKeys 1016 Sample.swung) as E'.
  cbv zeta in E, E'. fold Sample.swung in E.
  unfold Basic.limbs in E, E'.
  change (Basic.ArrowUp Sample.up || Basic.ArrowDown Sample.up)%bool
    with true in E.
  change (Basic.Shift Sample.up) with false in E.
  change (Basic.ArrowUp Basic.noKeys || Basic.ArrowDown Basic.noKeys)%bool
    with false in E'.
  injection E as E1 _ _ _. injection E' as E1' _ _ _.
  rewrite E1', E1, lerp_to_rest. unfold seconds.
  replace (1000 * 0.001 * 1.5) with 1.5 by lra.
  pose proof sin_one_and_a_half.
  repeat split; lra.
Qed.

(** C7, amended.  In part_000 and part_001 a frame with no forward or backward
    key down replaces every joint angle [a] by [lerp a 0 0.1], that is
    0.9 * a; so no angle grows in size, after a session of N such frames
    every angle is 0.9 ^ N times what it was, and every angle ends below any
    tolerance once the session is long enough.  In main.js such a frame sets
    all four angles to 0. *)
Theorem C7_idle_smoothing :
  (forall (pm : option Platform.Mesh) (keys : Keys) (now : Z) (w : World),
     idle keys ->
     limbs (Ground.animate keys now w)
       = map (fun a => lerp a 0 0.1) (limbs w) /\
     limbs (Platform.animate pm keys now w)
       = map (fun a => lerp a 0 0.1) (limbs w) /\
     Forall2 (fun a' a => a' = 0.9 * a /\ Rabs a' <= Rabs a)
             (limbs (Ground.animate keys now w)) (limbs w)) /\
  (forall (frames : list Ground.Frame) (w : World),
     Forall (fun f => idle (Ground.keys f)) frames ->
     limbs (Ground.run frames w)
       = map (fun a => 0.9 ^ List.length frames * a) (limbs w)) /\
  (forall (frames : list Platform.Frame) (w : World),
     Forall (fun f => idle (Platform.keys f)) frames ->
     limbs (Platform.run frames w)
       = map (fun a => 0.9 ^ List.length frames * a) (limbs w)) /\
  (forall (w : World) (eps : R),
     0 < eps ->
     exists N : nat, forall frames : list Ground.Frame,
       Forall (fun f => idle (Ground.keys f)) frames ->
       (N <= List.length frames)%nat ->
       Forall (fun a => Rabs a < eps) (limbs (Ground.run frames w))) /\
  (forall (keys : Basic.Keys) (now : Z) (w : Basic.World),
     Basic.ArrowUp keys = false -> Basic.ArrowDown keys = false ->
     Basic.limbs (Basic.animate keys now w) = [0; 0; 0; 0]).
Proof.
  split; [|split; [|split; [|split]]].
  - intros pm keys now w I.
    destruct (frame_limbs pm keys now w) as [G P]. cbv zeta in G, P.
    rewrite (idle_walking _ I) in G, P. rewrite G, P.
    split; [reflexivity|split; [reflexivity|]].
    unfold limbs. cbn [map].
    assert (damp : forall a, lerp a 0 0.1 = 0.9 * a /\
                             Rabs (lerp a 0 0.1) <= Rabs a).
    { intros a. split; [apply lerp_to_rest|].
      rewrite lerp_to_rest, Rabs_mult, (Rabs_right 0.9) by lra.
      pose proof (Rabs_pos a). lra. }
    repeat (apply Forall2_cons; [apply damp|]). apply Forall2_nil.
  - exact ground_idle_run.
  - exact platform_idle_run.
  - intros w eps He.
    destruct (damping_vanishes
                (Rabs (leftArm w) + Rabs (rightArm w)
                 + Rabs (leftLeg w) + Rabs (rightLeg w)) eps He) as [N HN].
    exists N. intros frames I Hn.
    rewrite (ground_idle_run frames w I). unfold limbs. cbn [map].
    pose proof (Rabs_pos (leftArm w)). pose proof (Rabs_pos (rightArm w)).
    pose proof (Rabs_pos (leftLeg w)). pose proof (Rabs_pos (rightLeg w)).
    repeat (apply Forall_cons; [apply (HN _ Hn); lra|]). apply Forall_nil.
  - intros keys now w U D.
    pose proof (basic_frame_limbs keys now w) as E. cbv zeta in E.
    rewrite U, D in E. exact E.
Qed.

(** C7, amended, on the frames that follow a walk. *)
Lemma C7_idle_smoothing_witness :
  limbs (Ground.animate noKeys 516 Sample.walking)
    = map (fun a => lerp a 0 0.1) (limbs Sample.walking) /\
  limbs (Ground.run Sample.restSession Sample.walking)
    = map (fun a => 0.9 ^ 3 * a) (limbs Sample.walking) /\
  (exists N : nat, forall frames : list Ground.Frame,
     Forall (fun f => idle (Ground.keys f)) frames ->
     (N <= List.length frames)%nat ->
     Forall (fun a => Rabs a < 0.001)
            (limbs (Ground.run frames Sample.walking))) /\
  Basic.limbs (Basic.animate Basic.noKeys 1016 Sample.swung) = [0; 0; 0; 0].
Proof.
  destruct C7_idle_smoothing as (T1 & T2 & _ & T4 & T5).
  assert (I : idle noKeys) by (split; reflexivity).
  split; [|split; [|split]].
  - exact (proj1 (T1 None noKeys 516%Z Sample.walking I)).
  - apply (T2 Sample.restSession Sample.walking).
    repeat constructor.
  - apply (T4 Sample.walking 0.001). lra.
  - exact (T5 Basic.noKeys 1016%Z Sample.swung eq_refl eq_refl).
Defined.

(** ** The bob *)

Lemma Vector3_ext (a b : Vector3) :
  vx a = vx b -> vy a = vy b -> vz a = vz b -> a = b.
Proof. destruct a, b; cbn; intros -> -> ->; reflexivity. Qed.

Lemma ground_run_groundLevel (frames : list Ground.Frame) (w : World) :
  groundLevel (Ground.run frames w) = groundLevel w.
Proof.
  revert w. induction frames as [|f frames IH]; intros w; [reflexivity|].
  cbn [Ground.run]. rewrite IH.
  apply (ground_frame_cases (Ground.keys f) (Ground.now f) w).
Qed.

(** The height a walking frame of part_001 leaves. *)
Lemma ground_frame_bob (keys : Keys) (now : Z) (w : World) :
  (forwardHeld keys || backwardHeld keys)%bool = true ->
  vy (position (Ground.animate keys now w)) =
  groundLevel w + bodyBob (seconds now) (shiftHeld keys).
Proof.
  intros W.
  destruct (ground_frame_cases keys now w) as (_ & _ & _ & _ & C).
  cbv zeta in C. rewrite W in C.
  destruct C as [(_ & _ & _ & Hy)|(_ & _ & _ & Hy)]; exact Hy.
Qed.

(** The height a walking frame of part_000 leaves. *)
Lemma platform_frame_bob (pm : option Platform.Mesh) (keys : Keys) (now : Z)
  (w : World) :
  (forwardHeld keys || backwardHeld keys)%bool = true ->
  vy (position (Platform.animate pm keys now w)) =
  groundLevel (Platform.animate pm keys now w)
  + bodyBob (seconds now) (shiftHeld keys).
Proof.
  intros W. rewrite platform_frame.
  destruct (animateWalking_vertical (seconds now)
              (Platform.contact pm (integrated keys w)))
    as (_ & _ & _ & Eg & _ & _ & _ & _ & _ & Ey).
  destruct (contact_keeps pm (integrated keys w)) as (Cw & Cr & _).
  destruct (integrated_vertical keys w) as (_ & _ & _ & _ & _ & Hw & Hr).
  cbv zeta in *. rewrite Ey, Eg, Cw, Cr, Hw, Hr, W. reflexivity.
Qed.

(** The ground level a frame of part_000 leaves: the height of the first
    point the ray reports, and the one it found if there is none. *)
Lemma platform_frame_groundLevel (pm : option Platform.Mesh) (keys : Keys)
  (now : Z) (w : World) :
  let intersects :=
    match pm with
    | Some mesh =>
        Platform.intersectObject
          (add (position (integrated keys w)) (Vec3 0 1 0)) mesh
    | None => []
    end in
  groundLevel (Platform.animate pm keys now w) =
  match intersects with
  | hit :: _ => vy (Platform.point hit)
  | [] => groundLevel w
  end.
Proof.
  cbv zeta. rewrite platform_frame.
  destruct (animateWalking_vertical (seconds now)
              (Platform.contact pm (integrated keys w)))
    as (_ & _ & _ & Eg & _).
  destruct (integrated_vertical keys w) as (_ & _ & _ & _ & Hg & _).
  cbv zeta in *. rewrite Eg.
  destruct pm as [mesh|]; [|rewrite contact_unloaded; exact Hg].
  destruct (Platform.intersectObject
              (add (position (integrated keys w)) (Vec3 0 1 0)) mesh)
    as [|hit rest] eqn:E.
  - rewrite (contact_miss mesh _ E). exact Hg.
  - apply (contact_fields mesh (integrated keys w) hit rest E).
Qed.

(** What a ray finds in [Sample.stairs]: the step first if it starts at or
    above the step, the floor alone if it starts between the two. *)
Lemma stairs_hit (origin : Vector3) :
  (legLength + 1.2 <= vy origin ->
   Platform.intersectObject origin Sample.stairs =
   [Platform.mkIntersection (vy origin - (legLength + 1.2))
      (Vec3 (vx origin) (legLength + 1.2) (vz origin));
    Platform.mkIntersection (vy origin - legLength)
      (Vec3 (vx origin) legLength (vz origin))]) /\
  (legLength <= vy origin < legLength + 1.2 ->
   Platform.intersectObject origin Sample.stairs =
   [Platform.mkIntersection (vy origin - legLength)
      (Vec3 (vx origin) legLength (vz origin))]).
Proof.
  unfold Platform.intersectObject, Sample.stairs. split; intros H.
  - assert (E1 : Rleb legLength (vy origin) = true)
      by (apply Rleb_true; lra).
    assert (E2 : Rleb (legLength + 1.2) (vy origin) = true)
      by (apply Rleb_true; lra).
    assert (E3 : Rleb (vy origin - legLength)
                      (vy origin - (legLength + 1.2)) = false)
      by (apply Rleb_false; lra).
    cbn [filter]. rewrite E1, E2.
    cbn [map Platform.sortByDistance fold_right Platform.insertByDistance
         Platform.distance].
    rewrite E3. reflexivity.
  - assert (E1 : Rleb legLength (vy origin) = true)
      by (apply Rleb_true; lra).
    assert (E2 : Rleb (legLength + 1.2) (vy origin) = false)
      by (apply Rleb_false; lra).
    cbn [filter]. rewrite E1, E2. reflexivity.
Qed.

(** C9, as stated, fails in part_000: there a jump started while walking
    can show.  The figure starts on the floor of [Sample.stairs], under a
    step 1.2 above it, and walks forward.  With the space bar down the
    figure is moved up by 0.28, the ray from 1 above it finds the step, the
    figure is put on it, and the frame ends 1.2 above the floor; with the
    space bar up the ray starts below the step and the frame ends on the
    floor. *)
Lemma C9_a_jump_reaches_the_step :
  vy (position (Platform.animate (Some Sample.stairs) Sample.walkJump 0
                  initial)) = legLength + 1.2 /\
  vy (position (Platform.animate (Some Sample.stairs) Sample.forward 0
                  initial)) = legLength /\
  vy (position (Platform.animate (Some Sample.stairs) Sample.walkJump 0
                  initial))
    <> vy (position (Platform.animate (Some Sample.stairs)
                       (releaseSpace Sample.walkJump) 0 initial)).
Proof.
  assert (B0 : bodyBob (seconds 0) false = 0).
  { unfold bodyBob, seconds, frequency.
    replace (0 * 0.001 * 3 * 2) with 0 by lra.
    rewrite sin_0, Rabs_R0. lra. }
  assert (Up : vy (position (Platform.animate (Some Sample.stairs)
                               Sample.walkJump 0 initial))
               = legLength + 1.2).
  { rewrite platform_frame_bob by reflexivity.
    rewrite platform_frame_groundLevel.
    destruct (integrated_vertical Sample.walkJump initial)
      as (_ & _ & Py & _).
    cbv zeta in Py.
    change (spaceHeld Sample.walkJump) with true in Py.
    change (isJumping initial) with false in Py. cbn [andb negb] in Py.
    change (vy (position initial)) with legLength in Py.
    change (vy (velocity initial)) with 0 in Py.
    unfold gravity, jumpImpulse in Py.
    destruct (stairs_hit (add (position (integrated Sample.walkJump initial))
                              (Vec3 0 1 0))) as [Hit _].
    rewrite Hit.
    - change (shiftHeld Sample.walkJump) with false. rewrite B0.
      cbn [Platform.point vy]. lra.
    - unfold add. cbn [vy]. rewrite Py. lra. }
  assert (Down : forall keys,
             (forwardHeld keys || backwardHeld keys)%bool = true ->
             shiftHeld keys = false -> spaceHeld keys = false ->
             vy (position (Platform.animate (Some Sample.stairs) keys 0
                             initial)) = legLength).
  { intros keys W Sh Sp.
    rewrite platform_frame_bob by exact W.
    rewrite platform_frame_groundLevel.
    destruct (integrated_vertical keys initial) as (_ & _ & Py & _).
    cbv zeta in Py. rewrite Sp in Py. cbn [andb] in Py.
    change (vy (position initial)) with legLength in Py.
    change (vy (velocity initial)) with 0 in Py.
    change (jumpForce initial) with 0 in Py.
    unfold gravity in Py.
    destruct (stairs_hit (add (position (integrated keys initial))
                              (Vec3 0 1 0))) as [_ Hit].
    rewrite Hit.
    - rewrite Sh, B0. cbn [Platform.point vy]. lra.
    - unfold add. cbn [vy]. rewrite Py. lra. }
  split; [exact Up|split].
  - apply Down; reflexivity.
  - rewrite Up, (Down (releaseSpace Sample.walkJump)) by reflexivity. lra.
Qed.

(** C9, amended.  Bob over physics, in part_001 and part_000.  [animate] is
    the limb step applied after the ground test, itself applied after
    input, jump and physics.  In a frame with a forward or backward key
    down the height at the end is the ground level, as the ground test of
    the frame leaves it, plus |sin (time * frequency * 2)| * 0.05, whatever
    height and vertical velocity the frame started from and whether or not
    a jump was started.  In part_001 the ground level never changes: the
    position is the same with the space bar down or up, and along a session
    of such frames the height stays within 0.05 of the ground level.  In
    part_000 the same holds while [platformMesh] is null or the ray misses;
    when the ray hits, the ground level becomes the height of the first
    point it reports, looking down from 1 above the displaced figure, so
    that a displacement shows only through the surface the ray finds. *)
Theorem C9_bob_overrides_physics :
  (forall (pm : option Platform.Mesh) (keys : Keys) (now : Z) (w : World),
     Ground.animate keys now w =
       animateWalking (seconds now)
         (Ground.groundCollision (integrated keys w)) /\
     Platform.animate pm keys now w =
       animateWalking (seconds now)
         (Platform.contact pm (integrated keys w))) /\
  (forall (pm : option Platform.Mesh) (keys : Keys) (now : Z) (w : World),
     (forwardHeld keys || backwardHeld keys)%bool = true ->
     let bob :=
       Rabs (sin (seconds now * frequency (shiftHeld keys) * 2)) * 0.05 in
     vy (position (Ground.animate keys now w)) = groundLevel w + bob /\
     vy (position (Platform.animate pm keys now w))
       = groundLevel (Platform.animate pm keys now w) + bob) /\
  (forall (keys : Keys) (now : Z) (w : World) (height speed : R),
     (forwardHeld keys || backwardHeld keys)%bool = true ->
     position (Ground.animate keys now w)
       = position (Ground.animate (releaseSpace keys) now w) /\
     vy (position (Ground.animate keys now
                     (set_velocity_y speed (set_position_y height w))))
       = vy (position (Ground.animate keys now w))) /\
  (forall (frames : list Ground.Frame) (w : World),
     frames <> [] ->
     Forall (fun f => (forwardHeld (Ground.keys f)
                       || backwardHeld (Ground.keys f))%bool = true) frames ->
     groundLevel w <= vy (position (Ground.run frames w))
       <= groundLevel w + 0.05) /\
  (forall (pm : option Platform.Mesh) (keys : Keys) (now : Z) (w : World),
     (forwardHeld keys || backwardHeld keys)%bool = true ->
     let bob :=
       Rabs (sin (seconds now * frequency (shiftHeld keys) * 2)) * 0.05 in
     let intersects :=
       match pm with
       | Some mesh =>
           Platform.intersectObject
             (add (position (integrated keys w)) (Vec3 0 1 0)) mesh
       | None => []
       end in
     vy (position (Platform.animate pm keys now w)) =
     match intersects with
     | hit :: _ => vy (Platform.point hit) + bob
     | [] => groundLevel w + bob
     end).
Proof.
  split; [|split; [|split; [|split]]].
  - intros pm keys now w. split; reflexivity.
  - intros pm keys now w W bob. split.
    + apply ground_frame_bob, W.
    + apply platform_frame_bob, W.
  - intros keys now w height speed W.
    destruct (releaseSpace_tests keys) as (Ef & Eb & _ & _ & Es & _).
    split.
    + apply Vector3_ext.
      * destruct (ground_frame_horizontal keys now w) as (_ & Hx & _).
        destruct (ground_frame_horizontal (releaseSpace keys) now w)
          as (_ & Hx' & _).
        cbv zeta in *. rewrite Hx, Hx', handleInput_releaseSpace. reflexivity.
      * rewrite !ground_frame_bob, Es; [reflexivity| |exact W].
        rewrite Ef, Eb. exact W.
      * destruct (ground_frame_horizontal keys now w) as (_ & _ & Hz).
        destruct (ground_frame_horizontal (releaseSpace keys) now w)
          as (_ & _ & Hz').
        cbv zeta in *. rewrite Hz, Hz', handleInput_releaseSpace. reflexivity.
    + rewrite !ground_frame_bob by exact W. reflexivity.
  - intros frames w Hne H.
    destruct (exists_last Hne) as (front & f & ->).
    apply Forall_app in H. destruct H as [_ Hf].
    apply Forall_inv in Hf.
    assert (E : Ground.run (front ++ [f]) w =
                Ground.animate (Ground.keys f) (Ground.now f)
                  (Ground.run front w)).
    { clear. revert w. induction front as [|g front IH]; intros w;
        [reflexivity|]. cbn [Ground.run app]. apply IH. }
    rewrite E, ground_frame_bob, ground_run_groundLevel by exact Hf.
    pose proof (bodyBob_bounds (seconds (Ground.now f))
                  (shiftHeld (Ground.keys f))).
    lra.
  - intros pm keys now w W bob intersects.
    rewrite (platform_frame_bob pm keys now w W).
    pose proof (platform_frame_groundLevel pm keys now w) as G.
    cbv zeta in G. fold intersects in G. rewrite G.
    destruct intersects; reflexivity.
Qed.

(** C9 on three frames walking with the space bar down, and on one such
    frame before the mesh is loaded. *)
Lemma C9_bob_overrides_physics_witness :
  vy (position (Ground.animate Sample.walkJump 0 initial))
    = legLength + Rabs (sin (seconds 0 * 3 * 2)) * 0.05 /\
  position (Ground.animate Sample.walkJump 0 initial)
    = position (Ground.animate (releaseSpace Sample.walkJump) 0 initial) /\
  legLength <= vy (position (Ground.run Sample.walkJumpSession initial))
    <= legLength + 0.05 /\
  vy (position (Platform.animate None Sample.walkJump 0 initial))
    = legLength + Rabs (sin (seconds 0 * 3 * 2)) * 0.05.
Proof.
  destruct C9_bob_overrides_physics as (_ & T2 & T3 & T4 & T5).
  split; [|split; [|split]].
  - exact (proj1 (T2 None Sample.walkJump 0%Z initial eq_refl)).
  - exact (proj1 (T3 Sample.walkJump 0%Z initial 0 0 eq_refl)).
  - apply (T4 Sample.walkJumpSession initial).
    + discriminate.
    + repeat constructor.
  - exact (T5 None Sample.walkJump 0%Z initial eq_refl).
Defined.

(** ** Before the mesh is loaded *)

(** [platformMesh] is written at most once: a scene without a mesh leaves it
    null, and a second load leaves the first mesh in place. *)
Lemma onLoad_without_mesh (scene : list Platform.Node) :
  Forall (fun child => Platform.isMesh child = false) scene ->
  Platform.onLoad scene None = None.
Proof.
  unfold Platform.onLoad. induction 1 as [|child scene H _ IH]; cbn;
    [reflexivity|]. rewrite H. exact IH.
Qed.

Lemma onLoad_once (scene : list Platform.Node) (mesh : Platform.Mesh) :
  Platform.onLoad scene (Some mesh) = Some mesh.
Proof.
  unfold Platform.onLoad. induction scene as [|child scene IH]; cbn;
    [reflexivity|]. rewrite andb_false_r. exact IH.
Qed.

(** A frame of part_000 with [platformMesh] still null. *)
Lemma unloaded_frame (keys : Keys) (now : Z) (w : World) :
  let impulse :=
    if (spaceHeld keys && negb (isJumping w))%bool
    then jumpImpulse else jumpForce w in
  let w' := Platform.animate None keys now w in
  isJumping w' = (isJumping w || spaceHeld keys)%bool /\
  vy (velocity w') = vy (velocity w) + gravity + impulse /\
  jumpForce w' = 0 /\ groundLevel w' = groundLevel w /\
  vy (position w') =
    if (forwardHeld keys || backwardHeld keys)%bool
    then groundLevel w + bodyBob (seconds now) (shiftHeld keys)
    else vy (position w) + (vy (velocity w) + gravity + impulse).
Proof.
  cbv zeta. rewrite platform_frame, contact_unloaded.
  destruct (integrated_vertical keys w) as (Pj & Pv & Py & Pf & Pg & Pw & Pr).
  destruct (animateWalking_vertical (seconds now) (integrated keys w))
    as (Ej & Ev & Ef & Eg & _ & _ & _ & _ & _ & Ey).
  cbv zeta in *. rewrite Ej, Ev, Ef, Eg, Ey, Pj, Pv, Py, Pf, Pg, Pw, Pr.
  repeat split; reflexivity.
Qed.

Lemma unloaded_run_flag (frames : list Platform.Frame) (w : World) :
  Forall Platform.unloaded frames ->
  isJumping w = true -> isJumping (Platform.run frames w) = true.
Proof.
  intros H. revert w. induction H as [|f frames U _ IH]; intros w J;
    [exact J|].
  cbn [Platform.run]. apply IH. unfold Platform.unloaded in U. rewrite U.
  destruct (unloaded_frame (Platform.keys f) (Platform.now f) w) as (Hj & _).
  cbv zeta in Hj. rewrite Hj, J. reflexivity.
Qed.

Lemma unloaded_run_groundLevel (frames : list Platform.Frame) (w : World) :
  Forall Platform.unloaded frames ->
  groundLevel (Platform.run frames w) = groundLevel w.
Proof.
  intros H. revert w. induction H as [|f frames U _ IH]; intros w;
    [reflexivity|].
  cbn [Platform.run]. rewrite IH. unfold Platform.unloaded in U. rewrite U.
  apply (unloaded_frame (Platform.keys f) (Platform.now f) w).
Qed.

(** Free fall: N frames with nothing held. *)
Lemma untouched_run (frames : list Platform.Frame) (w : World) :
  Forall Platform.untouched frames -> jumpForce w = 0 ->
  let n := INR (List.length frames) in
  let w' := Platform.run frames w in
  vy (velocity w') = vy (velocity w) + n * gravity /\
  vy (position w') =
    vy (position w) + n * vy (velocity w) + gravity * (n * (n + 1) / 2) /\
  jumpForce w' = 0 /\ isJumping w' = isJumping w.
Proof.
  intros H. revert w. induction H as [|f frames (U & I & Sp) _ IH];
    intros w F; cbv zeta.
  - cbn. repeat split; lra.
  - cbn [Platform.run]. rewrite U.
    destruct (unloaded_frame (Platform.keys f) (Platform.now f) w)
      as (Hj & Hv & Hf & _ & Hy).
    cbv zeta in Hj, Hv, Hy.
    rewrite (idle_walking _ I) in Hy. rewrite Sp in Hj, Hv, Hy.
    cbn [andb orb] in Hj, Hv, Hy. rewrite F in Hv, Hy.
    rewrite orb_false_r in Hj.
    destruct (IH _ Hf) as (Iv & Iy & If & Ij). cbv zeta in Iv, Iy.
    rewrite Iv, Iy, If, Ij, Hv, Hy, Hj.
    change (List.length (f :: frames)) with (S (List.length frames)).
    rewrite S_INR. repeat split; try reflexivity; lra.
Qed.

(** C5, as stated, fails: with the mesh never loaded and a forward key down
    the figure does not fall.  After three such frames its vertical velocity
    is three times the gravity, yet its height is not below the one it
    started from. *)
Lemma C5_walking_holds_the_figure_up :
  Forall Platform.unloaded Sample.noSurface /\
  vy (velocity (Platform.run Sample.noSurface initial)) = 3 * gravity /\
  vy (position initial)
    <= vy (position (Platform.run Sample.noSurface initial)).
Proof.
  split; [repeat constructor|].
  unfold Sample.noSurface. cbn [Platform.run Platform.platformMesh
    Platform.keys Platform.now].
  set (w1 := Platform.animate None Sample.forward 0 initial).
  set (w2 := Platform.animate None Sample.forward 16 w1).
  destruct (unloaded_frame Sample.forward 0 initial)
    as (_ & V1 & F1 & G1 & _).
  destruct (unloaded_frame Sample.forward 16 w1) as (J2 & V2 & F2 & G2 & _).
  destruct (unloaded_frame Sample.forward 33 w2) as (_ & V3 & _ & _ & Y3).
  cbv zeta in *. fold w1 in V1, F1, G1. fold w2 in V2, F2, G2, J2.
  change (spaceHeld Sample.forward) with false in *.
  change (forwardHeld Sample.forward || backwardHeld Sample.forward)%bool
    with true in *.
  cbn [andb] in *.
  rewrite V3, Y3, V2, F2, V1, G2, G1, F1.
  pose proof (bodyBob_bounds (seconds 33) (shiftHeld Sample.forward)).
  unfold initial. cbn [velocity jumpForce groundLevel position vy].
  split; lra.
Qed.

(** C5, amended.  In part_000, while [platformMesh] is null, the contact test
    is skipped in every frame: every frame adds the gravity (and a started
    jump's impulse) to the vertical velocity, which is never zeroed, the
    ground level stays, and a set jump flag stays set.  With no forward,
    backward or jump key down the height changes by the new velocity in
    every frame, so N such frames from vertical velocity v take the height
    from y to y + N * v + gravity * N * (N + 1) / 2, strictly below y when
    N >= 1 and v <= 0. *)
Theorem C5_free_fall :
  (forall w : World, Platform.contact None w = w) /\
  (forall (keys : Keys) (now : Z) (w : World),
     let impulse :=
       if (spaceHeld keys && negb (isJumping w))%bool
       then jumpImpulse else jumpForce w in
     let w' := Platform.animate None keys now w in
     vy (velocity w') = vy (velocity w) + gravity + impulse /\
     isJumping w' = (isJumping w || spaceHeld keys)%bool /\
     groundLevel w' = groundLevel w) /\
  (forall (frames : list Platform.Frame) (w : World),
     Forall Platform.unloaded frames ->
     groundLevel (Platform.run frames w) = groundLevel w /\
     (isJumping w = true -> isJumping (Platform.run frames w) = true)) /\
  (forall (frames : list Platform.Frame) (w : World),
     Forall Platform.untouched frames -> jumpForce w = 0 ->
     let n := INR (List.length frames) in
     let w' := Platform.run frames w in
     vy (velocity w') = vy (velocity w) + n * gravity /\
     vy (position w') =
       vy (position w) + n * vy (velocity w) + gravity * (n * (n + 1) / 2) /\
     isJumping w' = isJumping w /\
     (frames <> [] -> vy (velocity w) <= 0 ->
      vy (position w') < vy (position w))).
Proof.
  split; [|split; [|split]].
  - exact contact_unloaded.
  - intros keys now w. cbv zeta.
    destruct (unloaded_frame keys now w) as (Hj & Hv & _ & Hg & _). auto.
  - intros frames w U. split.
    + apply unloaded_run_groundLevel, U.
    + apply unloaded_run_flag, U.
  - intros frames w U F. cbv zeta.
    destruct (untouched_run frames w U F) as (Hv & Hy & _ & Hj).
    cbv zeta in Hv, Hy. repeat split; auto.
    intros Hne Hneg. rewrite Hy.
    assert (Hn : 1 <= INR (List.length frames)).
    { destruct frames as [|f frames]; [congruence|].
      change (List.length (f :: frames)) with (S (List.length frames)).
      rewrite S_INR. pose proof (pos_INR (List.length frames)). lra. }
    unfold gravity. nra.
Qed.

(** C5, amended, on three frames with nothing held and no mesh. *)
Lemma C5_free_fall_witness :
  vy (velocity (Platform.run Sample.freeFall initial)) = 3 * gravity /\
  vy (position (Platform.run Sample.freeFall initial))
    = legLength + gravity * 6 /\
  vy (position (Platform.run Sample.freeFall initial))
    < vy (position initial) /\
  groundLevel (Platform.run Sample.freeFall initial) = legLength.
Proof.
  destruct C5_free_fall as (_ & _ & T3 & T4).
  assert (U : Forall Platform.untouched Sample.freeFall)
    by (repeat constructor).
  assert (U' : Forall Platform.unloaded Sample.freeFall)
    by (repeat constructor).
  destruct (T4 Sample.freeFall initial U eq_refl) as (Hv & Hy & _ & Hlt).
  cbv zeta in Hv, Hy.
  split; [|split; [|split]].
  - rewrite Hv. unfold initial.
    cbn [Sample.freeFall List.length INR velocity vy]. lra.
  - rewrite Hy. unfold initial.
    cbn [Sample.freeFall List.length INR velocity position vy]. lra.
  - apply Hlt; [discriminate|]. unfold initial. cbn [velocity vy]. lra.
  - exact (proj1 (T3 Sample.freeFall initial U')).
Defined.

(** ** The snap to the mesh *)

(** What the first entry of the ray's answer is: a point of the mesh in the
    column of the figure, at most 1 above the figure, and no other entry is
    higher. *)
Lemma first_hit (mesh : Platform.Mesh) (w : World)
  (hit : Platform.Intersection) (rest : list Platform.Intersection) :
  Platform.intersectObject (add (position w) (Vec3 0 1 0)) mesh
    = hit :: rest ->
  vy (Platform.point hit) <= vy (position w) + 1 /\
  In (vy (Platform.point hit)) (mesh (vx (position w)) (vz (position w))) /\
  (forall other, In other rest ->
     vy (Platform.point other) <= vy (Platform.point hit)).
Proof.
  intros E.
  assert (Hall : forall i,
            In i (hit :: rest) ->
            vy (Platform.point i) <= vy (position w) + 1 /\
            In (vy (Platform.point i))
               (mesh (vx (position w)) (vz (position w))) /\
            Platform.distance i
              = vy (position w) + 1 - vy (Platform.point i)).
  { intros i Hi. rewrite <- E in Hi. apply intersectObject_hit in Hi.
    destruct Hi as (h & Hin & Hle & ->).
    cbn [add vx vy vz Platform.point Platform.distance] in *.
    rewrite !Rplus_0_r in Hin. auto. }
  destruct (Hall hit (or_introl eq_refl)) as (H1 & H2 & H3).
  split; [exact H1|split; [exact H2|]].
  intros other Ho.
  destruct (Hall other (or_intror Ho)) as (_ & _ & H3').
  pose proof (sortByDistance_head _ hit rest E other Ho) as Hd.
  lra.
Qed.

(** C10. The snap-up window of part_000.  The ray starts exactly 1 above the
    figure and goes down: what it reports first is a point of the mesh at
    most 1 above the figure, the highest such, and where the whole mesh is
    more than 1 above the figure it reports nothing and the contact test
    changes nothing.  When it reports a contact and the figure is not more
    than 0.01 above it, the same frame puts the figure on the contact, with
    zero vertical velocity and the jump flag clear, also when the contact is
    above the figure: a lift by any amount up to 1 in one frame. *)
Theorem C10_snap_up_window :
  (forall (mesh : Platform.Mesh) (w : World) (hit : Platform.Intersection)
          (rest : list Platform.Intersection),
     Platform.intersectObject (add (position w) (Vec3 0 1 0)) mesh
       = hit :: rest ->
     vy (Platform.point hit) <= vy (position w) + 1 /\
     In (vy (Platform.point hit))
        (mesh (vx (position w)) (vz (position w))) /\
     (forall other, In other rest ->
        vy (Platform.point other) <= vy (Platform.point hit))) /\
  (forall (mesh : Platform.Mesh) (w : World),
     (forall h, In h (mesh (vx (position w)) (vz (position w))) ->
                vy (position w) + 1 < h) ->
     Platform.intersectObject (add (position w) (Vec3 0 1 0)) mesh = [] /\
     Platform.contact (Some mesh) w = w) /\
  (forall (mesh : Platform.Mesh) (w : World) (hit : Platform.Intersection)
          (rest : list Platform.Intersection),
     Platform.intersectObject (add (position w) (Vec3 0 1 0)) mesh
       = hit :: rest ->
     vy (position w) <= vy (Platform.point hit) + 0.01 ->
     let w' := Platform.contact (Some mesh) w in
     vy (position w') = vy (Platform.point hit) /\
     vy (velocity w') = 0 /\ isJumping w' = false /\
     groundLevel w' = vy (Platform.point hit) /\
     vy (position w') - vy (position w) <= 1) /\
  (forall (w : World) (lift : R),
     0 <= lift <= 1 ->
     let w' :=
       Platform.contact (Some (Platform.sheet (vy (position w) + lift))) w in
     vy (position w') = vy (position w) + lift /\
     vy (velocity w') = 0 /\ isJumping w' = false) /\
  (forall (mesh : Platform.Mesh) (keys : Keys) (now : Z) (w : World)
          (hit : Platform.Intersection) (rest : list Platform.Intersection),
     Platform.intersectObject
       (add (position (integrated keys w)) (Vec3 0 1 0)) mesh = hit :: rest ->
     vy (position (integrated keys w)) <= vy (Platform.point hit) + 0.01 ->
     let w' := Platform.animate (Some mesh) keys now w in
     vy (velocity w') = 0 /\ isJumping w' = false /\
     vy (Platform.point hit) <= vy (position w')
       <= vy (Platform.point hit) + 0.05 /\
     (idle keys -> vy (position w') = vy (Platform.point hit))).
Proof.
  split; [|split; [|split; [|split]]].
  - exact first_hit.
  - intros mesh w Hhigh.
    assert (E : Platform.intersectObject (add (position w) (Vec3 0 1 0)) mesh
                = []).
    { destruct (Platform.intersectObject _ mesh) as [|hit rest] eqn:E;
        [reflexivity|].
      destruct (first_hit mesh w hit rest E) as (Hle & Hin & _).
      specialize (Hhigh _ Hin). lra. }
    split; [exact E|apply contact_miss, E].
  - intros mesh w hit rest E Hle. cbv zeta.
    destruct (contact_fields mesh w hit rest E) as (Hg & _ & _ & _ & Hc & _).
    cbv zeta in Hg, Hc. destruct (Hc Hle) as (Hy & Hv & Hj).
    destruct (first_hit mesh w hit rest E) as (Hup & _).
    repeat split; auto. rewrite Hy. lra.
  - intros w lift Hl. cbv zeta.
    pose proof (sheet_hit (add (position w) (Vec3 0 1 0))
                  (vy (position w) + lift)) as E.
    cbn [add vx vy vz] in E. specialize (E ltac:(lra)).
    destruct (contact_fields _ w _ _ E) as (_ & _ & _ & _ & Hc & _).
    cbv zeta in Hc. cbn [Platform.point vy] in Hc.
    destruct Hc as (Hy & Hv & Hj); [lra|]. auto.
  - intros mesh keys now w hit rest E Hle. cbv zeta.
    destruct (platform_frame_clamped mesh keys now w hit rest E Hle)
      as (Hv & Hj & _ & Hb & Hw).
    cbv zeta in *. repeat split; auto; try lra.
    intros I. apply Hw.
    destruct (platform_frame_flags (Some mesh) keys now w) as (Fw & _).
    cbv zeta in Fw. rewrite Fw. apply idle_walking, I.
Qed.

(** C10 on a sheet within reach and on one out of reach. *)
Lemma C10_snap_up_window_witness :
  vy (position (Platform.contact
                  (Some (Platform.sheet (vy (position initial) + 0.5)))
                  initial))
    = vy (position initial) + 0.5 /\
  Platform.contact (Some Sample.ceiling) initial = initial /\
  vy (position (Platform.contact (Some Sample.ledge)
                  (integrated noKeys initial))) = 3 /\
  vy (position (Platform.animate (Some Sample.ledge) noKeys 0 initial)) = 3.
Proof.
  destruct C10_snap_up_window as (_ & T2 & T3 & T4 & T5).
  assert (Hy : vy (position (integrated noKeys initial)) = legLength + gravity)
    by (eval_world; lra).
  assert (Hhit : Platform.intersectObject
            (add (position (integrated noKeys initial)) (Vec3 0 1 0))
            Sample.ledge
          = [Platform.mkIntersection
               (vy (add (position (integrated noKeys initial)) (Vec3 0 1 0))
                - 3)
               (Vec3 (vx (add (position (integrated noKeys initial))
                               (Vec3 0 1 0)))
                     3
                     (vz (add (position (integrated noKeys initial))
                               (Vec3 0 1 0))))]).
  { apply sheet_hit. cbn [add vy]. rewrite Hy. constants. lra. }
  assert (Hle : vy (position (integrated noKeys initial)) <= 3 + 0.01)
    by (rewrite Hy; constants; lra).
  split; [|split; [|split]].
  - apply (T4 initial 0.5). lra.
  - apply (T2 Sample.ceiling initial).
    intros h [<-|[]]. unfold initial. cbn [position vy]. constants. lra.
  - exact (proj1 (T3 Sample.ledge _ _ _ Hhit Hle)).
  - destruct (T5 Sample.ledge noKeys 0%Z initial _ _ Hhit Hle)
      as (_ & _ & _ & Hidle).
    apply Hidle. split; reflexivity.
Defined.

(** * Further properties *)

(** ** The listeners *)

Lemma setKey_same (c : string) (v : bool) (keys : Keys) :
  setKey c v keys c = v.
Proof. unfold setKey. rewrite String.eqb_refl. reflexivity. Qed.

Lemma setKey_other (c d : string) (v : bool) (keys : Keys) :
  String.eqb d c = false -> setKey c v keys d = keys d.
Proof. unfold setKey. intros ->. reflexivity. Qed.

Lemma listenAll_app (front back : list Listeners.KeyEvent) (keys : Keys) :
  Listeners.listenAll (front ++ back) keys =
  Listeners.listenAll back (Listeners.listenAll front keys).
Proof. unfold Listeners.listenAll. apply fold_left_app. Qed.

(** The listeners leave [keys["__proto__"]] alone. *)
Lemma listen_proto (e : Listeners.KeyEvent) (keys : Keys) :
  Listeners.listen e keys "__proto__"%string = keys "__proto__"%string.
Proof.
  unfold Listeners.listen, setKey.
  destruct (String.eqb_spec (Listeners.code e) "__proto__") as [E|E];
    [reflexivity|].
  destruct (String.eqb_spec "__proto__" (Listeners.code e)) as [E'|E'];
    [|reflexivity].
  exfalso. apply E. symmetry. exact E'.
Qed.

(** An event leaves the names it does not carry as they are. *)
Lemma listen_other (e : Listeners.KeyEvent) (keys : Keys) (c : string) :
  c <> Listeners.code e -> Listeners.listen e keys c = keys c.
Proof.
  intros Hc. unfold Listeners.listen.
  destruct (String.eqb (Listeners.code e) "__proto__"); [reflexivity|].
  apply setKey_other, String.eqb_neq, Hc.
Qed.

(** On any other name the listeners write what the event says. *)
Lemma listen_own (e : Listeners.KeyEvent) (keys : Keys) (c : string) :
  c <> "__proto__"%string ->
  Listeners.listen e keys c =
  if String.eqb c (Listeners.code e) then Listeners.pressed e else keys c.
Proof.
  intros Hc. unfold Listeners.listen, setKey.
  destruct (String.eqb_spec (Listeners.code e) "__proto__") as [E|E];
    [|reflexivity].
  destruct (String.eqb_spec c (Listeners.code e)) as [E'|E']; [|reflexivity].
  exfalso. apply Hc. rewrite E'. exact E.
Qed.

(** X1. Listeners of part_000 and part_001.  After any sequence of key
    events, [keys[c]] holds what the last event with code [c] wrote ([true]
    for a keydown, [false] for a keyup), and what it held before if no event
    carried [c]: events with other codes never disturb it.  This is so for
    every name [c] but [__proto__], which no event changes: [keys] being a
    plain object, [keys["__proto__"]] reads after the events as it did
    before them. *)
Theorem X1_keys_hold_last_event :
  (forall (events : list Listeners.KeyEvent) (keys : Keys) (c : string),
     c <> "__proto__"%string ->
     Listeners.listenAll events keys c =
     match Listeners.lastEvent c events with
     | Some v => v
     | None => keys c
     end) /\
  (forall (events : list Listeners.KeyEvent) (keys : Keys),
     Listeners.listenAll events keys "__proto__"%string
       = keys "__proto__"%string).
Proof.
  split.
  - intros events keys c Hc. revert keys.
    induction events as [|e events IH]; intros keys; [reflexivity|].
    cbn [Listeners.listenAll fold_left Listeners.lastEvent].
    change (fold_left (fun k e0 => Listeners.listen e0 k) events
              (Listeners.listen e keys))
      with (Listeners.listenAll events (Listeners.listen e keys)).
    rewrite IH. destruct (Listeners.lastEvent c events); [reflexivity|].
    rewrite (listen_own e keys c Hc).
    destruct (String.eqb c (Listeners.code e)); reflexivity.
  - intros events. induction events as [|e events IH]; intros keys;
      [reflexivity|].
    cbn [Listeners.listenAll fold_left].
    change (fold_left (fun k e0 => Listeners.listen e0 k) events
              (Listeners.listen e keys))
      with (Listeners.listenAll events (Listeners.listen e keys)).
    rewrite IH. apply listen_proto.
Qed.

(** X1 on four events: W and the space bar go down, W comes up, and a
    keyup with the code [__proto__] arrives. *)
Lemma X1_keys_hold_last_event_witness :
  Listeners.listenAll More.typing noKeys "KeyW"%string = false /\
  Listeners.listenAll More.typing noKeys "Space"%string = true /\
  Listeners.listenAll More.typing (holding ["KeyA"%string]) "KeyA"%string
    = true /\
  Listeners.listenAll More.tampering (holding ["__proto__"%string])
    "__proto__"%string = true.
Proof.
  destruct X1_keys_hold_last_event as [T1 T2].
  split; [|split; [|split]].
  - rewrite (T1 More.typing noKeys "KeyW"%string); [reflexivity|discriminate].
  - rewrite (T1 More.typing noKeys "Space"%string); [reflexivity|discriminate].
  - rewrite (T1 More.typing (holding ["KeyA"%string]) "KeyA"%string);
      [reflexivity|discriminate].
  - rewrite (T2 More.tampering (holding ["__proto__"%string])). reflexivity.
Defined.

(** ** The shift key of main.js *)





(** ** Which keys a frame reads *)

Lemma tests_agree (keys keys' : Keys) :
  Forall (fun c => keys c = keys' c) Listeners.tested ->
  shiftHeld keys = shiftHeld keys' /\ forwardHeld keys = forwardHeld keys' /\
  backwardHeld keys = backwardHeld keys' /\ leftHeld keys = leftHeld keys' /\
  rightHeld keys = rightHeld keys' /\ spaceHeld keys = spaceHeld keys'.
Proof.
  unfold Listeners.tested. intros H.
  repeat match goal with
  | H : Forall _ (_ :: _) |- _ =>
      let E := fresh "E" in
      apply Forall_cons_iff in H; destruct H as [E H]
  end.
  unfold shiftHeld, forwardHeld, backwardHeld, leftHeld, rightHeld, spaceHeld.
  repeat split; congruence.
Qed.

Lemma integrated_agree (keys keys' : Keys) (w : World) :
  Forall (fun c => keys c = keys' c) Listeners.tested ->
  integrated keys w = integrated keys' w.
Proof.
  intros H. destruct (tests_agree keys keys' H) as (Es & Ef & Eb & El & Er & Ej).
  unfold integrated, jumping. cbv beta delta [handleInput].
  rewrite Es, Ef, Eb, El, Er, Ej. reflexivity.
Qed.

(** X3. What a frame of part_000 and part_001 reads of [keys].  Two [keys]
    objects that agree on the eleven codes [animate] tests give the same
    frame; so a key event with any other code changes no frame. *)
Theorem X3_only_tested_codes_matter :
  (forall (pm : option Platform.Mesh) (keys keys' : Keys) (now : Z)
          (w : World),
     Forall (fun c => keys c = keys' c) Listeners.tested ->
     Ground.animate keys now w = Ground.animate keys' now w /\
     Platform.animate pm keys now w = Platform.animate pm keys' now w) /\
  (forall (pm : option Platform.Mesh) (e : Listeners.KeyEvent) (keys : Keys)
          (now : Z) (w : World),
     ~ In (Listeners.code e) Listeners.tested ->
     Ground.animate (Listeners.listen e keys) now w
       = Ground.animate keys now w /\
     Platform.animate pm (Listeners.listen e keys) now w
       = Platform.animate pm keys now w).
Proof.
  assert (A : forall pm keys keys' now w,
             Forall (fun c => keys c = keys' c) Listeners.tested ->
             Ground.animate keys now w = Ground.animate keys' now w /\
             Platform.animate pm keys now w = Platform.animate pm keys' now w).
  { intros pm keys keys' now w H.
    rewrite !ground_frame, !platform_frame, (integrated_agree keys keys' w H).
    split; reflexivity. }
  split; [exact A|].
  intros pm e keys now w Hn. apply A.
  apply Forall_forall. intros c Hc.
  apply listen_other. intros ->. contradiction.
Qed.

(** X3 on two objects that differ in the code "KeyQ". *)
Lemma X3_only_tested_codes_matter_witness :
  Ground.animate (Listeners.listen (Listeners.keydown "KeyQ") Sample.forward)
                 500 initial
    = Ground.animate Sample.forward 500 initial.
Proof.
  destruct X3_only_tested_codes_matter as [_ T2].
  apply (T2 None (Listeners.keydown "KeyQ") Sample.forward 500%Z initial).
  cbn. intros H.
  repeat (destruct H as [H|H]; [discriminate|]). exact H.
Defined.

(** ** The load callback *)

(** X4. The load callback of part_000.  Starting from null, [platformMesh]
    becomes the first node of the scene, in the order [traverse] visits
    them, that is a mesh, and stays null if there is none; once it is set, a
    later node or a later load never replaces it. *)
Theorem X4_first_mesh_only :
  (forall scene : list Platform.Node,
     Platform.onLoad scene None =
     option_map Platform.geometry (find Platform.isMesh scene)) /\
  (forall (scene : list Platform.Node) (mesh : Platform.Mesh),
     Platform.onLoad scene (Some mesh) = Some mesh) /\
  (forall (front back : list Platform.Node) (child : Platform.Node),
     Platform.isMesh child = true ->
     Forall (fun n => Platform.isMesh n = false) front ->
     Platform.onLoad (front ++ child :: back) None
       = Some (Platform.geometry child)).
Proof.
  assert (once : forall scene mesh,
             Platform.onLoad scene (Some mesh) = Some mesh).
  { intros scene mesh. unfold Platform.onLoad.
    induction scene as [|child scene IH]; cbn; [reflexivity|].
    rewrite andb_false_r. exact IH. }
  assert (first : forall scene,
             Platform.onLoad scene None =
             option_map Platform.geometry (find Platform.isMesh scene)).
  { induction scene as [|child scene IH]; [reflexivity|].
    unfold Platform.onLoad in *. cbn [fold_left find Platform.isNull].
    destruct (Platform.isMesh child); cbn [andb option_map].
    - apply once.
    - exact IH. }
  split; [exact first|split; [exact once|]].
  intros front back child Hm Hf. rewrite first.
  induction Hf as [|n front Hn _ IH]; cbn [app find].
  - rewrite Hm. reflexivity.
  - rewrite Hn. exact IH.
Qed.

(** X4 on a scene of a group, a mesh and a second mesh. *)
Lemma X4_first_mesh_only_witness :
  Platform.onLoad
    ([Platform.mkNode false (Platform.sheet 7)]
     ++ Platform.mkNode true Sample.ledge
        :: [Platform.mkNode true Sample.ceiling]) None
  = Some Sample.ledge.
Proof.
  destruct X4_first_mesh_only as (_ & _ & T3).
  apply (T3 [Platform.mkNode false (Platform.sheet 7)]
            [Platform.mkNode true Sample.ceiling]
            (Platform.mkNode true Sample.ledge) eq_refl).
  repeat constructor.
Defined.

(** ** Turning, in general *)

Lemma turn_step (l r : bool) (yaw t : R) :
  yaw + (if l then t else 0) - (if r then t else 0) = yaw + netTurn l r * t.
Proof. unfold netTurn. destruct l, r; lra. Qed.

(** X5. Heading, in all three scripts.  After any session the heading is
    the heading it started from plus [turnSpeed] times the number of frames
    with a left-turn key down minus the number of frames with a right-turn
    key down: a frame with both down, or neither, leaves it as it is, and
    nothing else (walking, jumping, the ground, the mesh, the clock) enters
    into it. *)
Theorem X5_heading_counts_turn_frames :
  (forall (frames : list Ground.Frame) (w : World),
     rotation_y (Ground.run frames w)
       = rotation_y w + netTurnsGround frames * turnSpeed) /\
  (forall (frames : list Platform.Frame) (w : World),
     rotation_y (Platform.run frames w)
       = rotation_y w + netTurnsPlatform frames * turnSpeed) /\
  (forall (frames : list Basic.Frame) (w : Basic.World),
     Basic.rotation_y (Basic.run frames w)
       = Basic.rotation_y w + netTurnsBasic frames * Basic.turnSpeed).
Proof.
  split; [|split].
  - induction frames as [|f frames IH]; intros w; cbn [Ground.run
      netTurnsGround]; [lra|].
    rewrite IH.
    destruct (ground_frame_horizontal (Ground.keys f) (Ground.now f) w)
      as (Hr & _).
    cbv zeta in Hr. rewrite Hr, handleInput_rotation, turn_step. lra.
  - induction frames as [|f frames IH]; intros w; cbn [Platform.run
      netTurnsPlatform]; [lra|].
    rewrite IH.
    destruct (platform_frame_horizontal (Platform.platformMesh f)
                (Platform.keys f) (Platform.now f) w) as (Hr & _).
    cbv zeta in Hr. rewrite Hr, handleInput_rotation, turn_step. lra.
  - induction frames as [|f frames IH]; intros w; cbn [Basic.run
      netTurnsBasic]; [lra|].
    rewrite IH.
    destruct (basic_frame_horizontal (Basic.keys f) (Basic.now f) w)
      as (Hr & _).
    cbv zeta in Hr. rewrite Hr, turn_step. lra.
Qed.

(** ** The length of a step *)

Lemma unit_heading (yaw s : R) :
  (s * sin yaw) * (s * sin yaw) + (s * cos yaw) * (s * cos yaw) = s * s.
Proof.
  pose proof (sin2_cos2 yaw) as H. unfold Rsqr in H.
  replace (s * sin yaw * (s * sin yaw) + s * cos yaw * (s * cos yaw))
    with (s * s * (sin yaw * sin yaw + cos yaw * cos yaw)) by ring.
  rewrite H. ring.
Qed.

Lemma handleInput_stride (keys : Keys) (w : World) :
  vx (position (handleInput keys w))
    = vx (position w) + stride keys * sin (rotation_y w) /\
  vy (position (handleInput keys w)) = vy (position w) /\
  vz (position (handleInput keys w))
    = vz (position w) + stride keys * cos (rotation_y w).
Proof.
  pose proof (handleInput_position keys w) as P. cbv zeta in P.
  rewrite P. clear P. unfold stride.
  destruct (forwardHeld keys), (backwardHeld keys), (shiftHeld keys);
    cbn [add multiplyScalar vx vy vz]; repeat split; lra.
Qed.

(** X6. Step length.  In part_000 and part_001 a frame moves the figure
    horizontally along its heading by the signed stride of its keys
    (moveSpeed forward, 0.6 * moveSpeed backward, their difference with both
    down): the squared length of the horizontal move is the squared stride
    whatever the heading.  In main.js it is the squared moveSpeed if an up or
    down arrow is down and 0 otherwise. *)
Theorem X6_step_length_is_heading_free :
  (forall (pm : option Platform.Mesh) (keys : Keys) (now : Z) (w : World),
     forall w', w' = Ground.animate keys now w \/
                w' = Platform.animate pm keys now w ->
     let dx := vx (position w') - vx (position w) in
     let dz := vz (position w') - vz (position w) in
     dx = stride keys * sin (rotation_y w) /\
     dz = stride keys * cos (rotation_y w) /\
     dx * dx + dz * dz = stride keys * stride keys) /\
  (forall (keys : Basic.Keys) (now : Z) (w : Basic.World),
     let w' := Basic.animate keys now w in
     let dx := vx (Basic.position w') - vx (Basic.position w) in
     let dz := vz (Basic.position w') - vz (Basic.position w) in
     let moveSpeed :=
       if Basic.Shift keys then Basic.runSpeed else Basic.speed in
     dx * dx + dz * dz =
       if (Basic.ArrowUp keys || Basic.ArrowDown keys)%bool
       then moveSpeed * moveSpeed else 0).
Proof.
  split.
  - intros pm keys now w w' Hw' dx dz.
    destruct (handleInput_stride keys w) as (Hx & _ & Hz).
    assert (E : vx (position w') = vx (position (handleInput keys w)) /\
                vz (position w') = vz (position (handleInput keys w))).
    { destruct Hw' as [->| ->].
      - destruct (ground_frame_horizontal keys now w) as (_ & Gx & Gz). auto.
      - destruct (platform_frame_horizontal pm keys now w) as (_ & Px & Pz).
        auto. }
    destruct E as [Ex Ez].
    assert (Dx : dx = stride keys * sin (rotation_y w))
      by (unfold dx; rewrite Ex, Hx; ring).
    assert (Dz : dz = stride keys * cos (rotation_y w))
      by (unfold dz; rewrite Ez, Hz; ring).
    split; [exact Dx|split; [exact Dz|]].
    rewrite Dx, Dz. apply unit_heading.
  - intros keys now w w' dx dz moveSpeed.
    destruct (basic_frame_horizontal keys now w) as (_ & Hx & Hz).
    cbv zeta in Hx, Hz. fold w' in Hx, Hz.
    set (yaw := Basic.rotation_y w') in *.
    assert (Dx : dx = (if Basic.ArrowDown keys then 1
                       else if Basic.ArrowUp keys then -1 else 0)
                      * moveSpeed * sin yaw)
      by (unfold dx, moveSpeed; rewrite Hx; ring).
    assert (Dz : dz = (if Basic.ArrowDown keys then 1
                       else if Basic.ArrowUp keys then -1 else 0)
                      * moveSpeed * cos yaw)
      by (unfold dz, moveSpeed; rewrite Hz; ring).
    rewrite Dx, Dz, unit_heading.
    destruct (Basic.ArrowUp keys), (Basic.ArrowDown keys); cbn [orb]; ring.
Qed.

(** X6 on a frame of part_001 after a left turn. *)
Lemma X6_step_length_is_heading_free_witness :
  (vx (position (Ground.animate Sample.forward 16
                   (Ground.animate Sample.leftJump 0 initial)))
   - vx (position (Ground.animate Sample.leftJump 0 initial)))
  * (vx (position (Ground.animate Sample.forward 16
                     (Ground.animate Sample.leftJump 0 initial)))
     - vx (position (Ground.animate Sample.leftJump 0 initial)))
  + (vz (position (Ground.animate Sample.forward 16
                     (Ground.animate Sample.leftJump 0 initial)))
     - vz (position (Ground.animate Sample.leftJump 0 initial)))
    * (vz (position (Ground.animate Sample.forward 16
                       (Ground.animate Sample.leftJump 0 initial)))
       - vz (position (Ground.animate Sample.leftJump 0 initial)))
  = walkSpeed * walkSpeed.
Proof.
  destruct X6_step_length_is_heading_free as [T1 _].
  destruct (T1 None Sample.forward 16%Z
              (Ground.animate Sample.leftJump 0 initial)
              _ (or_introl eq_refl)) as (_ & _ & E).
  rewrite E. change (stride Sample.forward) with (walkSpeed - 0). ring.
Defined.

(** ** Steering in the air *)

Lemma frame_horizontal (pm : option Platform.Mesh) (keys : Keys) (now : Z)
  (w : World) :
  let after :=
    (vx (position w) + stride keys * sin (rotation_y w),
     vz (position w) + stride keys * cos (rotation_y w),
     rotation_y w + netTurn (leftHeld keys) (rightHeld keys) * turnSpeed) in
  horizontal (Ground.animate keys now w) = after /\
  horizontal (Platform.animate pm keys now w) = after.
Proof.
  cbv zeta. unfold horizontal.
  destruct (handleInput_stride keys w) as (Hx & _ & Hz).
  pose proof (handleInput_rotation keys w) as Hr. rewrite turn_step in Hr.
  destruct (ground_frame_horizontal keys now w) as (Gr & Gx & Gz).
  destruct (platform_frame_horizontal pm keys now w) as (Pr & Px & Pz).
  cbv zeta in *.
  rewrite Gr, Gx, Gz, Pr, Px, Pz, Hr, Hx, Hz. split; reflexivity.
Qed.

Lemma basic_horizontal (keys : Basic.Keys) (now : Z) (w : Basic.World) :
  let yaw := Basic.rotation_y w
             + netTurn (Basic.ArrowLeft keys) (Basic.ArrowRight keys)
               * Basic.turnSpeed in
  let moveSpeed :=
    if Basic.Shift keys then Basic.runSpeed else Basic.speed in
  let dz := if Basic.ArrowDown keys then 1
            else if Basic.ArrowUp keys then -1 else 0 in
  horizontalBasic (Basic.animate keys now w) =
  (vx (Basic.position w) + dz * sin yaw * moveSpeed,
   vz (Basic.position w) + dz * cos yaw * moveSpeed, yaw).
Proof.
  cbv zeta. unfold horizontalBasic.
  destruct (basic_frame_horizontal keys now w) as (Hr & Hx & Hz).
  cbv zeta in *. rewrite turn_step in Hr. rewrite Hx, Hz, Hr. reflexivity.
Qed.

(** X7. Steering does not look at the vertical state.  In all three
    scripts the heading and the horizontal position a session leads to
    depend only on the heading and horizontal position it starts from and on
    its keys: two figures that start with the same heading and horizontal
    position, one standing and one in the air at any height and speed, stay
    side by side. *)
Theorem X7_steering_ignores_height :
  (forall (frames : list Ground.Frame) (w1 w2 : World),
     horizontal w1 = horizontal w2 ->
     horizontal (Ground.run frames w1) = horizontal (Ground.run frames w2)) /\
  (forall (frames : list Platform.Frame) (w1 w2 : World),
     horizontal w1 = horizontal w2 ->
     horizontal (Platform.run frames w1)
       = horizontal (Platform.run frames w2)) /\
  (forall (frames : list Basic.Frame) (w1 w2 : Basic.World),
     horizontalBasic w1 = horizontalBasic w2 ->
     horizontalBasic (Basic.run frames w1)
       = horizontalBasic (Basic.run frames w2)).
Proof.
  split; [|split].
  - induction frames as [|f frames IH]; intros w1 w2 H; [exact H|].
    cbn [Ground.run]. apply IH.
    destruct (frame_horizontal None (Ground.keys f) (Ground.now f) w1)
      as [E1 _].
    destruct (frame_horizontal None (Ground.keys f) (Ground.now f) w2)
      as [E2 _].
    cbv zeta in E1, E2. rewrite E1, E2. unfold horizontal in H.
    injection H as -> -> ->. reflexivity.
  - induction frames as [|f frames IH]; intros w1 w2 H; [exact H|].
    cbn [Platform.run]. apply IH.
    destruct (frame_horizontal (Platform.platformMesh f) (Platform.keys f)
                (Platform.now f) w1) as [_ E1].
    destruct (frame_horizontal (Platform.platformMesh f) (Platform.keys f)
                (Platform.now f) w2) as [_ E2].
    cbv zeta in E1, E2. rewrite E1, E2. unfold horizontal in H.
    injection H as -> -> ->. reflexivity.
  - induction frames as [|f frames IH]; intros w1 w2 H; [exact H|].
    cbn [Basic.run]. apply IH.
    pose proof (basic_horizontal (Basic.keys f) (Basic.now f) w1) as E1.
    pose proof (basic_horizontal (Basic.keys f) (Basic.now f) w2) as E2.
    cbv zeta in E1, E2. rewrite E1, E2. unfold horizontalBasic in H.
    injection H as -> -> ->. reflexivity.
Qed.

(** X7 on a standing figure and one in the air above it. *)
Lemma X7_steering_ignores_height_witness :
  horizontal (Ground.run More.zigzag initial)
    = horizontal (Ground.run More.zigzag More.airborne).
Proof.
  destruct X7_steering_ignores_height as (T1 & _).
  apply (T1 More.zigzag initial More.airborne). reflexivity.
Defined.

(** ** The ground of main.js *)

Lemma settledBasic_frame (keys : Basic.Keys) (now : Z) (w : Basic.World) :
  settledBasic w -> settledBasic (Basic.animate keys now w).
Proof.
  unfold settledBasic. intros (Hf & Hy & Hg).
  destruct (basic_frame_cases keys now w) as (Ef & C). cbv zeta in C.
  split; [exact Ef|].
  destruct C as [(_ & Hv' & Hj' & Hy')|(Hlt & Hv' & Hj' & Hy')].
  - rewrite Hy', Hv'. split; [lra|auto].
  - rewrite Hy', Hv', Hj'. split; [lra|].
    intros J. apply orb_false_elim in J. destruct J as [J Sp].
    rewrite J, Sp, Hf in *. cbn [andb negb] in *.
    destruct (Hg eq_refl) as [Y V]. rewrite Y, V in Hlt.
    unfold Basic.gravity in Hlt. lra.
Qed.

(** X8. The ground of main.js.  From rest, and from any state of the same
    kind, every frame of every session ends with no impulse pending and the
    figure not below height 0; and whenever the jump flag is clear the
    figure is exactly at height 0 with zero vertical velocity. *)
Theorem X8_main_js_grounded_invariant :
  settledBasic Basic.rest /\
  (forall (frames : list Basic.Frame) (w : Basic.World),
     settledBasic w ->
     let w' := Basic.run frames w in
     Basic.jumpForce w' = 0 /\ 0 <= vy (Basic.position w') /\
     (Basic.isJumping w' = false ->
      vy (Basic.position w') = 0 /\ vy (Basic.velocity w') = 0)).
Proof.
  split.
  - unfold settledBasic, Basic.rest. cbn. repeat split; lra.
  - induction frames as [|f frames IH]; intros w H; [exact H|].
    cbn [Basic.run]. apply IH, settledBasic_frame, H.
Qed.

(** X8 on three frames with the space bar down. *)
Lemma X8_main_js_grounded_invariant_witness :
  0 <= vy (Basic.position (Basic.run Sample.jumpSession' Basic.rest)).
Proof.
  destruct X8_main_js_grounded_invariant as [T1 T2].
  apply (T2 Sample.jumpSession' Basic.rest T1).
Defined.

(** ** The flight of a jump *)

Lemma INR_bound (j k : nat) : (j <= k)%nat -> INR j <= IZR (Z.of_nat k).
Proof. intros H. apply le_INR in H. rewrite (INR_IZR_INZ k) in H. exact H. Qed.

(** A frame of part_001 without a forward or backward key that finds the
    figure above the ground keeps what the physics computed. *)
Lemma ground_idle_frame_above (keys : Keys) (now : Z) (w : World) :
  idle keys ->
  groundLevel w < vy (position (integrated keys w)) ->
  let w' := Ground.animate keys now w in
  vy (velocity w') = vy (velocity (integrated keys w)) /\
  vy (position w') = vy (position (integrated keys w)) /\
  isJumping w' = isJumping (integrated keys w) /\
  jumpForce w' = 0 /\ groundLevel w' = groundLevel w.
Proof.
  intros I Hlt. cbv zeta.
  destruct (ground_frame_cases keys now w) as (Ef & Eg & _ & _ & C).
  cbv zeta in C. rewrite (idle_walking _ I) in C.
  destruct C as [(Hle & _)|(_ & Hv & Hj & Hy)]; [lra|auto].
Qed.

Lemma ground_flight (frames : list Ground.Frame) (w : World) :
  isJumping w = true -> jumpForce w = 0 ->
  Forall (fun f => idle (Ground.keys f)) frames ->
  (forall j : nat, (1 <= j <= List.length frames)%nat ->
     groundLevel w <
     vy (position w) + INR j * vy (velocity w)
     + gravity * (INR j * (INR j + 1) / 2)) ->
  let n := INR (List.length frames) in
  let w' := Ground.run frames w in
  isJumping w' = true /\
  vy (velocity w') = vy (velocity w) + n * gravity /\
  vy (position w') =
    vy (position w) + n * vy (velocity w) + gravity * (n * (n + 1) / 2) /\
  jumpForce w' = 0 /\ groundLevel w' = groundLevel w.
Proof.
  intros J F H. revert w J F.
  induction H as [|f frames I _ IH]; intros w J F Hab; cbv zeta.
  - cbn. repeat split; auto; lra.
  - cbn [Ground.run].
    destruct (integrated_vertical (Ground.keys f) w) as (Pj & Pv & Py & _).
    cbv zeta in Pj, Pv, Py. rewrite J, F in *.
    rewrite andb_false_r in Pv, Py. cbn [orb] in Pj.
    assert (H1 : groundLevel w
                 < vy (position (integrated (Ground.keys f) w))).
    { rewrite Py. specialize (Hab 1%nat). cbn [INR] in Hab.
      assert (L : (1 <= 1 <= List.length (f :: frames))%nat) by (cbn; lia).
      specialize (Hab L). lra. }
    destruct (ground_idle_frame_above (Ground.keys f) (Ground.now f) w I H1)
      as (Hv & Hy & Hj & Hf & Hg).
    set (w1 := Ground.animate (Ground.keys f) (Ground.now f) w) in *.
    rewrite Pv in Hv. rewrite Py in Hy. rewrite Pj in Hj.
    destruct (IH w1 Hj Hf) as (Ij & Iv & Iy & If & Ig).
    { intros j Hj'. rewrite Hg, Hy, Hv.
      assert (L : (1 <= S j <= List.length (f :: frames))%nat)
        by (cbn; lia).
      specialize (Hab (S j) L). rewrite S_INR in Hab. lra. }
    cbv zeta in Iv, Iy.
    rewrite Ij, Iv, Iy, If, Ig, Hv, Hy, Hg.
    change (List.length (f :: frames)) with (S (List.length frames)).
    rewrite S_INR. repeat split; try reflexivity; lra.
Qed.

Lemma basic_flight (frames : list Basic.Frame) (w : Basic.World) :
  Basic.isJumping w = true -> Basic.jumpForce w = 0 ->
  (forall j : nat, (1 <= j <= List.length frames)%nat ->
     0 < vy (Basic.position w) + INR j * vy (Basic.velocity w)
         + Basic.gravity * (INR j * (INR j + 1) / 2)) ->
  let n := INR (List.length frames) in
  let w' := Basic.run frames w in
  Basic.isJumping w' = true /\
  vy (Basic.velocity w') = vy (Basic.velocity w) + n * Basic.gravity /\
  vy (Basic.position w') =
    vy (Basic.position w) + n * vy (Basic.velocity w)
    + Basic.gravity * (n * (n + 1) / 2) /\
  Basic.jumpForce w' = 0.
Proof.
  revert w. induction frames as [|f frames IH]; intros w J F Hab; cbv zeta.
  - cbn. repeat split; auto; lra.
  - cbn [Basic.run].
    destruct (basic_frame_cases (Basic.keys f) (Basic.now f) w) as (Ef & C).
    cbv zeta in C. rewrite J, F in C. rewrite andb_false_r in C.
    cbn [orb] in C.
    set (w1 := Basic.animate (Basic.keys f) (Basic.now f) w) in *.
    assert (L1 : (1 <= 1 <= List.length (f :: frames))%nat) by (cbn; lia).
    pose proof (Hab 1%nat L1) as H1. cbn [INR] in H1.
    destruct C as [(Hle & _)|(_ & Hv & Hj & Hy)]; [lra|].
    destruct (IH w1 Hj Ef) as (Ij & Iv & Iy & If).
    { intros j Hj'. rewrite Hy, Hv.
      assert (L : (1 <= S j <= List.length (f :: frames))%nat)
        by (cbn; lia).
      specialize (Hab (S j) L). rewrite S_INR in Hab. lra. }
    cbv zeta in Iv, Iy.
    rewrite Ij, Iv, Iy, If, Hv, Hy.
    change (List.length (f :: frames)) with (S (List.length frames)).
    rewrite S_INR. repeat split; try reflexivity; lra.
Qed.

Lemma between_consecutive (n a : nat) :
  0 <= (INR n - IZR (Z.of_nat a)) * (INR n - IZR (Z.of_nat a) - 1).
Proof.
  rewrite <- INR_IZR_INZ. destruct (le_lt_dec n a) as [H|H].
  - apply le_INR in H. nra.
  - assert (H' : (S a <= n)%nat) by lia.
    apply le_INR in H'. rewrite S_INR in H'. nra.
Qed.

(** X9. The flight of a standing jump.  In part_001, a figure on the ground
    that jumps without a forward or backward key down is in the air at the
    end of each of the first 28 frames, the first being the frame of the
    jump; after n of them its vertical velocity is 0.3 - 0.02 n and its
    height above the ground 0.3 n - 0.01 n (n + 1), which is never more
    than 2.1.  In main.js, whatever keys are down after the jump, the same
    holds for the first 38 frames with velocity 0.2 - 0.01 n, height
    0.2 n - 0.005 n (n + 1) and 1.9 as the bound. *)
Theorem X9_flight_of_a_jump :
  (forall (f : Ground.Frame) (frames : list Ground.Frame) (w : World),
     Ground.onGround w ->
     spaceHeld (Ground.keys f) = true ->
     Forall (fun g => idle (Ground.keys g)) (f :: frames) ->
     (List.length (f :: frames) <= 28)%nat ->
     let n := INR (List.length (f :: frames)) in
     let w' := Ground.run (f :: frames) w in
     isJumping w' = true /\
     vy (velocity w') = jumpImpulse + n * gravity /\
     vy (position w')
       = groundLevel w + n * jumpImpulse + gravity * (n * (n + 1) / 2) /\
     groundLevel w < vy (position w') <= groundLevel w + 2.1) /\
  (forall (f : Basic.Frame) (frames : list Basic.Frame) (w : Basic.World),
     onGroundBasic w ->
     Basic.Space (Basic.keys f) = true ->
     (List.length (f :: frames) <= 38)%nat ->
     let n := INR (List.length (f :: frames)) in
     let w' := Basic.run (f :: frames) w in
     Basic.isJumping w' = true /\
     vy (Basic.velocity w') = Basic.jumpImpulse + n * Basic.gravity /\
     vy (Basic.position w')
       = n * Basic.jumpImpulse + Basic.gravity * (n * (n + 1) / 2) /\
     0 < vy (Basic.position w') <= 1.9).
Proof.
  split.
  - intros f frames w (Oy & Ov & Oj & Of) Sp I Hlen n w'.
    apply Forall_cons_iff in I. destruct I as [I0 I].
    subst w'. cbn [Ground.run].
    destruct (integrated_vertical (Ground.keys f) w) as (Pj & Pv & Py & _).
    cbv zeta in Pj, Pv, Py. rewrite Sp, Oj, Ov, Oy in *.
    cbn [andb negb orb] in Pj, Pv, Py.
    assert (H1 : groundLevel w
                 < vy (position (integrated (Ground.keys f) w)))
      by (rewrite Py; unfold gravity, jumpImpulse; lra).
    destruct (ground_idle_frame_above (Ground.keys f) (Ground.now f) w I0 H1)
      as (Hv & Hy & Hj & Hf & Hg).
    set (w1 := Ground.animate (Ground.keys f) (Ground.now f) w) in *.
    rewrite Pv in Hv. rewrite Py in Hy. rewrite Pj in Hj.
    assert (Hlen' : (List.length frames <= 27)%nat) by (cbn in Hlen; lia).
    destruct (ground_flight frames w1 Hj Hf I) as (Ij & Iv & Iy & _ & _).
    { intros j [Hj1 Hj2]. rewrite Hg, Hy, Hv.
      assert (Hb : INR j <= 27)
        by (apply (INR_bound j 27); lia).
      pose proof (pos_INR j). unfold gravity, jumpImpulse. nra. }
    cbv zeta in Iv, Iy. rewrite Ij, Iv, Iy, Hv, Hy.
    unfold n. change (List.length (f :: frames)) with (S (List.length frames)).
    rewrite S_INR. set (m := INR (List.length frames)).
    assert (Hm : 0 <= m <= 27)
      by (split; [apply pos_INR|apply (INR_bound _ 27), Hlen']).
    pose proof (between_consecutive (S (List.length frames)) 14) as Hq.
    rewrite S_INR in Hq. fold m in Hq.
    change (Z.of_nat 14) with 14%Z in Hq.
    unfold gravity, jumpImpulse.
    repeat split; try lra; nra.
  - intros f frames w (Oy & Ov & Oj & Of) Sp Hlen n w'.
    subst w'. cbn [Basic.run].
    destruct (basic_frame_cases (Basic.keys f) (Basic.now f) w) as (Ef & C).
    cbv zeta in C. rewrite Sp, Oj, Ov, Oy in C. cbn [andb negb orb] in C.
    set (w1 := Basic.animate (Basic.keys f) (Basic.now f) w) in *.
    destruct C as [(Hle & _)|(_ & Hv & Hj & Hy)];
      [unfold Basic.gravity, Basic.jumpImpulse in Hle; lra|].
    assert (Hlen' : (List.length frames <= 37)%nat) by (cbn in Hlen; lia).
    destruct (basic_flight frames w1 Hj Ef) as (Ij & Iv & Iy & _).
    { intros j [Hj1 Hj2]. rewrite Hy, Hv.
      assert (Hb : INR j <= 37)
        by (apply (INR_bound j 37); lia).
      pose proof (pos_INR j). unfold Basic.gravity, Basic.jumpImpulse. nra. }
    cbv zeta in Iv, Iy. rewrite Ij, Iv, Iy, Hv, Hy.
    unfold n. change (List.length (f :: frames)) with (S (List.length frames)).
    rewrite S_INR. set (m := INR (List.length frames)).
    assert (Hm : 0 <= m <= 37)
      by (split; [apply pos_INR|apply (INR_bound _ 37), Hlen']).
    pose proof (between_consecutive (S (List.length frames)) 19) as Hq.
    rewrite S_INR in Hq. fold m in Hq.
    change (Z.of_nat 19) with 19%Z in Hq.
    unfold Basic.gravity, Basic.jumpImpulse.
    repeat split; try lra; nra.
Qed.

(** X9 on three frames with the space bar down. *)
Lemma X9_flight_of_a_jump_witness :
  vy (position (Ground.run Sample.jumpSession initial))
    = legLength + 3 * jumpImpulse + gravity * 6 /\
  vy (Basic.position (Basic.run Sample.jumpSession' Basic.rest))
    = 3 * Basic.jumpImpulse + Basic.gravity * 6.
Proof.
  destruct X9_flight_of_a_jump as [T1 T2].
  split.
  - destruct (T1 (Ground.mkFrame Sample.hold 0)
                [Ground.mkFrame Sample.hold 16; Ground.mkFrame Sample.hold 33]
                initial) as (_ & _ & E & _).
    + repeat split; reflexivity.
    + reflexivity.
    + repeat constructor.
    + cbn. lia.
    + unfold Sample.jumpSession. rewrite E.
      unfold initial. cbn [groundLevel List.length INR]. lra.
  - destruct (T2 (Basic.mkFrame Sample.held 0)
                [Basic.mkFrame Sample.held 16; Basic.mkFrame Sample.held 33]
                Basic.rest) as (_ & _ & E & _).
    + repeat split; reflexivity.
    + reflexivity.
    + cbn. lia.
    + unfold Sample.jumpSession'. rewrite E.
      cbn [List.length INR]. lra.
Defined.

(** ** Joint limits *)

Lemma swing_bound (x amp : R) : 0 <= amp -> Rabs (sin x * amp) <= amp.
Proof.
  intros Ha. rewrite Rabs_mult, (Rabs_right amp) by lra.
  assert (Rabs (sin x) <= 1) by (apply Rabs_le, SIN_bound).
  pose proof (Rabs_pos (sin x)). nra.
Qed.

Lemma limbs_frame_within (pm : option Platform.Mesh) (keys : Keys) (now : Z)
  (w : World) (bound : R) :
  1 <= bound -> limbsWithin bound (limbs w) ->
  limbsWithin bound (limbs (Ground.animate keys now w)) /\
  limbsWithin bound (limbs (Platform.animate pm keys now w)).
Proof.
  intros Hb Hw.
  destruct (frame_limbs pm keys now w) as [G P]. cbv zeta in G, P.
  rewrite G, P. clear G P.
  assert (A : limbsWithin bound
    (if (forwardHeld keys || backwardHeld keys)%bool
     then [sin (seconds now * frequency (shiftHeld keys))
             * armAmplitude (shiftHeld keys);
           sin (seconds now * frequency (shiftHeld keys) + PI)
             * armAmplitude (shiftHeld keys);
           sin (seconds now * frequency (shiftHeld keys) + PI)
             * legAmplitude (shiftHeld keys);
           sin (seconds now * frequency (shiftHeld keys))
             * legAmplitude (shiftHeld keys)]
     else map (fun a => lerp a 0 0.1) (limbs w))).
  { destruct (forwardHeld keys || backwardHeld keys)%bool.
    - unfold limbsWithin.
      assert (Ha : 0 <= armAmplitude (shiftHeld keys) <= 1)
        by (unfold armAmplitude; destruct (shiftHeld keys); lra).
      assert (Hl : 0 <= legAmplitude (shiftHeld keys) <= 1)
        by (unfold legAmplitude; destruct (shiftHeld keys); lra).
      repeat (apply Forall_cons;
              [eapply Rle_trans; [apply swing_bound; lra|lra]|]).
      apply Forall_nil.
    - unfold limbsWithin in *. apply Forall_map.
      eapply Forall_impl; [|exact Hw]. cbv beta. intros a Ha.
      rewrite lerp_to_rest, Rabs_mult, (Rabs_right 0.9) by lra.
      pose proof (Rabs_pos a). lra. }
  split; exact A.
Qed.

(** X10. Joint limits.  In part_000 and part_001 no frame takes a joint
    angle out of [-1, 1]: if the four angles are within a bound of at least
    1 before a session they are within it after it, and they start at 0.  In
    main.js every frame leaves the four angles within 0.7, whatever they
    were. *)
Theorem X10_joint_limits :
  limbsWithin 1 (limbs initial) /\
  (forall (frames : list Ground.Frame) (w : World) (bound : R),
     1 <= bound -> limbsWithin bound (limbs w) ->
     limbsWithin bound (limbs (Ground.run frames w))) /\
  (forall (frames : list Platform.Frame) (w : World) (bound : R),
     1 <= bound -> limbsWithin bound (limbs w) ->
     limbsWithin bound (limbs (Platform.run frames w))) /\
  (forall (keys : Basic.Keys) (now : Z) (w : Basic.World),
     limbsWithin 0.7 (Basic.limbs (Basic.animate keys now w))).
Proof.
  split; [|split; [|split]].
  - unfold limbsWithin, limbs, initial. cbn.
    repeat (apply Forall_cons; [rewrite Rabs_R0; lra|]). apply Forall_nil.
  - induction frames as [|f frames IH]; intros w bound Hb Hw; [exact Hw|].
    cbn [Ground.run]. apply IH; [exact Hb|].
    apply (limbs_frame_within None _ _ _ _ Hb Hw).
  - induction frames as [|f frames IH]; intros w bound Hb Hw; [exact Hw|].
    cbn [Platform.run]. apply IH; [exact Hb|].
    apply (limbs_frame_within (Platform.platformMesh f) _ _ _ _ Hb Hw).
  - intros keys now w. rewrite basic_frame_limbs. cbv zeta.
    unfold limbsWithin.
    destruct (Basic.ArrowUp keys || Basic.ArrowDown keys)%bool.
    + repeat (apply Forall_cons; [apply swing_bound; lra|]). apply Forall_nil.
    + repeat (apply Forall_cons; [rewrite Rabs_R0; lra|]). apply Forall_nil.
Qed.

(** X10 on a walk, a turn and a step back from the initial state. *)
Lemma X10_joint_limits_witness :
  limbsWithin 1 (limbs (Ground.run More.zigzag initial)).
Proof.
  destruct X10_joint_limits as (T0 & T1 & _).
  apply (T1 More.zigzag initial 1); [lra|exact T0].
Defined.

(** ** The gait of main.js *)

(** X11. The gait of main.js.  With an up or down arrow down, the left arm
    and the right leg take the same angle, 0.7 * sin (time * rate), and the
    right arm and the left leg take the same angle,
    0.7 * [Math.sin(time * rate + Math.PI)]: the two are exactly opposite
    when that sum is exact, and within 0.7 times [err] of opposite when it
    is off by [err].  The rate is 1.5, or 2.5 with [keys.Shift], so at one
    and the same phase the angles are the same with and without it: the run
    modifier changes the rate, never the amplitude. *)
Theorem X11_main_js_gait :
  (forall (keys : Basic.Keys) (now : Z) (w : Basic.World),
     (Basic.ArrowUp keys || Basic.ArrowDown keys)%bool = true ->
     let w' := Basic.animate keys now w in
     let phase := seconds now * (if Basic.Shift keys then 2.5 else 1.5) in
     Basic.leftArm w' = Basic.rightLeg w' /\
     Basic.rightArm w' = Basic.leftLeg w' /\
     Basic.leftArm w' = 0.7 * sin phase /\
     Basic.rightArm w' = oppositeCycle 0 phase * 0.7 /\
     (forall err : R,
        Rabs (oppositeCycle err phase * 0.7 + Basic.leftArm w')
          <= 0.7 * Rabs err)) /\
  (forall (time time' : R),
     time * 1.5 = time' * 2.5 ->
     Basic.animateStickmanLimbs time true false
       = Basic.animateStickmanLimbs time' true true).
Proof.
  split.
  - intros keys now w W w' phase.
    pose proof (basic_frame_limbs keys now w) as E. cbv zeta in E.
    rewrite W in E. fold w' in E. fold phase in E. unfold Basic.limbs in E.
    injection E as -> -> -> ->.
    split; [reflexivity|split; [reflexivity|split; [ring|split]]].
    + unfold oppositeCycle. rewrite Rplus_0_r. reflexivity.
    + intros err. apply opposite_cycle_scaled. lra.
  - intros time time' H. unfold Basic.animateStickmanLimbs. cbv zeta.
    rewrite H. reflexivity.
Qed.

(** X11 on the figure of main.js one second into a walk, with the sum off
    by a ten-millionth. *)
Lemma X11_main_js_gait_witness :
  Basic.leftArm Sample.swung = Basic.rightLeg Sample.swung /\
  Rabs (oppositeCycle 0.0000001 (seconds 1000 * 1.5) * 0.7
        + Basic.leftArm Sample.swung) <= 0.7 * Rabs 0.0000001 /\
  Basic.animateStickmanLimbs 5 true false
    = Basic.animateStickmanLimbs 3 true true.
Proof.
  destruct X11_main_js_gait as [T1 T2].
  destruct (T1 Sample.up 1000%Z Basic.rest eq_refl) as (A & _ & _ & _ & B).
  split; [exact A|split; [exact (B 0.0000001)|]].
  apply (T2 5 3). lra.
Defined.

(** ** A mesh out of reach *)

Lemma out_of_reach_contact (pm : option Platform.Mesh) (w : World) :
  outOfReach pm w -> Platform.contact pm w = w.
Proof.
  destruct pm as [mesh|]; [|reflexivity]. cbn [outOfReach]. intros Hhigh.
  apply contact_miss.
  destruct (Platform.intersectObject _ mesh) as [|hit rest] eqn:E;
    [reflexivity|].
  destruct (first_hit mesh w hit rest E) as (Hle & Hin & _).
  specialize (Hhigh _ Hin). lra.
Qed.

Lemma idle_integrated_column (keys : Keys) (w : World) :
  idle keys ->
  vx (position (integrated keys w)) = vx (position w) /\
  vz (position (integrated keys w)) = vz (position w).
Proof.
  intros [F B].
  destruct (integrated_horizontal keys w) as (_ & Hx & Hz & _).
  destruct (handleInput_stride keys w) as (Sx & _ & Sz).
  cbv zeta in *. rewrite Hx, Hz, Sx, Sz. unfold stride. rewrite F, B.
  split; lra.
Qed.

Lemma out_of_reach_lower (pm : option Platform.Mesh) (w w' : World) :
  vx (position w') = vx (position w) -> vz (position w') = vz (position w) ->
  vy (position w') <= vy (position w) ->
  outOfReach pm w -> outOfReach pm w'.
Proof.
  destruct pm as [mesh|]; [|auto]. cbn [outOfReach].
  intros -> -> Hy H h Hin. specialize (H h Hin). lra.
Qed.

(** A frame in which nothing is held, falling, with the mesh out of reach,
    is the frame without a mesh. *)
Lemma passed_by_frame (f : Platform.Frame) (w : World) :
  passedBy w f -> jumpForce w = 0 -> vy (velocity w) <= 0 ->
  let w' := Platform.animate (Platform.platformMesh f) (Platform.keys f)
              (Platform.now f) w in
  w' = Platform.animate None (Platform.keys f) (Platform.now f) w /\
  jumpForce w' = 0 /\ vy (velocity w') <= 0 /\
  vx (position w') = vx (position w) /\ vz (position w') = vz (position w) /\
  vy (position w') <= vy (position w).
Proof.
  intros (I & Sp & O) F V. cbv zeta.
  destruct (integrated_vertical (Platform.keys f) w) as (_ & _ & Py & _).
  cbv zeta in Py. rewrite Sp, F in Py. cbn [andb] in Py.
  destruct (idle_integrated_column (Platform.keys f) w I) as [Cx Cz].
  assert (E : Platform.animate (Platform.platformMesh f) (Platform.keys f)
                (Platform.now f) w
              = Platform.animate None (Platform.keys f) (Platform.now f) w).
  { rewrite !platform_frame, contact_unloaded.
    rewrite out_of_reach_contact; [reflexivity|].
    apply (out_of_reach_lower _ w); auto.
    rewrite Py. unfold gravity. lra. }
  rewrite E.
  destruct (unloaded_frame (Platform.keys f) (Platform.now f) w)
    as (_ & Hv & Hf & _ & Hy).
  cbv zeta in Hv, Hy. rewrite (idle_walking _ I) in Hy.
  rewrite Sp, F in Hv, Hy. cbn [andb] in Hv, Hy.
  destruct (platform_frame_horizontal None (Platform.keys f)
              (Platform.now f) w) as (_ & Hx & Hz).
  destruct (integrated_horizontal (Platform.keys f) w) as (_ & Ix & Iz & _).
  cbv zeta in *. rewrite <- Ix in Hx. rewrite <- Iz in Hz.
  rewrite Hx, Hz, Cx, Cz, Hv, Hy, Hf. unfold gravity.
  repeat split; lra.
Qed.

Lemma platform_run_cons (f : Platform.Frame) (frames : list Platform.Frame)
  (w : World) :
  Platform.run (f :: frames) w =
  Platform.run frames
    (Platform.animate (Platform.platformMesh f) (Platform.keys f)
       (Platform.now f) w).
Proof. reflexivity. Qed.

Lemma run_unload_cons (f : Platform.Frame) (frames : list Platform.Frame)
  (w : World) :
  Platform.run (map unload (f :: frames)) w =
  Platform.run (map unload frames)
    (Platform.animate None (Platform.keys f) (Platform.now f) w).
Proof.
  change (map unload (f :: frames)) with (unload f :: map unload frames).
  rewrite platform_run_cons. reflexivity.
Qed.

(** X12. A mesh out of reach never catches the figure.  In part_000 the
    ray starts 1 above the figure and goes down, so a frame in which no
    surface of the mesh lies in the figure's column at or below that point
    is the frame of a null [platformMesh].  A figure that is not moving up,
    with nothing held, and more than 1 below every surface of its column
    therefore falls as if no mesh had been loaded, in every later frame:
    after N frames its height is y + N v + gravity N (N + 1) / 2. *)
Theorem X12_out_of_reach_is_unloaded :
  (forall (pm : option Platform.Mesh) (keys : Keys) (now : Z) (w : World),
     outOfReach pm (integrated keys w) ->
     Platform.animate pm keys now w = Platform.animate None keys now w) /\
  (forall (frames : list Platform.Frame) (w : World),
     Forall (passedBy w) frames ->
     jumpForce w = 0 -> vy (velocity w) <= 0 ->
     let n := INR (List.length frames) in
     let w' := Platform.run frames w in
     w' = Platform.run (map unload frames) w /\
     vy (velocity w') = vy (velocity w) + n * gravity /\
     vy (position w') =
       vy (position w) + n * vy (velocity w) + gravity * (n * (n + 1) / 2) /\
     isJumping w' = isJumping w).
Proof.
  split.
  - intros pm keys now w O.
    rewrite !platform_frame, contact_unloaded, out_of_reach_contact by exact O.
    reflexivity.
  - intros frames w H F V.
    assert (E : Platform.run frames w = Platform.run (map unload frames) w).
    { revert w H F V. induction frames as [|f frames IH]; intros w H F V;
        [reflexivity|].
      apply Forall_cons_iff in H. destruct H as [Hf H].
      destruct (passed_by_frame f w Hf F V) as (E1 & F1 & V1 & X1 & Z1 & Y1).
      cbv zeta in E1, F1, V1, X1, Z1, Y1.
      rewrite run_unload_cons, platform_run_cons, <- E1.
      apply IH; [|exact F1|exact V1].
      eapply Forall_impl; [|exact H].
      intros g (I & Sp & O). split; [exact I|split; [exact Sp|]].
      apply (out_of_reach_lower _ w); auto. }
    cbv zeta. rewrite E. split; [reflexivity|].
    assert (U : Forall Platform.untouched (map unload frames)).
    { apply Forall_map. eapply Forall_impl; [|exact H].
      intros g (I & Sp & _). split; [reflexivity|split; [exact I|exact Sp]]. }
    destruct (untouched_run (map unload frames) w U F) as (Hv & Hy & _ & Hj).
    cbv zeta in Hv, Hy. rewrite length_map in Hv, Hy. auto.
Qed.

(** X12 on a figure three below a sheet at height 0. *)
Lemma X12_out_of_reach_is_unloaded_witness :
  vy (position (Platform.run More.idleOverhead More.buried))
    = -3 + 3 * -0.5 + gravity * 6.
Proof.
  destruct X12_out_of_reach_is_unloaded as [_ T2].
  destruct (T2 More.idleOverhead More.buried) as (_ & _ & E & _).
  - unfold More.idleOverhead, passedBy, outOfReach, More.buried,
      Platform.sheet.
    repeat (apply Forall_cons;
            [repeat split; try reflexivity;
             cbn; intros h [<-|[]]; lra|]).
    apply Forall_nil.
  - reflexivity.
  - unfold More.buried. cbn. lra.
  - rewrite E. unfold More.buried.
    cbn [More.idleOverhead List.length INR velocity position vy]. lra.
Defined.

(** ** A flat sheet and the flat ground *)

(** X13. part_000 on a flat sheet against part_001.  When the mesh is a
    horizontal sheet at the remembered ground level, a frame of part_000 is
    the frame of part_001, as long as the figure, after the physics of the
    frame, is not more than 1 below the sheet (where the ray would miss it)
    and not in the band of 0.01 above it (where only part_000 snaps). *)
Theorem X13_sheet_frame_is_ground_frame :
  forall (keys : Keys) (now : Z) (w : World),
    let y := vy (position (integrated keys w)) in
    groundLevel w <= y + 1 ->
    y <= groundLevel w \/ groundLevel w + 0.01 < y ->
    Platform.animate (Some (Platform.sheet (groundLevel w))) keys now w
      = Ground.animate keys now w.
Proof.
  intros keys now w y Hreach Hband.
  rewrite platform_frame, ground_frame. f_equal.
  destruct (integrated_vertical keys w) as (_ & _ & _ & _ & Hg & _).
  cbv zeta in Hg. subst y. rewrite <- Hg in *.
  set (pre := integrated keys w) in *. clearbody pre. clear Hg.
  unfold Platform.contact.
  rewrite (sheet_hit (add (position pre) (Vec3 0 1 0)) (groundLevel pre))
    by (cbn [add vy]; lra).
  cbv zeta. cbn [Platform.point vy]. unfold Ground.groundCollision.
  destruct pre as [wk rn jp [ux uy uz] jf g [px py pz] ry la ra ll rl].
  cbn [groundLevel position vy] in *.
  destruct (Rleb py (g + 0.01)) eqn:A, (Rleb py g) eqn:B; order_facts;
    try (exfalso; lra); reflexivity.
Qed.

(** X13 on the first idle frame from the initial state. *)
Lemma X13_sheet_frame_is_ground_frame_witness :
  Platform.animate (Some (Platform.sheet (groundLevel initial))) noKeys 0
                   initial
    = Ground.animate noKeys 0 initial.
Proof.
  assert (Hy : vy (position (integrated noKeys initial)) = legLength + gravity)
    by (eval_world; lra).
  apply (X13_sheet_frame_is_ground_frame noKeys 0%Z initial).
  - rewrite Hy. unfold initial. cbn [groundLevel]. constants. lra.
  - left. rewrite Hy. unfold initial. cbn [groundLevel]. constants. lra.
Defined.

(** ** Walking on nothing *)

(** X14. Walking before the mesh is loaded.  In part_000, along frames with
    a null [platformMesh], a forward or backward key down and the space bar
    up, the limb step keeps the figure within 0.05 above the remembered
    ground level while its vertical velocity goes on gaining the gravity
    every frame; the first frame without those keys then drops the figure
    by the whole of that velocity. *)
Theorem X14_walking_on_nothing :
  (forall (frames : list Platform.Frame) (w : World),
     Forall strollingUnloaded frames -> frames <> [] -> jumpForce w = 0 ->
     let w' := Platform.run frames w in
     groundLevel w <= vy (position w') <= groundLevel w + 0.05 /\
     vy (velocity w')
       = vy (velocity w) + INR (List.length frames) * gravity /\
     jumpForce w' = 0) /\
  (forall (keys : Keys) (now : Z) (w : World),
     idle keys -> spaceHeld keys = false -> jumpForce w = 0 ->
     vy (position (Platform.animate None keys now w))
       = vy (position w) + (vy (velocity w) + gravity)).
Proof.
  split.
  - intros frames w H Hne F.
    assert (A : forall frames w,
               Forall strollingUnloaded frames -> jumpForce w = 0 ->
               let w' := Platform.run frames w in
               vy (velocity w')
                 = vy (velocity w) + INR (List.length frames) * gravity /\
               jumpForce w' = 0 /\ groundLevel w' = groundLevel w /\
               (frames <> [] ->
                groundLevel w <= vy (position w') <= groundLevel w + 0.05)).
    { clear. intros frames w H. revert w.
      induction H as [|f frames (U & W & Sp) Hrest IH]; intros w F; cbv zeta.
      - cbn [Platform.run List.length INR].
        split; [lra|split; [exact F|split; [reflexivity|]]].
        intros Hne. congruence.
      - cbn [Platform.run]. rewrite U.
        destruct (unloaded_frame (Platform.keys f) (Platform.now f) w)
          as (_ & Hv & Hf & Hg & Hy).
        cbv zeta in Hv, Hy. rewrite W in Hy. rewrite Sp, F in Hv.
        cbn [andb] in Hv.
        destruct (IH _ Hf) as (Iv & If & Ig & Ib). cbv zeta in Iv, Ib.
        rewrite Iv, If, Ig, Hv, Hg.
        change (List.length (f :: frames)) with (S (List.length frames)).
        rewrite S_INR. repeat split; try lra.
        + destruct frames as [|g frames].
          * cbn [Platform.run]. rewrite Hy.
            pose proof (bodyBob_bounds (seconds (Platform.now f))
                          (shiftHeld (Platform.keys f))). lra.
          * rewrite <- Hg. apply Ib. discriminate.
        + destruct frames as [|g frames].
          * cbn [Platform.run]. rewrite Hy.
            pose proof (bodyBob_bounds (seconds (Platform.now f))
                          (shiftHeld (Platform.keys f))). lra.
          * rewrite <- Hg. apply Ib. discriminate. }
    destruct (A frames w H F) as (Hv & Hf & _ & Hb). cbv zeta in *.
    repeat split; auto; apply Hb, Hne.
  - intros keys now w I Sp F.
    destruct (unloaded_frame keys now w) as (_ & _ & _ & _ & Hy).
    cbv zeta in Hy. rewrite (idle_walking _ I), Sp, F in Hy.
    cbn [andb] in Hy. rewrite Hy. lra.
Qed.

(** X14 on two frames walking, from the initial state. *)
Lemma X14_walking_on_nothing_witness :
  vy (velocity (Platform.run More.strolling initial)) = 2 * gravity /\
  legLength <= vy (position (Platform.run More.strolling initial)).
Proof.
  destruct X14_walking_on_nothing as [T1 _].
  destruct (T1 More.strolling initial) as ((Hlo & _) & Hv & _).
  - repeat constructor.
  - discriminate.
  - reflexivity.
  - split; [|exact Hlo]. rewrite Hv. unfold initial.
    cbn [More.strolling List.length INR velocity vy]. lra.
Defined.

(** ** The feet *)

Lemma foot_height (w : World) (q : Vector3) (a : R) :
  vy (Figure.toWorld w q a (Figure.lowerEnd (Figure.createLeg legLength)))
  = vy (position w) + vy q - legLength * cos a.
Proof.
  unfold Figure.toWorld, Figure.lowerEnd, Figure.createLeg, Figure.rotateX,
    applyAxisAngleY, add.
  cbn [vx vy vz Figure.meshY Figure.height]. lra.
Qed.

Lemma cos_one : 0.5 < cos 1.
Proof.
  pose proof PI_gt_3.
  destruct (COS 1) as [L _]; [lra|lra|].
  eapply Rlt_le_trans; [|exact L].
  unfold cos_lb, cos_approx, cos_term. cbn [sum_f_R0 Nat.mul Nat.add pow].
  rewrite !INR_IZR_INZ.
  change (Z.of_nat (fact 0)) with 1%Z.
  change (Z.of_nat (fact 2)) with 2%Z.
  change (Z.of_nat (fact 4)) with 24%Z.
  change (Z.of_nat (fact 6)) with 720%Z.
  lra.
Qed.

Lemma cos_within_one (a : R) : Rabs a <= 1 -> cos 1 <= cos a.
Proof.
  intros Ha. pose proof PI_gt_3. pose proof (Rabs_pos a).
  assert (E : cos a = cos (Rabs a)).
  { unfold Rabs. destruct (Rcase_abs a); [rewrite cos_neg|]; reflexivity. }
  rewrite E. apply cos_decr_1; lra.
Qed.

(** X15. The legs of part_001.  A leg built by [createLeg] hangs from its
    group's origin: the upper end of its cylinder stays at the origin
    whatever the length and the swing.  The lower end is at height
    [position.y - legLength * cos angle] in the scene; along any session
    that starts at rest with the ground level at [legLength] (as the script
    starts) neither foot is ever below the ground plane, and a figure that
    stands on the ground with a leg at angle 0 has that foot exactly on
    it. *)
Theorem X15_feet_on_the_ground :
  (forall (length a : R),
     Figure.rotateX (Figure.upperEnd (Figure.createLeg length)) a
       = Vec3 0 0 0) /\
  (forall w : World,
     vy (Figure.leftFoot w)
       = vy (position w) - legLength * cos (leftLeg w) /\
     vy (Figure.rightFoot w)
       = vy (position w) - legLength * cos (rightLeg w)) /\
  (forall (frames : list Ground.Frame) (w : World),
     Ground.resting w -> groundLevel w = legLength ->
     Figure.groundPlane <= vy (Figure.leftFoot (Ground.run frames w)) /\
     Figure.groundPlane <= vy (Figure.rightFoot (Ground.run frames w))) /\
  (forall w : World,
     Ground.onGround w -> groundLevel w = legLength ->
     (leftLeg w = 0 -> vy (Figure.leftFoot w) = Figure.groundPlane) /\
     (rightLeg w = 0 -> vy (Figure.rightFoot w) = Figure.groundPlane)).
Proof.
  assert (H2 : forall w : World,
             vy (Figure.leftFoot w)
               = vy (position w) - legLength * cos (leftLeg w) /\
             vy (Figure.rightFoot w)
               = vy (position w) - legLength * cos (rightLeg w)).
  { intros w. unfold Figure.leftFoot, Figure.rightFoot.
    rewrite !foot_height. cbn [Figure.leftLegPosition
      Figure.rightLegPosition vy]. split; lra. }
  split; [|split; [exact H2|split]].
  - intros length a. unfold Figure.rotateX, Figure.upperEnd, Figure.createLeg.
    cbn [vx vy vz Figure.meshY Figure.height]. f_equal; lra.
  - intros frames w Hr Hg.
    destruct (resting_run frames w Hr) as [(_ & Hfl & _) Hg'].
    rewrite Hg', Hg in Hfl.
    destruct (H2 (Ground.run frames w)) as [L R]. rewrite L, R.
    pose proof (COS_bound (leftLeg (Ground.run frames w))).
    pose proof (COS_bound (rightLeg (Ground.run frames w))).
    unfold Figure.groundPlane, legLength, scale in *. split; nra.
  - intros w (Oy & _) Hg. destruct (H2 w) as [L R]. rewrite L, R, Oy, Hg.
    unfold Figure.groundPlane. split; intros ->; rewrite cos_0; lra.
Qed.

(** X15 on a walk, a turn and a step back from the initial state. *)
Lemma X15_feet_on_the_ground_witness :
  Figure.groundPlane <= vy (Figure.leftFoot (Ground.run More.zigzag initial))
  /\ vy (Figure.leftFoot initial) = Figure.groundPlane.
Proof.
  destruct X15_feet_on_the_ground as (_ & _ & T3 & T4).
  split.
  - exact (proj1 (T3 More.zigzag initial resting_initial eq_refl)).
  - apply (T4 initial); try reflexivity. repeat split; reflexivity.
Defined.

(** X16. The legs of part_000.  The contact test puts [stickman.position],
    the hips, on the contact point, and the legs hang below the hips: a
    frame in which the ray hits and the figure is not more than 0.01 above
    the hit ends with both feet more than 1 below the contact point, as long
    as the joint angles were within 1 before the frame. *)
Theorem X16_hips_on_the_contact_point :
  forall (mesh : Platform.Mesh) (keys : Keys) (now : Z) (w : World)
         (hit : Platform.Intersection) (rest : list Platform.Intersection),
    Platform.intersectObject
      (add (position (integrated keys w)) (Vec3 0 1 0)) mesh = hit :: rest ->
    vy (position (integrated keys w)) <= vy (Platform.point hit) + 0.01 ->
    limbsWithin 1 (limbs w) ->
    let w' := Platform.animate (Some mesh) keys now w in
    vy (Figure.leftFoot w') < vy (Platform.point hit) - 1 /\
    vy (Figure.rightFoot w') < vy (Platform.point hit) - 1.
Proof.
  intros mesh keys now w hit rest E Hle Hw w'.
  destruct (platform_frame_clamped mesh keys now w hit rest E Hle)
    as (_ & _ & _ & Hb & _).
  cbv zeta in Hb. fold w' in Hb.
  destruct (limbs_frame_within (Some mesh) keys now w 1 (Rle_refl 1) Hw)
    as [_ Hl].
  fold w' in Hl. unfold limbsWithin, limbs in Hl.
  apply Forall_cons_iff in Hl. destruct Hl as [_ Hl].
  apply Forall_cons_iff in Hl. destruct Hl as [_ Hl].
  apply Forall_cons_iff in Hl. destruct Hl as [Hll Hl].
  apply Forall_cons_iff in Hl. destruct Hl as [Hrl _].
  unfold Figure.leftFoot, Figure.rightFoot. rewrite !foot_height.
  cbn [Figure.leftLegPosition Figure.rightLegPosition vy].
  pose proof (cos_within_one _ Hll). pose proof (cos_within_one _ Hrl).
  pose proof cos_one. unfold legLength, scale. split; nra.
Qed.

(** X16 on the first idle frame over a sheet at the height of the hips. *)
Lemma X16_hips_on_the_contact_point_witness :
  vy (Figure.leftFoot
        (Platform.animate (Some (Platform.sheet legLength)) noKeys 0 initial))
    < legLength - 1.
Proof.
  assert (Hy : vy (position (integrated noKeys initial)) = legLength + gravity)
    by (eval_world; lra).
  assert (Hhit : Platform.intersectObject
            (add (position (integrated noKeys initial)) (Vec3 0 1 0))
            (Platform.sheet legLength)
          = [Platform.mkIntersection
               (vy (add (position (integrated noKeys initial)) (Vec3 0 1 0))
                - legLength)
               (Vec3 (vx (add (position (integrated noKeys initial))
                               (Vec3 0 1 0)))
                     legLength
                     (vz (add (position (integrated noKeys initial))
                               (Vec3 0 1 0))))])
    by (apply sheet_hit; cbn [add vy]; rewrite Hy; constants; lra).
  assert (Hle : vy (position (integrated noKeys initial)) <= legLength + 0.01)
    by (rewrite Hy; constants; lra).
  assert (Hl : limbsWithin 1 (limbs initial)).
  { unfold limbsWithin, limbs, initial. cbn.
    repeat (apply Forall_cons; [rewrite Rabs_R0; lra|]). apply Forall_nil. }
  exact (proj1 (X16_hips_on_the_contact_point (Platform.sheet legLength)
                  noKeys 0%Z initial _ _ Hhit Hle Hl)).
Defined.

(** ** A tap between two frames *)

Lemma playGround_sameKeys (events : list Listeners.Event) (k k' : Keys)
  (w : World) :
  sameKeys k k' ->
  sameKeys (fst (Listeners.playGround events (k, w)))
           (fst (Listeners.playGround events (k', w))) /\
  snd (Listeners.playGround events (k, w))
    = snd (Listeners.playGround events (k', w)).
Proof.
  revert k k' w. induction events as [|ev events IH]; intros k k' w H;
    [split; [exact H|reflexivity]|].
  unfold Listeners.playGround in *. cbn [fold_left].
  destruct ev as [e|now]; cbn [Listeners.stepGround fst snd].
  - apply IH. intros c. unfold Listeners.listen, setKey.
    destruct (String.eqb (Listeners.code e) "__proto__"); [apply H|].
    destruct (String.eqb c (Listeners.code e)); [reflexivity|apply H].
  - assert (E : Ground.animate k now w = Ground.animate k' now w).
    { rewrite !ground_frame, (integrated_agree k k' w); [reflexivity|].
      apply Forall_forall. intros c _. apply H. }
    rewrite E. apply IH, H.
Qed.

(** X17. No input is buffered.  A key that goes down and up again with no
    frame in between is never seen: in main.js the [keys] object after the
    two events is the one after the keyup alone, and in part_001 every
    later frame, whatever else happens, leaves the figure where it would
    be had only the keyup arrived. *)
Theorem X17_tap_between_frames_is_lost :
  (forall (c : string) (k : Basic.Keys),
     Listeners.listenBasic (Listeners.keyup c)
       (Listeners.listenBasic (Listeners.keydown c) k)
     = Listeners.listenBasic (Listeners.keyup c) k) /\
  (forall (c : string) (events : list Listeners.Event) (keys : Keys)
          (w : World),
     snd (Listeners.playGround
            (Listeners.Key (Listeners.keydown c)
             :: Listeners.Key (Listeners.keyup c) :: events) (keys, w))
     = snd (Listeners.playGround
              (Listeners.Key (Listeners.keyup c) :: events) (keys, w))) /\
  (forall (c : string) (events : list Listeners.Event) (keys : Keys)
          (w : World),
     keys c = false ->
     snd (Listeners.playGround
            (Listeners.Key (Listeners.keydown c)
             :: Listeners.Key (Listeners.keyup c) :: events) (keys, w))
     = snd (Listeners.playGround events (keys, w))).
Proof.
  split; [|split].
  - intros c k. unfold Listeners.listenBasic. cbv zeta.
    cbn [Listeners.code Listeners.pressed].
    destruct (String.eqb c "ArrowUp"); [reflexivity|].
    destruct (String.eqb c "ArrowDown"); [reflexivity|].
    destruct (String.eqb c "ArrowLeft"); [reflexivity|].
    destruct (String.eqb c "ArrowRight"); [reflexivity|].
    destruct (String.eqb c "Space"); [reflexivity|].
    destruct (String.eqb c "Shift"); reflexivity.
  - intros c events keys w.
    unfold Listeners.playGround. cbn [fold_left Listeners.stepGround fst snd].
    apply (playGround_sameKeys events). intros d.
    unfold Listeners.listen, setKey. cbn [Listeners.code Listeners.pressed].
    destruct (String.eqb c "__proto__"); [reflexivity|].
    destruct (String.eqb d c); reflexivity.
  - intros c events keys w Hc.
    unfold Listeners.playGround. cbn [fold_left Listeners.stepGround fst snd].
    apply (playGround_sameKeys events). intros d.
    unfold Listeners.listen, setKey. cbn [Listeners.code Listeners.pressed].
    destruct (String.eqb c "__proto__"); [reflexivity|].
    destruct (String.eqb_spec d c) as [->|_]; [symmetry; exact Hc|reflexivity].
Qed.

(** X17 on a tap of the space bar before two frames. *)
Lemma X17_tap_between_frames_is_lost_witness :
  snd (Listeners.playGround
         (Listeners.Key (Listeners.keydown "Space")
          :: Listeners.Key (Listeners.keyup "Space")
          :: [Listeners.Tick 0; Listeners.Tick 16]) (noKeys, initial))
  = snd (Listeners.playGround [Listeners.Tick 0; Listeners.Tick 16]
           (noKeys, initial)).
Proof.
  destruct X17_tap_between_frames_is_lost as (_ & _ & T3).
  apply (T3 "Space"%string [Listeners.Tick 0; Listeners.Tick 16]
            noKeys initial).
  reflexivity.
Defined.
